(** * Azure-AI-Models code samples: retry loops, input validation,
      conversation history.

    A shallow embedding of three of the Python sample scripts

      - [Code-Samples/Python/02-Text-and-Language/05-text-summarizer.py]
        (class [AzureTextSummarizer]),
      - [Code-Samples/Python/02-Text-and-Language/chat_with_gpt.py]
        (class [ConversationManager]),
      - [Code-Samples/Python/01-Getting-Started/first_ai_project.py]
        (function [analyze_text]),

    and the properties of their retry, validation and trimming logic.

    Conventions.  A Python [str] is a list of code points.  The vendor
    services are oracles: the reply to the [k]-th attempt is a function
    of [k], so every sequence of replies a real service can give is an
    instance.  A method of an object takes [self] and gives the updated
    [self] back.  What a method does to the outside world (requests,
    sleeps, prints) is recorded in a trace, oldest event first.
    Exceptions are the instances of Python's [Exception]; interrupts
    ([KeyboardInterrupt], task cancellation) are outside the model, and
    so are logger output and wall-clock measurements. *)

From Stdlib Require Import List ZArith NArith String Ascii Bool Arith Lia.
From Stdlib Require Import DecimalString.
From Stdlib Require QArith.
Import ListNotations.

Set Implicit Arguments.

(* ===================================================================== *)
(** ** Python values used by the scripts                                  *)
(* ===================================================================== *)

Module Py.

(** A [str]: a sequence of Unicode code points. *)
Definition str : Type := list N.

(** A literal of the source, code point by code point. *)
Definition lit (s : string) : str :=
  List.map N_of_ascii (list_ascii_of_string s).

Definition str_eqb (a b : str) : bool :=
  if list_eq_dec N.eq_dec a b then true else false.

(** [len(x)] *)
Definition len {A : Type} (l : list A) : Z := Z.of_nat (List.length l).

(** [c.isspace()] for one code point, the table [str.strip()] uses. *)
Definition isspace (c : N) : bool :=
  ((9 <=? c) && (c <=? 13)            (* \t \n \v \f \r *)
   || (28 <=? c) && (c <=? 31)        (* FS GS RS US *)
   || (c =? 32) || (c =? 133) || (c =? 160)
   || (c =? 5760)
   || (8192 <=? c) && (c <=? 8202)
   || (c =? 8232) || (c =? 8233) || (c =? 8239) || (c =? 8287)
   || (c =? 12288))%N.

Fixpoint lstrip (s : str) : str :=
  match s with
  | [] => []
  | c :: s' => if isspace c then lstrip s' else s
  end.

Definition rstrip (s : str) : str := rev (lstrip (rev s)).

(** [s.strip()] *)
Definition strip (s : str) : str := rstrip (lstrip s).

(** A text that is empty or consists only of whitespace. *)
Definition only_whitespace (s : str) : bool := forallb isspace s.

(** [bool(s)]: a [str] or a list is true when it is not empty. *)
Definition truthy {A : Type} (l : list A) : bool :=
  match l with [] => false | _ :: _ => true end.

(** [sep.join(parts)] *)
Fixpoint join (sep : str) (parts : list str) : str :=
  match parts with
  | [] => []
  | [p] => p
  | p :: rest => p ++ sep ++ join sep rest
  end.

(** The bounds of a slice: a negative index counts from the end, and
    both ends are clamped into [0 .. len]. *)
Definition clamp (n i : Z) : Z :=
  if (i <? 0)%Z then Z.max 0 (i + n) else Z.min i n.

(** [l[start:]] *)
Definition slice_from {A : Type} (start : Z) (l : list A) : list A :=
  skipn (Z.to_nat (clamp (len l) start)) l.

(** [l[:stop]] *)
Definition slice_to {A : Type} (stop : Z) (l : list A) : list A :=
  firstn (Z.to_nat (clamp (len l) stop)) l.

(** [range(n)] *)
Definition range (n : nat) : list nat := seq 0 n.

(** [str(n)] for a natural number. *)
Definition str_of_nat (n : nat) : str :=
  lit (NilEmpty.string_of_uint (Nat.to_uint n)).

(** A [Dict[str, str]]; the first binding of a key is the one in force. *)
Definition dict : Type := list (str * str).

Fixpoint lookup (key : str) (d : dict) : option str :=
  match d with
  | [] => None
  | (k, v) :: d' => if str_eqb k key then Some v else lookup key d'
  end.

(** [d.get(key, default)] *)
Definition get_default (key : str) (default : str) (d : dict) : str :=
  match lookup key d with
  | Some v => v
  | None => default
  end.

(** The exceptions the scripts raise or catch.  [HttpResponseError] is
    [azure.core.exceptions.HttpResponseError], whose [status_code] is
    [None] when there was no response; [HTTPError] is
    [requests.exceptions.HTTPError] as [raise_for_status] raises it,
    with [response.status_code].  [Exception] stands for every other
    subclass of Python's [Exception]. *)
Inductive exn : Type :=
| ValueError (msg : str)
| TypeError (msg : str)
| KeyError (key : str)
| IndexError (msg : str)
| HttpResponseError (status_code : option Z) (msg : str)
| HTTPError (status_code : Z) (msg : str)
| Exception (msg : str).

(** How a call ends: with a value or with a raised exception. *)
Inductive completion (A : Type) : Type :=
| Returned (value : A)
| Raised (e : exn).
Arguments Returned {A} value.
Arguments Raised {A} e.

End Py.

Import Py.

(* ===================================================================== *)
(** ** 05-text-summarizer.py: [AzureTextSummarizer]                        *)
(* ===================================================================== *)

Module Summarizer.

Local Open Scope Z_scope.

(** *** Data *)

(** [self.stats], without [average_processing_time] (a wall-clock
    average). *)
Record Stats : Type := {
  total_requests : Z;
  successful_requests : Z;
  failed_requests : Z;
  total_characters_processed : Z
}.

(** The object.  The two delays are whole seconds, as [__init__] sets
    them (1.0 and 2.0): their products with [2 ** attempt] are whole
    seconds too, and exact as Python floats. *)
Record AzureTextSummarizer : Type := {
  endpoint : str;
  api_key : str;
  max_retries : nat;
  retry_delay : Z;          (* seconds *)
  rate_limit_delay : Z;     (* seconds *)
  stats : Stats
}.

(** [SummaryResult], without the two wall-clock fields
    ([processing_time], and [confidence_score], which no code sets). *)
Record SummaryResult : Type := {
  summary_type : str;
  summary_text : str;
  sentences : option (list str);
  rank_scores : option (list QArith_base.Q);
  character_count : Z
}.

Inductive Action : Type :=
| ExtractiveSummaryAction (max_sentence_count : Z) (sort_by : str)
| AbstractiveSummaryAction (summary_length : str).

(** One sentence of an extractive result. *)
Record SummarySentence : Type := {
  text : str;
  rank_score : QArith_base.Q
}.

(** A per-document result of the analysis: [is_error] with
    [error.message], or the document's sentences or summaries. *)
Inductive ExtractDoc : Type :=
| ExtractError (message : str)
| ExtractOk (doc_sentences : list SummarySentence).

Inductive AbstractDoc : Type :=
| AbstractError (message : str)
| AbstractOk (summaries : list str).

(** What [begin_analyze_actions] followed by [poller.result()] gives:
    an exception, or the action results, each a list of document
    results. *)
Inductive Reply (D : Type) : Type :=
| Raises (e : exn)
| Result (action_results : list (list D)).
Arguments Raises {D} e.
Arguments Result {D} action_results.

(** The text analytics service: its reply to each attempt. *)
Definition Client (D : Type) : Type := nat -> Reply D.

(** *** [__init__] *)

(** [a or b] on optional strings: [a] when it is neither [None] nor
    empty. *)
Definition or_else (a b : option str) : option str :=
  match a with
  | Some (_ :: _) => a
  | _ => b
  end.

Definition zero_stats : Stats :=
  {| total_requests := 0; successful_requests := 0;
     failed_requests := 0; total_characters_processed := 0 |}.

(** [AzureTextSummarizer(endpoint, api_key)]; [env_endpoint] and
    [env_key] are what [os.getenv] gives for [AZURE_LANGUAGE_ENDPOINT]
    and [AZURE_LANGUAGE_KEY]. *)
Definition init (endpoint api_key env_endpoint env_key : option str)
  : completion AzureTextSummarizer :=
  match or_else endpoint env_endpoint, or_else api_key env_key with
  | Some ((_ :: _) as e), Some ((_ :: _) as k) =>
      Returned {| endpoint := e; api_key := k;
                  max_retries := 3;
                  retry_delay := 1;
                  rate_limit_delay := 2;
                  stats := zero_stats |}
  | _, _ =>
      Raised (ValueError (lit "Azure Language endpoint and API key are required"))
  end.

(** *** [_update_stats] *)

Definition update_stats (self : AzureTextSummarizer)
  (character_count : Z) (success : bool) : AzureTextSummarizer :=
  let s := stats self in
  {| endpoint := endpoint self; api_key := api_key self;
     max_retries := max_retries self;
     retry_delay := retry_delay self;
     rate_limit_delay := rate_limit_delay self;
     stats :=
       {| total_requests := total_requests s + 1;
          total_characters_processed :=
            total_characters_processed s + character_count;
          successful_requests :=
            if success then successful_requests s + 1
            else successful_requests s;
          failed_requests :=
            if success then failed_requests s
            else failed_requests s + 1 |} |}.

(** Two states of an object that differ at most in the statistics. *)
Definition same_configuration (a b : AzureTextSummarizer) : Prop :=
  max_retries a = max_retries b /\
  retry_delay a = retry_delay b /\
  rate_limit_delay a = rate_limit_delay b.

(** *** Effects *)

(** The body of the conversation job, as the dictionary
    [conversation_data] lays it out. *)
Record ConversationItem : Type := {
  item_text : str;
  item_id : str;
  item_role : str;
  item_participantId : str
}.

Record ConversationTask : Type := {
  taskName : str;
  summaryAspects : list str
}.

Record ConversationData : Type := {
  conversationItems : list ConversationItem;
  tasks : list ConversationTask
}.

(** What a method does to the outside world.  [attempt] is the value of
    the retry loop's variable when the call is made, [poll] counts the
    status requests of one attempt. *)
Inductive Event : Type :=
| Analyze (attempt : nat) (documents : list str) (actions : list Action)
| Post (attempt : nat) (url : str) (json : ConversationData)
| Get (attempt : nat) (poll : nat) (url : str)
| Sleep (seconds : Z).

(** A finished call: how it ended, what it did, and the object after. *)
Record Run (A : Type) : Type := {
  outcome : A;
  trace : list Event;
  self_after : AzureTextSummarizer
}.

(** Two runs that ended alike and did the same, on objects that differ
    at most in the statistics. *)
Definition same_run (A : Type) (r r' : Run A) : Prop :=
  outcome r = outcome r' /\ trace r = trace r' /\
  same_configuration (self_after r) (self_after r').

(** *** [extractive_summarization] *)

(** The document result the two nested [for] loops reach first. *)
Fixpoint first_doc {D : Type} (result : list (list D)) : option D :=
  match result with
  | [] => None
  | [] :: rest => first_doc rest
  | (d :: _) :: _ => Some d
  end.

(** How one pass through the body of the inner [try] ends. *)
Inductive Pass (A : Type) : Type :=
| PassReturn (value : A) (self : AzureTextSummarizer)
| PassBreak
| PassRaise (e : exn).
Arguments PassReturn {A} value self.
Arguments PassBreak {A}.
Arguments PassRaise {A} e.

(** Lines 120-155: the reply is scanned; the first document result is an
    error (an exception is raised) or becomes the [SummaryResult]; with
    no document result the loop is left by [break]. *)
Definition extractive_pass (self : AzureTextSummarizer) (text : str)
  (reply : Reply ExtractDoc) : Pass SummaryResult :=
  match reply with
  | Raises e => PassRaise e
  | Result result =>
      match first_doc result with
      | None => PassBreak
      | Some (ExtractError message) =>
          PassRaise (Exception (lit "Analysis error: " ++ message))
      | Some (ExtractOk doc_sentences) =>
          let sentences := List.map Summarizer.text doc_sentences in
          let rank_scores := List.map rank_score doc_sentences in
          PassReturn
            {| summary_type := lit "extractive";
               summary_text := join (lit " ") sentences;
               sentences := Some sentences;
               rank_scores := Some rank_scores;
               character_count := len text |}
            (update_stats self (len text) true)
      end
  end.

(** [await asyncio.sleep(seconds)], then the rest of the loop. *)
Definition sleep_then {A : Type} (before : list Event) (seconds : Z)
  (rest : Run A) : Run A :=
  {| outcome := outcome rest;
     trace := before ++ Sleep seconds :: trace rest;
     self_after := self_after rest |}.

(** [isinstance(e, HttpResponseError)] *)
Definition is_http_response_error (e : exn) : bool :=
  match e with
  | HttpResponseError _ _ => true
  | _ => false
  end.

(** [e.status_code == 429] *)
Definition is_429 (status_code : option Z) : bool :=
  match status_code with
  | Some c => c =? 429
  | None => false
  end.

(** Lines 118-167: [for attempt in range(self.max_retries)], over the
    attempts still to make.  [Returned None] is the loop ending without
    a [return]: by [break], or with its attempts used up. *)
Fixpoint extractive_loop (self : AzureTextSummarizer)
  (client : Client ExtractDoc) (text : str) (action : Action)
  (attempts : list nat) : Run (completion (option SummaryResult)) :=
  match attempts with
  | [] => {| outcome := Returned None; trace := []; self_after := self |}
  | attempt :: rest =>
      let request := Analyze attempt [text] [action] in
      match extractive_pass self text (client attempt) with
      | PassReturn value self' =>
          {| outcome := Returned (Some value); trace := [request];
             self_after := self' |}
      | PassBreak =>
          {| outcome := Returned None; trace := [request];
             self_after := self |}
      | PassRaise (HttpResponseError status_code _ as e) =>
          if is_429 status_code then
            sleep_then [request]
              (rate_limit_delay self * 2 ^ Z.of_nat attempt)
              (extractive_loop self client text action rest)
          else
            {| outcome := Raised e; trace := [request];
               self_after := self |}
      | PassRaise e =>
          if Z.of_nat attempt =? Z.of_nat (max_retries self) - 1 then
            {| outcome := Raised e; trace := [request];
               self_after := self |}
          else
            sleep_then [request]
              (retry_delay self * 2 ^ Z.of_nat attempt)
              (extractive_loop self client text action rest)
      end
  end.

(** The outer [except Exception]: the failure is counted and the
    exception raised again. *)
Definition count_failure {A : Type} (character_count : Z)
  (r : Run (completion A)) : Run (completion A) :=
  match outcome r with
  | Raised e =>
      {| outcome := Raised e; trace := trace r;
         self_after := update_stats (self_after r) character_count false |}
  | Returned _ => r
  end.

(** [if not text or len(text.strip()) == 0] *)
Definition text_is_empty (text : str) : bool :=
  negb (truthy text) || (len (strip text) =? 0).

(** [1 <= sentence_count <= 20] *)
Definition sentence_count_ok (sentence_count : Z) : bool :=
  (1 <=? sentence_count) && (sentence_count <=? 20).

Definition raise_now {A : Type} (self : AzureTextSummarizer) (e : exn)
  : Run (completion A) :=
  {| outcome := Raised e; trace := []; self_after := self |}.

Definition extractive_summarization (self : AzureTextSummarizer)
  (client : Client ExtractDoc) (text : str) (sentence_count : Z)
  (sort_by : str) : Run (completion (option SummaryResult)) :=
  count_failure (len text)
    (if text_is_empty text then
       raise_now self (ValueError (lit "Input text cannot be empty"))
     else if negb (sentence_count_ok sentence_count) then
       raise_now self
         (ValueError (lit "Sentence count must be between 1 and 20"))
     else
       extractive_loop self client text
         (ExtractiveSummaryAction sentence_count sort_by)
         (range (max_retries self))).

(** *** [abstractive_summarization] *)

(** Lines 205-238. *)
Definition abstractive_pass (self : AzureTextSummarizer) (text : str)
  (reply : Reply AbstractDoc) : Pass SummaryResult :=
  match reply with
  | Raises e => PassRaise e
  | Result result =>
      match first_doc result with
      | None => PassBreak
      | Some (AbstractError message) =>
          PassRaise (Exception (lit "Analysis error: " ++ message))
      | Some (AbstractOk summaries) =>
          PassReturn
            {| summary_type := lit "abstractive";
               summary_text := join (lit " ") summaries;
               sentences := None;
               rank_scores := None;
               character_count := len text |}
            (update_stats self (len text) true)
      end
  end.

(** Lines 203-250. *)
Fixpoint abstractive_loop (self : AzureTextSummarizer)
  (client : Client AbstractDoc) (text : str) (action : Action)
  (attempts : list nat) : Run (completion (option SummaryResult)) :=
  match attempts with
  | [] => {| outcome := Returned None; trace := []; self_after := self |}
  | attempt :: rest =>
      let request := Analyze attempt [text] [action] in
      match abstractive_pass self text (client attempt) with
      | PassReturn value self' =>
          {| outcome := Returned (Some value); trace := [request];
             self_after := self' |}
      | PassBreak =>
          {| outcome := Returned None; trace := [request];
             self_after := self |}
      | PassRaise (HttpResponseError status_code _ as e) =>
          if is_429 status_code then
            sleep_then [request]
              (rate_limit_delay self * 2 ^ Z.of_nat attempt)
              (abstractive_loop self client text action rest)
          else
            {| outcome := Raised e; trace := [request];
               self_after := self |}
      | PassRaise e =>
          if Z.of_nat attempt =? Z.of_nat (max_retries self) - 1 then
            {| outcome := Raised e; trace := [request];
               self_after := self |}
          else
            sleep_then [request]
              (retry_delay self * 2 ^ Z.of_nat attempt)
              (abstractive_loop self client text action rest)
      end
  end.

(** [summary_length not in ["short", "medium", "long"]] *)
Definition summary_length_ok (summary_length : str) : bool :=
  existsb (str_eqb summary_length) [lit "short"; lit "medium"; lit "long"].

Definition abstractive_summarization (self : AzureTextSummarizer)
  (client : Client AbstractDoc) (text : str) (summary_length : str)
  : Run (completion (option SummaryResult)) :=
  count_failure (len text)
    (if text_is_empty text then
       raise_now self (ValueError (lit "Input text cannot be empty"))
     else if negb (summary_length_ok summary_length) then
       raise_now self
         (ValueError
            (lit "Summary length must be 'short', 'medium', or 'long'"))
     else
       abstractive_loop self client text
         (AbstractiveSummaryAction summary_length)
         (range (max_retries self))).

(** *** [conversation_summarization] *)

Record ConversationSummary : Type := {
  issue : str;
  resolution : str;
  recap : str;
  chapter_titles : option (list str);
  narrative_summaries : option (list str)
}.

(** [ConversationSummary()] *)
Definition empty_summary : ConversationSummary :=
  {| issue := []; resolution := []; recap := [];
     chapter_titles := None; narrative_summaries := None |}.

(** One entry of [conv["summaries"]]: [summary["aspect"]] and
    [summary["text"]]. *)
Record AspectSummary : Type := {
  aspect : str;
  aspect_text : str
}.

(** One entry of [result_data["tasks"]["items"]]: [task["status"]] and,
    per conversation of [task["results"]["conversations"]], its
    summaries. *)
Record TaskItem : Type := {
  task_status : str;
  conversations : list (list AspectSummary)
}.

(** What submitting the job gives: an exception ([requests.post] or
    [raise_for_status] raising), or a response with its
    [operation-location] header, if any. *)
Inductive PostReply : Type :=
| PostRaises (e : exn)
| PostAccepted (operation_location : option str).

(** What one status request gives: an exception ([requests.get],
    [raise_for_status], [json()] or reading [result_data["status"]]
    raising), or the status and the task items; [Raised e] for the
    items is a document whose reading raises [e]. *)
Inductive PollReply : Type :=
| PollRaises (e : exn)
| PollStatus (status : str) (items : completion (list TaskItem)).

(** The language service's REST interface: the reply to the job
    submission of each attempt, and to each status request of each
    attempt. *)
Record Service : Type := {
  post : nat -> PostReply;
  get : nat -> nat -> PollReply
}.

(** The list comprehension building ["conversationItems"], from index
    [i] on; [item["text"]] raises [KeyError] when the key is missing. *)
Fixpoint conversation_items_from (i : nat) (items : list dict)
  : completion (list ConversationItem) :=
  match items with
  | [] => Returned []
  | item :: rest =>
      match lookup (lit "text") item with
      | None => Raised (KeyError (lit "text"))
      | Some t =>
          match conversation_items_from (S i) rest with
          | Raised e => Raised e
          | Returned l =>
              Returned
                ({| item_text := t;
                    item_id := str_of_nat (i + 1);
                    item_role :=
                      get_default (lit "role") (lit "Customer") item;
                    item_participantId :=
                      get_default (lit "participantId")
                        (lit "Participant_" ++ str_of_nat (i + 1)) item |}
                 :: l)
          end
      end
  end.

Definition conversation_tasks (summary_aspects : list str)
  : list ConversationTask :=
  List.map (fun a => {| taskName := a ++ lit "_task";
                        summaryAspects := [a] |}) summary_aspects.

(** [sum(len(item["text"]) for item in conversation_items)] *)
Fixpoint total_chars (items : list dict) : completion Z :=
  match items with
  | [] => Returned 0
  | item :: rest =>
      match lookup (lit "text") item with
      | None => Raised (KeyError (lit "text"))
      | Some t =>
          match total_chars rest with
          | Raised e => Raised e
          | Returned n => Returned (len t + n)
          end
      end
  end.

(** Lines 349-365: one summary stored under its aspect. *)
Definition store_summary (c : ConversationSummary) (s : AspectSummary)
  : ConversationSummary :=
  let put_issue v :=
    {| issue := v; resolution := resolution c; recap := recap c;
       chapter_titles := chapter_titles c;
       narrative_summaries := narrative_summaries c |} in
  let put_resolution v :=
    {| issue := issue c; resolution := v; recap := recap c;
       chapter_titles := chapter_titles c;
       narrative_summaries := narrative_summaries c |} in
  let put_recap v :=
    {| issue := issue c; resolution := resolution c; recap := v;
       chapter_titles := chapter_titles c;
       narrative_summaries := narrative_summaries c |} in
  let append (l : option (list str)) v :=
    match l with
    | None => Some [v]
    | Some titles => Some (titles ++ [v])
    end in
  if str_eqb (aspect s) (lit "issue") then put_issue (aspect_text s)
  else if str_eqb (aspect s) (lit "resolution") then
    put_resolution (aspect_text s)
  else if str_eqb (aspect s) (lit "recap") then put_recap (aspect_text s)
  else if str_eqb (aspect s) (lit "chapterTitle") then
    {| issue := issue c; resolution := resolution c; recap := recap c;
       chapter_titles := append (chapter_titles c) (aspect_text s);
       narrative_summaries := narrative_summaries c |}
  else if str_eqb (aspect s) (lit "narrative") then
    {| issue := issue c; resolution := resolution c; recap := recap c;
       chapter_titles := chapter_titles c;
       narrative_summaries :=
         append (narrative_summaries c) (aspect_text s) |}
  else c.

(** Lines 342-365: the succeeded tasks' summaries, in order. *)
Definition parse_results (items : list TaskItem) : ConversationSummary :=
  fold_left
    (fun c task =>
       if str_eqb (task_status task) (lit "succeeded") then
         fold_left (fun c conv => fold_left store_summary conv c)
           (conversations task) c
       else c)
    items empty_summary.

(** How the polling loop stands after some status requests: it has left
    with the task items, or raised, or is still polling. *)
Inductive Polling : Type :=
| PollDone (items : completion (list TaskItem))
| PollRaised (e : exn)
| StillPolling.

(** Lines 329-339: [while True], for at most [fuel] status requests,
    the next being number [n] of this attempt. *)
Fixpoint poll_loop (fuel : nat) (svc : Service) (attempt n : nat)
  (operation_location : str) : Polling * list Event :=
  match fuel with
  | O => (StillPolling, [])
  | S fuel' =>
      let request := Get attempt n operation_location in
      match get svc attempt n with
      | PollRaises e => (PollRaised e, [request])
      | PollStatus status items =>
          if str_eqb status (lit "succeeded") then
            (PollDone items, [request])
          else if str_eqb status (lit "failed") then
            (PollRaised (Exception (lit "Conversation analysis failed")),
             [request])
          else
            let (p, t) :=
              poll_loop fuel' svc attempt (S n) operation_location in
            (p, request :: Sleep 2 :: t)
      end
  end.

(** How one pass through the body of the inner [try] of
    [conversation_summarization] stands after at most [fuel] status
    requests: it has returned, or raised, or is still polling. *)
Inductive ConversationPass : Type :=
| ConvReturn (value : ConversationSummary) (self : AzureTextSummarizer)
| ConvRaise (e : exn)
| ConvPolling.

(** Lines 319-371. *)
Definition conversation_pass (fuel : nat) (self : AzureTextSummarizer)
  (svc : Service) (conversation_items : list dict) (url : str)
  (json : ConversationData) (attempt : nat)
  : ConversationPass * list Event :=
  let submit := Post attempt url json in
  match post svc attempt with
  | PostRaises e => (ConvRaise e, [submit])
  | PostAccepted operation_location =>
      match operation_location with
      | Some ((_ :: _) as location) =>
          let (p, t) := poll_loop fuel svc attempt 0 location in
          match p with
          | StillPolling => (ConvPolling, submit :: t)
          | PollRaised e => (ConvRaise e, submit :: t)
          | PollDone (Raised e) => (ConvRaise e, submit :: t)
          | PollDone (Returned items) =>
              let conversation_summary := parse_results items in
              match total_chars conversation_items with
              | Raised e => (ConvRaise e, submit :: t)
              | Returned n =>
                  (ConvReturn conversation_summary
                     (update_stats self n true),
                   submit :: t)
              end
          end
      | _ =>
          (ConvRaise (Exception (lit "No operation location in response")),
           [submit])
      end
  end.

(** Lines 317-383, over the attempts still to make.  The outcome is
    [None] while an attempt is still polling. *)
Fixpoint conversation_loop (fuel : nat) (self : AzureTextSummarizer)
  (svc : Service) (conversation_items : list dict) (url : str)
  (json : ConversationData) (attempts : list nat)
  : Run (option (completion (option ConversationSummary))) :=
  match attempts with
  | [] =>
      {| outcome := Some (Returned None); trace := []; self_after := self |}
  | attempt :: rest =>
      let (p, t) :=
        conversation_pass fuel self svc conversation_items url json attempt in
      match p with
      | ConvPolling => {| outcome := None; trace := t; self_after := self |}
      | ConvReturn value self' =>
          {| outcome := Some (Returned (Some value)); trace := t;
             self_after := self' |}
      | ConvRaise (HTTPError status_code _ as e) =>
          if status_code =? 429 then
            sleep_then t (rate_limit_delay self * 2 ^ Z.of_nat attempt)
              (conversation_loop fuel self svc conversation_items url json
                 rest)
          else
            {| outcome := Some (Raised e); trace := t; self_after := self |}
      | ConvRaise e =>
          if Z.of_nat attempt =? Z.of_nat (max_retries self) - 1 then
            {| outcome := Some (Raised e); trace := t; self_after := self |}
          else
            sleep_then t (retry_delay self * 2 ^ Z.of_nat attempt)
              (conversation_loop fuel self svc conversation_items url json
                 rest)
      end
  end.

(** The outer [except Exception] of [conversation_summarization]: the
    character total is computed again, which raises in its turn when an
    item has no ["text"]. *)
Definition count_conversation_failure {A : Type}
  (conversation_items : list dict) (r : Run (option (completion A)))
  : Run (option (completion A)) :=
  match outcome r with
  | Some (Raised e) =>
      match total_chars conversation_items with
      | Raised e' =>
          {| outcome := Some (Raised e'); trace := trace r;
             self_after := self_after r |}
      | Returned n =>
          {| outcome := Some (Raised e); trace := trace r;
             self_after := update_stats (self_after r) n false |}
      end
  | _ => r
  end.

Definition default_aspects : list str :=
  [lit "issue"; lit "resolution"; lit "recap"].

Definition conversation_url (self : AzureTextSummarizer) : str :=
  endpoint self
  ++ lit "/language/analyze-conversations/jobs?api-version=2023-04-01".

Definition conversation_summarization (fuel : nat)
  (self : AzureTextSummarizer) (svc : Service)
  (conversation_items : list dict) (summary_aspects : option (list str))
  : Run (option (completion (option ConversationSummary))) :=
  count_conversation_failure conversation_items
    (if negb (truthy conversation_items) then
       {| outcome :=
            Some (Raised (ValueError (lit "Conversation items cannot be empty")));
          trace := []; self_after := self |}
     else
       let summary_aspects :=
         match summary_aspects with
         | None => default_aspects
         | Some aspects => aspects
         end in
       match conversation_items_from 0 conversation_items with
       | Raised e =>
           {| outcome := Some (Raised e); trace := []; self_after := self |}
       | Returned items =>
           conversation_loop fuel self svc conversation_items
             (conversation_url self)
             {| conversationItems := items;
                tasks := conversation_tasks summary_aspects |}
             (range (max_retries self))
       end).

(** *** [batch_summarization] *)

(** The keyword arguments [**kwargs] passes on: the parameters the two
    summarization methods know, and the names of any others. *)
Record Kwargs : Type := {
  kw_sentence_count : option Z;
  kw_sort_by : option str;
  kw_summary_length : option str;
  kw_other : list str
}.

Definition unexpected_keyword : exn :=
  TypeError (lit "got an unexpected keyword argument").

(** [self.extractive_summarization(doc, **kwargs)]: a keyword the
    method does not have is a [TypeError] at the call; a missing one
    takes its default. *)
Definition call_extractive (self : AzureTextSummarizer)
  (client : Client ExtractDoc) (doc : str) (kwargs : Kwargs)
  : Run (completion (option SummaryResult)) :=
  match kw_summary_length kwargs, kw_other kwargs with
  | None, [] =>
      extractive_summarization self client doc
        (match kw_sentence_count kwargs with Some n => n | None => 3 end)
        (match kw_sort_by kwargs with Some o => o | None => lit "Rank" end)
  | _, _ => raise_now self unexpected_keyword
  end.

(** [self.abstractive_summarization(doc, **kwargs)] *)
Definition call_abstractive (self : AzureTextSummarizer)
  (client : Client AbstractDoc) (doc : str) (kwargs : Kwargs)
  : Run (completion (option SummaryResult)) :=
  match kw_sentence_count kwargs, kw_sort_by kwargs, kw_other kwargs with
  | None, None, [] =>
      abstractive_summarization self client doc
        (match kw_summary_length kwargs with
         | Some l => l
         | None => lit "medium"
         end)
  | _, _, _ => raise_now self unexpected_keyword
  end.

(** The text analytics service as a batch sees it: its replies to the
    attempts made for the document at each position. *)
Record BatchClient : Type := {
  extract_replies : nat -> Client ExtractDoc;
  abstract_replies : nat -> Client AbstractDoc
}.

(** Lines 411-420: [process_document(doc)] for the document at position
    [i], inside [async with semaphore]; an exception of the call becomes
    [None]. *)
Definition process_document (self : AzureTextSummarizer)
  (client : BatchClient) (summarization_type : str) (kwargs : Kwargs)
  (i : nat) (doc : str) : Run (option SummaryResult) :=
  let r :=
    if str_eqb summarization_type (lit "extractive") then
      call_extractive self (extract_replies client i) doc kwargs
    else
      call_abstractive self (abstract_replies client i) doc kwargs in
  {| outcome :=
       match outcome r with
       | Returned value => value
       | Raised _ => None
       end;
     trace := trace r;
     self_after := self_after r |}.

(** A finished batch: the value, what each task did, the object after. *)
Record BatchRun (A : Type) : Type := {
  batch_outcome : A;
  task_traces : list (list Event);
  batch_self_after : AzureTextSummarizer
}.

(** Lines 423-424: [asyncio.gather] of the tasks with [return_exceptions=True],
    over the documents from position [i] on.  The result list is in
    task order; an entry is what the task returned, or the exception it
    ended with.  The tasks share [self]; its counters are sums, so the
    order in which the tasks reach them does not show in the result. *)
Fixpoint gather (self : AzureTextSummarizer) (client : BatchClient)
  (summarization_type : str) (kwargs : Kwargs) (i : nat)
  (documents : list str)
  : BatchRun (list (completion (option SummaryResult))) :=
  match documents with
  | [] =>
      {| batch_outcome := []; task_traces := [];
         batch_self_after := self |}
  | doc :: rest =>
      let r := process_document self client summarization_type kwargs i doc in
      let rs :=
        gather (self_after r) client summarization_type kwargs (S i) rest in
      {| batch_outcome := Returned (outcome r) :: batch_outcome rs;
         task_traces := trace r :: task_traces rs;
         batch_self_after := batch_self_after rs |}
  end.

(** [isinstance(r, SummaryResult)], keeping the value. *)
Definition as_summary_result (r : completion (option SummaryResult))
  : option SummaryResult :=
  match r with
  | Returned (Some value) => Some value
  | _ => None
  end.

(** Line 427: [[r for r in results if isinstance(r, SummaryResult)]] *)
Fixpoint successful_results
  (results : list (completion (option SummaryResult)))
  : list SummaryResult :=
  match results with
  | [] => []
  | r :: rest =>
      match as_summary_result r with
      | Some value => value :: successful_results rest
      | None => successful_results rest
      end
  end.

Definition batch_summarization (self : AzureTextSummarizer)
  (client : BatchClient) (documents : list str)
  (summarization_type : str) (kwargs : Kwargs)
  : BatchRun (list SummaryResult) :=
  let results := gather self client summarization_type kwargs 0 documents in
  {| batch_outcome := successful_results (batch_outcome results);
     task_traces := task_traces results;
     batch_self_after := batch_self_after results |}.

End Summarizer.

(* ===================================================================== *)
(** ** 05-text-summarizer.py: the shape the three retry loops share       *)
(* ===================================================================== *)

Module Retry.

Import Summarizer.

Local Open Scope Z_scope.

(** The three loops above follow the source line by line.  They are one
    loop up to what a turn does, [retry], which the proofs use: each
    loop is shown equal to [retry] with its own turns. *)

(** The attempt an event belongs to, for the events that are requests. *)
Definition attempt_of (e : Event) : option nat :=
  match e with
  | Analyze attempt _ _ => Some attempt
  | Post attempt _ _ => Some attempt
  | Get attempt _ _ => Some attempt
  | Sleep _ => None
  end.

(** The requests that start an attempt of the vendor call: the analysis
    of the two text methods, the job submission of the conversation
    method. *)
Definition is_attempt (e : Event) : bool :=
  match e with
  | Analyze _ _ _ | Post _ _ _ => true
  | Get _ _ _ | Sleep _ => false
  end.

Definition attempts_made (t : list Event) : nat :=
  List.length (filter is_attempt t).

Definition is_status_request (e : Event) : bool :=
  match e with
  | Get _ _ _ => true
  | _ => false
  end.

Definition status_requests (t : list Event) : nat :=
  List.length (filter is_status_request t).

(** What one turn of a retry loop comes to: the loop is left with an
    outcome, or the handler sleeps and the loop goes on. *)
Inductive Step (O : Type) : Type :=
| Stop (o : O) (t : list Event) (self : AzureTextSummarizer)
| Continue (t : list Event) (seconds : Z).
Arguments Stop {O} o t self.
Arguments Continue {O} t seconds.

Definition step_events {O : Type} (s : Step O) : list Event :=
  match s with
  | Stop _ t _ => t
  | Continue t _ => t
  end.

(** A loop over [attempts] whose turns are given by [step]; [exhausted]
    is the outcome when no attempt is left. *)
Fixpoint retry {O : Type} (exhausted : O) (self : AzureTextSummarizer)
  (step : nat -> Step O) (attempts : list nat) : Run O :=
  match attempts with
  | [] => {| outcome := exhausted; trace := []; self_after := self |}
  | attempt :: rest =>
      match step attempt with
      | Stop o t self' => {| outcome := o; trace := t; self_after := self' |}
      | Continue t seconds =>
          sleep_then t seconds (retry exhausted self step rest)
      end
  end.

(** The two handlers of the text methods, applied to how the pass
    ended. *)
Definition text_step (self : AzureTextSummarizer) (request : Event)
  (attempt : nat) (p : Pass SummaryResult)
  : Step (completion (option SummaryResult)) :=
  match p with
  | PassReturn value self' => Stop (Returned (Some value)) [request] self'
  | PassBreak => Stop (Returned None) [request] self
  | PassRaise (HttpResponseError status_code _ as e) =>
      if is_429 status_code then
        Continue [request] (rate_limit_delay self * 2 ^ Z.of_nat attempt)
      else Stop (Raised e) [request] self
  | PassRaise e =>
      if Z.of_nat attempt =? Z.of_nat (max_retries self) - 1 then
        Stop (Raised e) [request] self
      else Continue [request] (retry_delay self * 2 ^ Z.of_nat attempt)
  end.

Definition extractive_step (self : AzureTextSummarizer)
  (client : Client ExtractDoc) (text : str) (action : Action)
  (attempt : nat) : Step (completion (option SummaryResult)) :=
  text_step self (Analyze attempt [text] [action]) attempt
    (extractive_pass self text (client attempt)).

Definition abstractive_step (self : AzureTextSummarizer)
  (client : Client AbstractDoc) (text : str) (action : Action)
  (attempt : nat) : Step (completion (option SummaryResult)) :=
  text_step self (Analyze attempt [text] [action]) attempt
    (abstractive_pass self text (client attempt)).

Definition conversation_step (fuel : nat) (self : AzureTextSummarizer)
  (svc : Service) (conversation_items : list dict) (url : str)
  (json : ConversationData) (attempt : nat)
  : Step (option (completion (option ConversationSummary))) :=
  let (p, t) :=
    conversation_pass fuel self svc conversation_items url json attempt in
  match p with
  | ConvPolling => Stop None t self
  | ConvReturn value self' => Stop (Some (Returned (Some value))) t self'
  | ConvRaise (HTTPError status_code _ as e) =>
      if status_code =? 429 then
        Continue t (rate_limit_delay self * 2 ^ Z.of_nat attempt)
      else Stop (Some (Raised e)) t self
  | ConvRaise e =>
      if Z.of_nat attempt =? Z.of_nat (max_retries self) - 1 then
        Stop (Some (Raised e)) t self
      else Continue t (retry_delay self * 2 ^ Z.of_nat attempt)
  end.

(** A reply that ends the polling loop: an exception, or one of the two
    statuses the loop looks for. *)
Definition poll_ends (r : PollReply) : bool :=
  match r with
  | PollRaises _ => true
  | PollStatus status _ =>
      str_eqb status (lit "succeeded") || str_eqb status (lit "failed")
  end.

(** The status requests of attempt [k] meet such a reply among the
    first [bound] of them. *)
Definition polling_settles (svc : Service) (bound k : nat) : Prop :=
  exists n, (n < bound)%nat /\ poll_ends (get svc k n) = true.

End Retry.

(* ===================================================================== *)
(** ** 05-text-summarizer.py: the tasks of a batch and their semaphore    *)
(* ===================================================================== *)

Module Batch.

Import Summarizer.

(** What a [process_document] task does, a step at a time. *)
Inductive Op : Type :=
| Enter                  (* line 412, going in: the semaphore's [acquire] *)
| Perform (e : Event)    (* lines 414-417: a request or a sleep of the call *)
| Leave.                 (* line 412, going out: the semaphore's [release] *)

(** Lines 411-420: the whole body of [process_document] is inside
    [async with semaphore], and both [return]s leave through the end of
    that block.  [call] is what the summarization call of lines 414-417
    does. *)
Definition process_document_ops (call : list Event) : list Op :=
  Enter :: List.map Perform call ++ [Leave].

(** A task: whether it holds a permit of the semaphore, and what it has
    still to do. *)
Record Task : Type := {
  holds_permit : bool;
  todo : list Op
}.

(** The event loop's view of a batch: the value of the semaphore and
    the tasks, in document order. *)
Record State : Type := {
  value : nat;
  tasks : list Task
}.

(** Line 409: [asyncio.Semaphore(5)]; line 423: one task per document,
    none of them started.  [calls] is what the summarization call of
    each document does. *)
Definition start (calls : list (list Event)) : State :=
  {| value := 5;
     tasks :=
       List.map (fun call => {| holds_permit := false;
                                todo := process_document_ops call |})
         calls |}.

(** The batch as [batch_summarization] starts it: the calls are those
    of the documents, in order. *)
Definition start_batch (A : Type) (r : BatchRun A) : State :=
  start (task_traces r).

Fixpoint set_task (i : nat) (t : Task) (l : list Task) : list Task :=
  match l, i with
  | [], _ => []
  | _ :: l', O => t :: l'
  | t' :: l', S i' => t' :: set_task i' t l'
  end.

(** One step of the task at position [i], when it can take one.
    [acquire] goes through only while the value of the semaphore is
    positive, and takes one from it; [release] gives one back.  A task
    that has to wait, or that has nothing left to do, takes no step. *)
Definition step (st : State) (i : nat) : option State :=
  match nth_error (tasks st) i with
  | Some task =>
      match todo task with
      | [] => None
      | Enter :: rest =>
          match value st with
          | O => None
          | S n =>
              Some {| value := n;
                      tasks :=
                        set_task i {| holds_permit := true; todo := rest |}
                          (tasks st) |}
          end
      | Perform _ :: rest =>
          Some {| value := value st;
                  tasks :=
                    set_task i {| holds_permit := holds_permit task;
                                  todo := rest |}
                      (tasks st) |}
      | Leave :: rest =>
          Some {| value := S (value st);
                  tasks :=
                    set_task i {| holds_permit := false; todo := rest |}
                      (tasks st) |}
      end
  | None => None
  end.

(** Line 424: [asyncio.gather] runs the tasks in whatever order the
    event loop picks them; [schedule] names the task of each step.  A
    task may be suspended between any two of its steps, which is more
    than the event loop does. *)
Fixpoint run (st : State) (schedule : list nat) : option State :=
  match schedule with
  | [] => Some st
  | i :: rest =>
      match step st i with
      | Some st' => run st' rest
      | None => None
      end
  end.

(** The number of tasks inside [async with semaphore]. *)
Definition in_flight (st : State) : nat :=
  List.length (filter holds_permit (tasks st)).

(** The tasks whose next step is a request or a sleep of their
    summarization call. *)
Definition in_call (task : Task) : bool :=
  match todo task with
  | Perform _ :: _ => true
  | _ => false
  end.

Definition calling (st : State) : nat :=
  List.length (filter in_call (tasks st)).

End Batch.

(* ===================================================================== *)
(** ** chat_with_gpt.py: [ConversationManager]                             *)
(* ===================================================================== *)

Module Chat.

Local Open Scope Z_scope.

(** A message dictionary [{"role": ..., "content": ...}]. *)
Record Message : Type := {
  role : str;
  content : str
}.

Record ConversationManager : Type := {
  messages : list Message;
  max_history : Z;
  total_tokens : Z
}.

(** [ConversationManager(system_prompt, max_history)] *)
Definition init (system_prompt : str) (max_history : Z)
  : ConversationManager :=
  {| messages := [{| role := lit "system"; content := system_prompt |}];
     max_history := max_history;
     total_tokens := 0 |}.

(** [self.messages.append(m)] *)
Definition append (self : ConversationManager) (m : Message)
  : ConversationManager :=
  {| messages := messages self ++ [m];
     max_history := max_history self;
     total_tokens := total_tokens self |}.

(** [_trim_history]; [self.messages[0]] raises on an empty list. *)
Definition trim_history (self : ConversationManager)
  : completion ConversationManager :=
  if len (messages self) >? max_history self + 1 then
    match messages self with
    | [] => Raised (IndexError (lit "list index out of range"))
    | first :: _ =>
        Returned
          {| messages :=
               [first] ++ slice_from (- max_history self) (messages self);
             max_history := max_history self;
             total_tokens := total_tokens self |}
    end
  else Returned self.

Definition add_user_message (self : ConversationManager) (content : str)
  : completion ConversationManager :=
  trim_history (append self {| role := lit "user"; content := content |}).

Definition add_assistant_message (self : ConversationManager)
  (content : str) : completion ConversationManager :=
  trim_history
    (append self {| role := lit "assistant"; content := content |}).

(** A call of one of the two methods. *)
Inductive Call : Type :=
| AddUser (content : str)
| AddAssistant (content : str).

Definition call (self : ConversationManager) (c : Call)
  : completion ConversationManager :=
  match c with
  | AddUser content => add_user_message self content
  | AddAssistant content => add_assistant_message self content
  end.

(** A sequence of calls on one manager; an exception ends it. *)
Fixpoint calls (self : ConversationManager) (cs : list Call)
  : completion ConversationManager :=
  match cs with
  | [] => Returned self
  | c :: rest =>
      match call self c with
      | Returned self' => calls self' rest
      | Raised e => Raised e
      end
  end.

End Chat.

(* ===================================================================== *)
(** ** first_ai_project.py: [analyze_text]                                 *)
(* ===================================================================== *)

Module FirstProject.

Local Open Scope Z_scope.

(** The three operations of the text analytics client the function
    uses. *)
Inductive Operation : Type :=
| DetectLanguage
| AnalyzeSentiment
| ExtractKeyPhrases.

(** What the function reads from a reply: the first document's language
    name, its sentiment, or its key phrases.  [Raised e] is a call, an
    index or an attribute access raising [e].  Confidence figures are
    not kept. *)
Record Client : Type := {
  detect_language : list str -> completion str;
  analyze_sentiment : list str -> completion str;
  extract_key_phrases : list str -> completion (list str)
}.

(** The lines the function prints, by kind; the progress lines and the
    separators between the three analyses are left out. *)
Inductive Line : Type :=
| WarnEmpty                       (* Warning: Empty text provided *)
| WarnTruncated                   (* Warning: Text truncated to 5000 characters *)
| Analyzing (display_text : str)
| Language (name : str)
| Sentiment (sentiment : str)
| KeyPhrases (key_phrases : list str)
| NoKeyPhrases
| RateLimitExceeded
| AuthenticationFailed
| ApiError (e : exn)
| UnexpectedError (e : exn).

Inductive Event : Type :=
| Print (line : Line)
| Call (op : Operation) (documents : list str).

(** The two [except] clauses of the function. *)
Definition report (e : exn) : list Event :=
  match e with
  | HttpResponseError status_code _ =>
      match status_code with
      | Some 429 => [Print RateLimitExceeded]
      | Some 401 => [Print AuthenticationFailed]
      | _ => [Print (ApiError e)]
      end
  | _ => [Print (UnexpectedError e)]
  end.

(** Lines 63-100: the body of the [try]. *)
Definition analysis (client : Client) (text : str) : list Event :=
  Call DetectLanguage [text] ::
  match detect_language client [text] with
  | Raised e => report e
  | Returned name =>
      Print (Language name) ::
      Call AnalyzeSentiment [text] ::
      match analyze_sentiment client [text] with
      | Raised e => report e
      | Returned sentiment =>
          Print (Sentiment sentiment) ::
          Call ExtractKeyPhrases [text] ::
          match extract_key_phrases client [text] with
          | Raised e => report e
          | Returned key_phrases =>
              if truthy key_phrases then [Print (KeyPhrases key_phrases)]
              else [Print NoKeyPhrases]
          end
      end
  end.

(** [text[:50] + ('...' if len(text) > 50 else '')] *)
Definition display_text (text : str) : str :=
  slice_to 50 text ++ (if len text >? 50 then lit "..." else []).

(** [analyze_text(client, text)]: how the call ends, and what it printed
    and asked of the client. *)
Definition analyze_text (client : Client) (text : str)
  : completion unit * list Event :=
  if negb (truthy text) || negb (truthy (strip text)) then
    (Returned tt, [Print WarnEmpty])
  else
    let truncated := len text >? 5000 in
    let text := if truncated then slice_to 5000 text else text in
    (Returned tt,
     (if truncated then [Print WarnTruncated] else [])
     ++ Print (Analyzing (display_text text))
     :: analysis client text).

End FirstProject.

(* ===================================================================== *)
(** ** 05-text-summarizer.py: what a call leaves behind                   *)
(* ===================================================================== *)

Module Observe.

Import Summarizer.

Local Open Scope Z_scope.

(** The seconds a call spends in [asyncio.sleep]. *)
Fixpoint slept (t : list Event) : Z :=
  match t with
  | [] => 0
  | Sleep seconds :: t' => seconds + slept t'
  | _ :: t' => slept t'
  end.

(** The counters of [self.stats] add up: every request counted is
    counted as successful or as failed. *)
Definition consistent (s : Stats) : Prop :=
  total_requests s = successful_requests s + failed_requests s.

(** The summaries the parsing loop of [conversation_summarization]
    visits, in its order: those of the tasks whose status is
    "succeeded", conversation by conversation. *)
Definition succeeded_summaries (items : list TaskItem)
  : list AspectSummary :=
  flat_map
    (fun task =>
       if str_eqb (task_status task) (lit "succeeded") then
         List.concat (conversations task)
       else [])
    items.

(** The texts of the summaries of one aspect, in order. *)
Definition with_aspect (a : str) (summaries : list AspectSummary)
  : list str :=
  List.map aspect_text (filter (fun s => str_eqb (aspect s) a) summaries).

(** A list attribute that stays [None] until something is appended. *)
Definition some_if_any (l : list str) : option (list str) :=
  match l with
  | [] => None
  | _ :: _ => Some l
  end.

(** A call counts at most one request. *)
Definition counted_once (before after : AzureTextSummarizer) : Prop :=
  after = before \/
  exists character_count success,
    after = update_stats before character_count success.

(** [d["text"]] is there. *)
Definition has_text (item : dict) : bool :=
  match lookup (lit "text") item with
  | Some _ => true
  | None => false
  end.


(** An optional string that counts as absent for [or] and [not]:
    [None] or the empty string. *)
Definition missing (a : option str) : Prop := a = None \/ a = Some [].

(** [v] is the value an argument and its environment variable come to:
    the argument when it is given and not empty, else the variable when
    it is set and not empty. *)
Definition chosen (argument variable : option str) (v : str) : Prop :=
  v <> [] /\
  (argument = Some v \/ (missing argument /\ variable = Some v)).

End Observe.

(* ===================================================================== *)
(** ** chat_with_gpt.py: the rest of [ConversationManager], streaming     *)
(* ===================================================================== *)

Module ChatApp.

Import Chat.

Local Open Scope Z_scope.

(** [str(n)] for an integer. *)
Definition str_of_int (n : Z) : str :=
  if n <? 0 then lit "-" ++ str_of_nat (Z.to_nat (- n))
  else str_of_nat (Z.to_nat n).

(** The message dictionary a call appends. *)
Definition message_of (c : Call) : Message :=
  match c with
  | AddUser content => {| role := lit "user"; content := content |}
  | AddAssistant content =>
      {| role := lit "assistant"; content := content |}
  end.

(** The last [n] elements of a list. *)
Definition lastn {A : Type} (n : nat) (l : list A) : list A :=
  skipn (List.length l - n) l.

(** [get_messages]: a copy of the list. *)
Definition get_messages (self : ConversationManager) : list Message :=
  messages self.

(** [update_token_count] *)
Definition update_token_count (self : ConversationManager) (tokens : Z)
  : ConversationManager :=
  {| messages := messages self;
     max_history := max_history self;
     total_tokens := total_tokens self + tokens |}.

(** [len([m for m in self.messages if m["role"] == r])] *)
Definition count_role (r : str) (ms : list Message) : nat :=
  List.length (filter (fun m => str_eqb (role m) r) ms).

(** [get_conversation_summary] *)
Definition get_conversation_summary (self : ConversationManager) : str :=
  lit "Messages: "
  ++ str_of_nat (count_role (lit "user") (messages self))
  ++ lit " user, "
  ++ str_of_nat (count_role (lit "assistant") (messages self))
  ++ lit " assistant | Total tokens: "
  ++ str_of_int (total_tokens self).

(** *** [AzureChatClient.stream_chat_completion] *)

(** [chunk.usage] *)
Record Usage : Type := {
  prompt_tokens : Z;
  completion_tokens : Z;
  usage_total_tokens : Z
}.

(** [chunk.choices[i]]: [delta.content] and [finish_reason]. *)
Record Choice : Type := {
  delta_content : option str;
  finish_reason : option str
}.

(** A chunk of a streamed reply; [usage] is [None] for a chunk without
    the attribute as for one where it is [None]. *)
Record Chunk : Type := {
  choices : list Choice;
  usage : option Usage
}.

(** A streamed reply: the chunks that arrive and, if the stream breaks
    off, the exception it breaks off with (with no chunk, this is also
    the request itself failing). *)
Record Stream : Type := {
  chunks : list Chunk;
  failure : option exn
}.

(** What the generator yields: a dictionary with "content", or one with
    "usage". *)
Inductive Piece : Type :=
| ContentPiece (content : str) (finish_reason : option str)
| UsagePiece (usage : Usage).

(** Lines 210-225: the pieces one chunk gives. *)
Definition pieces_of (c : Chunk) : list Piece :=
  (match choices c with
   | first :: _ =>
       match delta_content first with
       | Some ((_ :: _) as content) =>
           [ContentPiece content (finish_reason first)]
       | _ => []
       end
   | [] => []
   end)
  ++
  (match usage c with
   | Some u => [UsagePiece u]
   | None => []
   end).

(** [stream_chat_completion]: the pieces yielded, and the exception the
    generator ends with, if any. *)
Definition stream_chat_completion (s : Stream) : list Piece * option exn :=
  (flat_map pieces_of (chunks s), failure s).

(** *** [InteractiveChatApp.handle_streaming_response] *)

(** What the handler prints and sends. *)
Inductive Output : Type :=
| Sent (request : list Message)      (* the messages of the request *)
| AssistantPrompt                    (* "Assistant: ", no line end *)
| Say (content : str)                (* a piece of the reply *)
| LineEnd
| TokensUsed (u : Usage)
| SayError (e : exn).

(** Lines 278-288: the loop over the pieces, with [full_response] and
    [usage_info] so far. *)
Fixpoint consume (pieces : list Piece) (full_response : str)
  (usage_info : option Usage) : list Output * str * option Usage :=
  match pieces with
  | [] => ([], full_response, usage_info)
  | ContentPiece content _ :: rest =>
      let '(out, full, u) :=
        consume rest (full_response ++ content) usage_info in
      (Say content :: out, full, u)
  | UsagePiece u :: rest => consume rest full_response (Some u)
  end.

(** [handle_streaming_response(user_input)] on the conversation of the
    application; [service] is the reply of the model to a request.  The
    value is the conversation afterwards and what was printed and
    sent. *)
Definition handle_streaming_response (conversation : ConversationManager)
  (service : list Message -> Stream) (user_input : str)
  : completion (ConversationManager * list Output) :=
  match add_user_message conversation user_input with
  | Raised e => Raised e
  | Returned conversation =>
      let request := get_messages conversation in
      let (pieces, failure) := stream_chat_completion (service request) in
      let '(out, full_response, usage_info) := consume pieces [] None in
      let before := AssistantPrompt :: Sent request :: out in
      match failure with
      | Some e => Returned (conversation, before ++ [SayError e])
      | None =>
          match
            (if truthy full_response then
               add_assistant_message conversation full_response
             else Returned conversation)
          with
          | Raised e =>
              Returned (conversation, before ++ [LineEnd; SayError e])
          | Returned conversation =>
              match usage_info with
              | Some u =>
                  Returned
                    (update_token_count conversation (usage_total_tokens u),
                     before ++ [LineEnd; TokensUsed u])
              | None => Returned (conversation, before ++ [LineEnd])
              end
          end
      end
  end.

(** *** What a stream carries *)

(** [chunk.choices[0].delta.content], empty when there is none. *)
Definition content_of (c : Chunk) : str :=
  match choices c with
  | first :: _ =>
      match delta_content first with
      | Some content => content
      | None => []
      end
  | [] => []
  end.

(** The text of a streamed reply: the contents of its chunks, in
    order. *)
Definition streamed_text (cs : list Chunk) : str :=
  List.concat (List.map content_of cs).

(** The usage the last chunk that has one reports. *)
Fixpoint last_usage (cs : list Chunk) (so_far : option Usage)
  : option Usage :=
  match cs with
  | [] => so_far
  | c :: rest =>
      last_usage rest (match usage c with Some u => Some u | None => so_far end)
  end.

(** The text the handler has printed of the reply. *)
Fixpoint said (out : list Output) : str :=
  match out with
  | [] => []
  | Say content :: rest => content ++ said rest
  | _ :: rest => said rest
  end.

(** The requests among the outputs. *)
Fixpoint requests (out : list Output) : list (list Message) :=
  match out with
  | [] => []
  | Sent request :: rest => request :: requests rest
  | _ :: rest => requests rest
  end.

Definition is_user (c : Call) : bool :=
  match c with AddUser _ => true | AddAssistant _ => false end.

Definition is_assistant (c : Call) : bool :=
  match c with AddUser _ => false | AddAssistant _ => true end.

End ChatApp.

(* ===================================================================== *)
(** ** first_ai_project.py: [interactive_mode]                             *)
(* ===================================================================== *)

Module FirstProjectApp.

Import FirstProject.

Local Open Scope Z_scope.

(** The requests [analyze_text] makes, by operation. *)
Fixpoint operations (t : list Event) : list Operation :=
  match t with
  | [] => []
  | Call op _ :: rest => op :: operations rest
  | Print _ :: rest => operations rest
  end.

(** The lines that report a failure. *)
Definition is_failure (e : Event) : bool :=
  match e with
  | Print RateLimitExceeded | Print AuthenticationFailed
  | Print (ApiError _) | Print (UnexpectedError _) => true
  | _ => false
  end.

Definition failures (t : list Event) : nat :=
  List.length (filter is_failure t).

(** What [interactive_mode] shows and does. *)
Inductive Shown : Type :=
| Prompt                         (* the prompt of [input] *)
| Analysis (e : Event)           (* what [analyze_text] prints and asks *)
| PleaseEnter                    (* Please enter some text to analyze. *)
| Thanks                         (* Thanks for trying ... *)
| LoopError (e : exn).           (* Error: ... *)

(** [input] at the end of the input. *)
Definition EOFError : exn := Exception (lit "EOF when reading a line").

Section Lower.

(** [str.lower], which the script uses to recognise the words that end
    the loop. *)
Variable lower : str -> str.

(** [user_input.lower() in ['quit', 'exit', 'q']] *)
Definition is_quit (user_input : str) : bool :=
  existsb (str_eqb (lower user_input)) [lit "quit"; lit "exit"; lit "q"].

(** Lines 137-155: [while True], for at most [fuel] turns, on the lines
    still to be read; [input] raises [EOFError] when there is none.
    The value tells whether the loop has ended, and what was shown
    until then. *)
Fixpoint interactive_loop (fuel : nat) (client : Client)
  (inputs : list str) : bool * list Shown :=
  match fuel with
  | O => (false, [])
  | S fuel' =>
      match inputs with
      | [] =>
          let (ended, shown) := interactive_loop fuel' client [] in
          (ended, Prompt :: LoopError EOFError :: shown)
      | line :: rest =>
          let user_input := strip line in
          if is_quit user_input then (true, [Prompt; Thanks])
          else if negb (truthy user_input) then
            let (ended, shown) := interactive_loop fuel' client rest in
            (ended, Prompt :: PleaseEnter :: shown)
          else
            let (result, t) := analyze_text client user_input in
            let (ended, shown) := interactive_loop fuel' client rest in
            (ended,
             Prompt :: List.map Analysis t
             ++ match result with
                | Returned _ => []
                | Raised e => [LoopError e]
                end
             ++ shown)
      end
  end.

End Lower.

(** The documents sent for analysis. *)
Fixpoint analysed (shown : list Shown) : list (list str) :=
  match shown with
  | [] => []
  | Analysis (Call _ documents) :: rest => documents :: analysed rest
  | _ :: rest => analysed rest
  end.

(** The times the loop reported an error of its own. *)
Fixpoint loop_errors (shown : list Shown) : nat :=
  match shown with
  | [] => 0
  | LoopError _ :: rest => S (loop_errors rest)
  | _ :: rest => loop_errors rest
  end.

(** [str.lower] on the letters the sample inputs use: A to Z. *)
Definition ascii_lower (s : str) : str :=
  List.map (fun c => if ((65 <=? c) && (c <=? 90))%N then (c + 32)%N else c) s.

End FirstProjectApp.

(* ===================================================================== *)
(** ** Sample objects, services and inputs                                *)
(* ===================================================================== *)

Module Scenario.

Import Summarizer.

Local Open Scope Z_scope.

(** The object [AzureTextSummarizer(endpoint, api_key)] builds. *)
Definition summarizer : AzureTextSummarizer :=
  {| endpoint := lit "https://example.cognitiveservices.azure.com";
     api_key := lit "0123456789abcdef";
     max_retries := 3;
     retry_delay := 1;
     rate_limit_delay := 2;
     stats := zero_stats |}.

Definition article : str :=
  lit "Azure AI Language condenses long articles into short summaries.".

Definition too_many_requests : exn :=
  HttpResponseError (Some 429) (lit "Too Many Requests").

(** A service that answers every attempt with HTTP 429. *)
Definition throttled_extract : Client ExtractDoc :=
  fun _ => Raises too_many_requests.

Definition throttled_abstract : Client AbstractDoc :=
  fun _ => Raises too_many_requests.

(** A service whose connection drops on every attempt. *)
Definition unreachable_extract : Client ExtractDoc :=
  fun _ => Raises (Exception (lit "Connection reset by peer")).

Definition unreachable_abstract : Client AbstractDoc :=
  fun _ => Raises (Exception (lit "Connection reset by peer")).

(** A service that refuses the key. *)
Definition unauthorized_extract : Client ExtractDoc :=
  fun _ => Raises (HttpResponseError (Some 401) (lit "Unauthorized")).

Definition unauthorized_abstract : Client AbstractDoc :=
  fun _ => Raises (HttpResponseError (Some 401) (lit "Unauthorized")).

(** A one-item conversation. *)
Definition chat : list dict :=
  [[(lit "text", lit "My printer is offline.")]].

Definition job_url : str := lit "https://example/jobs/1".

(** The job [conversation_summarization] submits for [chat]. *)
Definition chat_job : ConversationData :=
  {| conversationItems :=
       [{| item_text := lit "My printer is offline.";
           item_id := lit "1";
           item_role := lit "Customer";
           item_participantId := lit "Participant_1" |}];
     tasks := conversation_tasks default_aspects |}.

(** A conversation service that takes the job and reports it as
    running for ever. *)
Definition busy : Service :=
  {| post := fun _ => PostAccepted (Some job_url);
     get := fun _ _ => PollStatus (lit "running") (Returned []) |}.

(** A conversation service that answers every submission with
    HTTP 429. *)
Definition throttled : Service :=
  {| post := fun _ => PostRaises (HTTPError 429 (lit "Too Many Requests"));
     get := fun _ _ => PollStatus (lit "running") (Returned []) |}.

(** A conversation service whose job succeeds at the second status
    request. *)
Definition prompt_service : Service :=
  {| post := fun _ => PostAccepted (Some job_url);
     get := fun _ n =>
       match n with
       | O => PollStatus (lit "running") (Returned [])
       | _ =>
           PollStatus (lit "succeeded")
             (Returned
                [{| task_status := lit "succeeded";
                    conversations :=
                      [[{| aspect := lit "issue";
                           aspect_text := lit "Printer offline" |}]] |}])
       end |}.

(** Six documents for a batch. *)
Definition six_documents : list str :=
  [article; article; article; article; article; article].

(** A text analytics service that is throttled for every document. *)
Definition throttled_batch : BatchClient :=
  {| extract_replies := fun _ => throttled_extract;
     abstract_replies := fun _ => throttled_abstract |}.

Definition no_kwargs : Kwargs :=
  {| kw_sentence_count := None; kw_sort_by := None;
     kw_summary_length := None; kw_other := [] |}.

(** The tasks of an extractive batch of six, before any has started. *)
Definition six_tasks : Batch.State :=
  Batch.start_batch
    (batch_summarization summarizer throttled_batch six_documents
       (lit "extractive") no_kwargs).

(** The first five tasks enter the semaphore one after the other, and
    the first makes its first request. *)
Definition five_enter : list nat := [0; 1; 2; 3; 4; 0]%nat.

(** The batch of six with the first five tasks inside the semaphore. *)
Definition five_in_flight : Batch.State :=
  match Batch.run six_tasks five_enter with
  | Some st => st
  | None => six_tasks
  end.

Definition system_message : Chat.Message :=
  {| Chat.role := lit "system"; Chat.content := lit "You are helpful." |}.

(** A text analytics client that always answers. *)
Definition english : FirstProject.Client :=
  {| FirstProject.detect_language := fun _ => Returned (lit "English");
     FirstProject.analyze_sentiment := fun _ => Returned (lit "positive");
     FirstProject.extract_key_phrases := fun _ => Returned [lit "Azure"] |}.

(** A text of 5001 letters. *)
Definition long_text : str := List.repeat 97%N (Z.to_nat 5001).

(** Two sentences of an extractive result. *)
Definition two_sentences : list SummarySentence :=
  [{| text := lit "Azure AI Language condenses long articles.";
      rank_score := QArith_base.Qmake 9 10 |};
   {| text := lit "Summaries are short.";
      rank_score := QArith_base.Qmake 1 2 |}].

(** A service that is throttled at the first attempt and answers the
    second. *)
Definition recovering_extract : Client ExtractDoc :=
  fun k =>
    match k with
    | O => Raises too_many_requests
    | _ => Result [[]; [ExtractOk two_sentences]]
    end.

Definition recovering_abstract : Client AbstractDoc :=
  fun k =>
    match k with
    | O => Raises too_many_requests
    | _ => Result [[AbstractOk [lit "Articles get shorter."]]]
    end.

(** A service whose reply holds no document result. *)
Definition silent_extract : Client ExtractDoc :=
  fun _ => Result [[]; []].

Definition silent_abstract : Client AbstractDoc :=
  fun _ => Result [].

(** A conversation whose second item has no text. *)
Definition broken_chat : list dict :=
  [[(lit "text", lit "My printer is offline.")];
   [(lit "role", lit "Agent")]].

(** A two-item conversation with one role given. *)
Definition support_chat : list dict :=
  [[(lit "text", lit "My printer is offline.")];
   [(lit "role", lit "Agent"); (lit "text", lit "Please restart it.")]].

(** The job [conversation_summarization] submits for [support_chat]. *)
Definition support_job : ConversationData :=
  {| conversationItems :=
       [{| item_text := lit "My printer is offline.";
           item_id := lit "1";
           item_role := lit "Customer";
           item_participantId := lit "Participant_1" |};
        {| item_text := lit "Please restart it.";
           item_id := lit "2";
           item_role := lit "Agent";
           item_participantId := lit "Participant_2" |}];
     tasks := conversation_tasks default_aspects |}.

(** A streamed reply of three chunks: two with text, the last with the
    usage. *)
Definition hello_stream : ChatApp.Stream :=
  {| ChatApp.chunks :=
       [{| ChatApp.choices :=
             [{| ChatApp.delta_content := Some (lit "Hel");
                 ChatApp.finish_reason := None |}];
           ChatApp.usage := None |};
        {| ChatApp.choices :=
             [{| ChatApp.delta_content := Some (lit "lo");
                 ChatApp.finish_reason := Some (lit "stop") |}];
           ChatApp.usage := None |};
        {| ChatApp.choices := [];
           ChatApp.usage :=
             Some {| ChatApp.prompt_tokens := 12;
                     ChatApp.completion_tokens := 2;
                     ChatApp.usage_total_tokens := 14 |} |}];
     ChatApp.failure := None |}.

(** The same reply, breaking off after its chunks. *)
Definition broken_stream : ChatApp.Stream :=
  {| ChatApp.chunks := ChatApp.chunks hello_stream;
     ChatApp.failure := Some (Exception (lit "Connection error.")) |}.

(** A conversation of one question and answer, with room for four
    messages. *)
Definition small_talk : Chat.ConversationManager :=
  {| Chat.messages :=
       [system_message;
        {| Chat.role := lit "user"; Chat.content := lit "Hi" |};
        {| Chat.role := lit "assistant"; Chat.content := lit "Hello" |}];
     Chat.max_history := 4;
     Chat.total_tokens := 20 |}.

(** A text analytics client that is throttled when asked for the
    sentiment. *)
Definition moody : FirstProject.Client :=
  {| FirstProject.detect_language := fun _ => Returned (lit "English");
     FirstProject.analyze_sentiment := fun _ => Raised too_many_requests;
     FirstProject.extract_key_phrases := fun _ => Returned [] |}.

(** Lines typed into [interactive_mode]: a text, a blank line, a word
    that ends the loop in capitals, and a text never read. *)
Definition typed : list str :=
  [lit "  I love Azure  "; lit "   "; lit "QUIT"; lit "never read"].

(** Three documents, the second of them blank. *)
Definition three_documents : list str := [article; lit "  "; article].

(** A service that answers the first document at the second attempt
    and refuses the key for the others. *)
Definition mixed_batch : BatchClient :=
  {| extract_replies := fun i =>
       match i with
       | O => recovering_extract
       | _ => unauthorized_extract
       end;
     abstract_replies := fun _ => unauthorized_abstract |}.

End Scenario.

(* ===================================================================== *)
(** ** Facts about the Python values                                      *)
(* ===================================================================== *)

Module PyFacts.

Lemma lstrip_nil_iff (s : str) : lstrip s = [] <-> only_whitespace s = true.
Proof.
  unfold only_whitespace.
  induction s as [|c s IH]; simpl; [tauto|].
  destruct (isspace c); simpl; [exact IH|].
  split; discriminate.
Qed.

(** What [lstrip] leaves starts with a character that is not a space. *)
Lemma lstrip_head (s : str) :
  match lstrip s with
  | [] => True
  | c :: _ => isspace c = false
  end.
Proof.
  induction s as [|c s IH]; simpl; [exact I|].
  destruct (isspace c) eqn:E; [exact IH | exact E].
Qed.

Lemma only_whitespace_rev (s : str) :
  only_whitespace (rev s) = only_whitespace s.
Proof.
  unfold only_whitespace.
  induction s as [|c s IH]; simpl; [reflexivity|].
  rewrite forallb_app, IH. simpl. rewrite andb_true_r. apply andb_comm.
Qed.

Lemma strip_nil_iff (s : str) : strip s = [] <-> only_whitespace s = true.
Proof.
  unfold strip, rstrip. split.
  - intros H.
    assert (Hr : lstrip (rev (lstrip s)) = []).
    { destruct (lstrip (rev (lstrip s))); [reflexivity|].
      apply (f_equal (@List.length N)) in H.
      rewrite length_rev in H. discriminate. }
    apply lstrip_nil_iff in Hr. rewrite only_whitespace_rev in Hr.
    pose proof (lstrip_head s) as Hh.
    destruct (lstrip s) as [|c l] eqn:E.
    + apply lstrip_nil_iff. exact E.
    + unfold only_whitespace in Hr. simpl in Hr. rewrite Hh in Hr.
      discriminate.
  - intros H. apply lstrip_nil_iff in H. rewrite H. reflexivity.
Qed.

Lemma len_zero_iff (A : Type) (l : list A) : (len l =? 0)%Z = true <-> l = [].
Proof.
  unfold len. destruct l; simpl; split; intros H;
    try reflexivity; try discriminate.
Qed.

Lemma len_nonneg (A : Type) (l : list A) : (0 <= len l)%Z.
Proof. unfold len. lia. Qed.

(** [l[:n]] for [0 <= n <= len(l)] has exactly [n] elements. *)
Lemma len_slice_to (A : Type) (n : Z) (l : list A) :
  (0 <= n <= len l)%Z -> len (slice_to n l) = n.
Proof.
  intros H. unfold slice_to, clamp, len in *.
  destruct (Z.ltb_spec n 0) as [E|E]; [lia|].
  rewrite length_firstn. lia.
Qed.

Lemma slice_to_firstn (A : Type) (n : nat) (l : list A) :
  slice_to (Z.of_nat n) l = firstn n l.
Proof.
  unfold slice_to, clamp, len.
  destruct (Z.ltb_spec (Z.of_nat n) 0) as [E|E]; [exfalso; lia|].
  destruct (Nat.le_gt_cases n (List.length l)) as [Hle|Hgt].
  - f_equal. lia.
  - rewrite Z.min_r by lia. rewrite Nat2Z.id.
    rewrite !firstn_all2 by lia. reflexivity.
Qed.

End PyFacts.

(* ===================================================================== *)
(** ** Facts about retry loops                                            *)
(* ===================================================================== *)

Module RetryFacts.

Import Summarizer Retry.

Local Open Scope Z_scope.

(** Case analysis on the conditions the goal still tests. *)
Ltac break_ifs :=
  repeat match goal with
         | |- context [if ?b then _ else _] => destruct b
         end.

Lemma extractive_loop_retry self client text action attempts :
  extractive_loop self client text action attempts
  = retry (Returned None) self
      (extractive_step self client text action) attempts.
Proof.
  induction attempts as [|k rest IH]; simpl; [reflexivity|].
  unfold extractive_step, text_step.
  destruct (extractive_pass self text (client k)) as [v s'| |e];
    try reflexivity.
  destruct e; try (destruct (is_429 status_code));
    try (destruct (Z.of_nat k =? Z.of_nat (max_retries self) - 1));
    rewrite ?IH; reflexivity.
Qed.

Lemma abstractive_loop_retry self client text action attempts :
  abstractive_loop self client text action attempts
  = retry (Returned None) self
      (abstractive_step self client text action) attempts.
Proof.
  induction attempts as [|k rest IH]; simpl; [reflexivity|].
  unfold abstractive_step, text_step.
  destruct (abstractive_pass self text (client k)) as [v s'| |e];
    try reflexivity.
  destruct e; try (destruct (is_429 status_code));
    try (destruct (Z.of_nat k =? Z.of_nat (max_retries self) - 1));
    rewrite ?IH; reflexivity.
Qed.

Lemma conversation_loop_retry fuel self svc items url json attempts :
  conversation_loop fuel self svc items url json attempts
  = retry (Some (Returned None)) self
      (conversation_step fuel self svc items url json) attempts.
Proof.
  induction attempts as [|k rest IH]; simpl; [reflexivity|].
  unfold conversation_step.
  destruct (conversation_pass fuel self svc items url json k) as [p t].
  destruct p as [v s'|e|]; try reflexivity.
  destruct e; try (destruct (status_code =? 429));
    try (destruct (Z.of_nat k =? Z.of_nat (max_retries self) - 1));
    rewrite ?IH; reflexivity.
Qed.

Lemma attempts_made_app (t u : list Event) :
  attempts_made (t ++ u) = (attempts_made t + attempts_made u)%nat.
Proof. unfold attempts_made. rewrite filter_app, length_app. reflexivity. Qed.

Lemma attempts_made_sleep (seconds : Z) (t : list Event) :
  attempts_made (Sleep seconds :: t) = attempts_made t.
Proof. reflexivity. Qed.

Section Loop.

Variable O : Type.
Variable exhausted : O.
Variable self : AzureTextSummarizer.
Variable step : nat -> Step O.

Let loop := retry exhausted self step.

(** The requests of a turn carry the number of that turn. *)
Hypothesis labelled :
  forall j e k, In e (step_events (step j)) -> attempt_of e = Some k -> k = j.

(** A request of attempt [k] in the trace: attempt [k] was one of the
    attempts, the request is one of its own, and from then on the run is
    the loop started at [k]. *)
Lemma retry_suffix n : forall i e k,
  In e (trace (loop (seq i n))) -> attempt_of e = Some k ->
  (i <= k < i + n)%nat /\
  In e (step_events (step k)) /\
  exists pre,
    trace (loop (seq i n)) = pre ++ trace (loop (seq k (i + n - k))) /\
    outcome (loop (seq i n)) = outcome (loop (seq k (i + n - k))) /\
    self_after (loop (seq i n)) = self_after (loop (seq k (i + n - k))).
Proof.
  subst loop.
  induction n as [|n IH]; intros i e k Hin Hk; simpl in Hin; [contradiction|].
  assert (Here : In e (step_events (step i)) ->
                 (i <= k < i + S n)%nat /\
                 In e (step_events (step k)) /\
                 exists pre,
                   trace (retry exhausted self step (seq i (S n)))
                   = pre ++ trace (retry exhausted self step
                                     (seq k (i + S n - k))) /\
                   outcome (retry exhausted self step (seq i (S n)))
                   = outcome (retry exhausted self step
                                (seq k (i + S n - k))) /\
                   self_after (retry exhausted self step (seq i (S n)))
                   = self_after (retry exhausted self step
                                   (seq k (i + S n - k)))).
  { intros H. pose proof (labelled _ _ H Hk) as ->.
    replace (i + S n - i)%nat with (S n) by lia.
    split; [lia|]. split; [exact H|]. exists []. auto. }
  destruct (step i) as [o t s'|t d] eqn:Hs.
  - apply Here. exact Hin.
  - simpl in Hin. apply in_app_or in Hin. destruct Hin as [Hin|[Hin|Hin]].
    + apply Here. exact Hin.
    + subst e. discriminate.
    + destruct (IH (S i) e k Hin Hk) as (Hr & He & pre & Ht & Ho & Hsf).
      split; [lia|]. split; [exact He|].
      replace (i + S n - k)%nat with (S i + n - k)%nat by lia.
      exists (t ++ Sleep d :: pre). simpl. rewrite Hs. simpl.
      rewrite Ht, Ho, Hsf. rewrite <- app_assoc. auto.
Qed.

Lemma retry_stop k o t s' rest :
  step k = Stop o t s' ->
  loop (k :: rest) = {| outcome := o; trace := t; self_after := s' |}.
Proof. subst loop. intros H. simpl. rewrite H. reflexivity. Qed.

Lemma retry_continue k t d rest :
  step k = Continue t d ->
  loop (k :: rest) = sleep_then t d (loop rest).
Proof. subst loop. intros H. simpl. rewrite H. reflexivity. Qed.

(** A loop with an attempt left starts with the events of that
    attempt. *)
Lemma retry_starts k rest :
  exists post, trace (loop (k :: rest)) = step_events (step k) ++ post.
Proof.
  subst loop. simpl. destruct (step k) as [o t s'|t d]; simpl.
  - exists []. rewrite app_nil_r. reflexivity.
  - eexists. reflexivity.
Qed.

(** No more attempts than the loop has turns. *)
Lemma retry_attempts_bound attempts :
  (forall k, attempts_made (step_events (step k)) <= 1)%nat ->
  (attempts_made (trace (loop attempts)) <= List.length attempts)%nat.
Proof.
  subst loop. intros H.
  induction attempts as [|k rest IH]; simpl; [apply Nat.le_refl|].
  pose proof (H k) as Hk.
  destruct (step k) as [o t s'|t d]; simpl in *; [lia|].
  rewrite attempts_made_app, attempts_made_sleep. lia.
Qed.

(** When every turn goes on, the loop is left with its attempts used
    up and the object as it was. *)
Lemma retry_exhausted attempts :
  (forall k, In k attempts -> exists t d, step k = Continue t d) ->
  outcome (loop attempts) = exhausted /\ self_after (loop attempts) = self.
Proof.
  subst loop. intros H.
  induction attempts as [|k rest IH]; simpl; [auto|].
  destruct (H k (or_introl eq_refl)) as (t & d & Hs). rewrite Hs. simpl.
  apply IH. intros j Hj. apply H. right. exact Hj.
Qed.

End Loop.

(** *** The loops of the two text methods *)

Lemma text_step_events self request k p :
  step_events (text_step self request k p) = [request].
Proof.
  unfold text_step. destruct p as [v s'| |e]; try reflexivity.
  destruct e; try (destruct (is_429 status_code));
    try (destruct (Z.of_nat k =? Z.of_nat (max_retries self) - 1));
    reflexivity.
Qed.

Lemma trace_count_failure (A : Type) n (r : Run (completion A)) :
  trace (count_failure n r) = trace r.
Proof. unfold count_failure. destruct (outcome r); reflexivity. Qed.

Lemma outcome_count_failure (A : Type) n (r : Run (completion A)) :
  outcome (count_failure n r) = outcome r.
Proof.
  unfold count_failure. destruct (outcome r) eqn:E; simpl; congruence.
Qed.

Lemma self_after_count_failure (A : Type) n (r : Run (completion A)) v :
  outcome r = Returned v -> self_after (count_failure n r) = self_after r.
Proof. unfold count_failure. intros ->. reflexivity. Qed.

Section TextLoop.

Variable self : AzureTextSummarizer.
Variable text : str.
Variable action : Action.
Variable pass : nat -> Pass SummaryResult.

Let request (k : nat) : Event := Analyze k [text] [action].
Let step (k : nat) := text_step self (request k) k (pass k).
Let run := retry (Returned None) self step (range (max_retries self)).

Lemma text_labelled j e k :
  In e (step_events (step j)) -> attempt_of e = Some k -> k = j.
Proof.
  subst step request. cbv beta. rewrite text_step_events. simpl.
  intros [<-|[]] H. simpl in H. congruence.
Qed.

(** An analysis request in the trace is the request of one of the
    attempts, and the run from there on is the loop from that attempt. *)
Lemma text_loop_from k docs acts :
  In (Analyze k docs acts) (trace run) ->
  (k < max_retries self)%nat /\
  Analyze k docs acts = request k /\
  exists pre m,
    max_retries self = (k + S m)%nat /\
    trace run
    = pre ++ trace (retry (Returned None) self step (k :: seq (S k) m)) /\
    outcome run
    = outcome (retry (Returned None) self step (k :: seq (S k) m)) /\
    self_after run
    = self_after (retry (Returned None) self step (k :: seq (S k) m)).
Proof.
  subst run. unfold range. intros Hin.
  destruct (retry_suffix (Returned None) self step text_labelled
              (max_retries self) 0 _ Hin eq_refl)
    as (Hr & He & pre & Ht & Ho & Hs).
  split; [lia|]. split.
  { subst step. cbv beta in He. rewrite text_step_events in He. simpl in He.
    destruct He as [He|[]]. symmetry. exact He. }
  exists pre, (max_retries self - S k)%nat.
  replace (0 + max_retries self - k)%nat
    with (S (max_retries self - S k)) in * by lia.
  simpl in *. split; [lia|]. auto.
Qed.

Lemma text_rate_limited k msg :
  In (request k) (trace run) ->
  pass k = PassRaise (HttpResponseError (Some 429) msg) ->
  exists pre post,
    trace run
    = pre ++ request k
        :: Sleep (rate_limit_delay self * 2 ^ Z.of_nat k) :: post /\
    ((S k < max_retries self)%nat ->
     exists post', post = request (S k) :: post') /\
    (S k = max_retries self -> post = []).
Proof.
  intros Hin Hp.
  destruct (text_loop_from _ _ _ Hin) as (Hk & _ & pre & m & Hm & Ht & _).
  assert (Hs : step k
               = Continue [request k]
                   (rate_limit_delay self * 2 ^ Z.of_nat k)).
  { subst step. simpl. rewrite Hp. reflexivity. }
  rewrite (@retry_continue _ (Returned None) self step _ _ _ _ Hs) in Ht.
  simpl in Ht. exists pre. eexists. split; [exact Ht|]. split.
  - intros Hlt. destruct m as [|m]; [lia|]. simpl seq.
    destruct (retry_starts (Returned None) self step (S k) (seq (S (S k)) m))
      as (post & Hpost).
    rewrite Hpost. subst step. cbv beta. rewrite text_step_events.
    simpl. eauto.
  - intros Heq. destruct m as [|m]; [reflexivity | lia].
Qed.

Lemma text_fatal k status_code msg :
  In (request k) (trace run) ->
  pass k = PassRaise (HttpResponseError status_code msg) ->
  is_429 status_code = false ->
  outcome run = Raised (HttpResponseError status_code msg) /\
  self_after run = self /\
  exists pre, trace run = pre ++ [request k].
Proof.
  intros Hin Hp H429.
  destruct (text_loop_from _ _ _ Hin)
    as (Hk & _ & pre & m & Hm & Ht & Ho & Hsf).
  assert (Hs : step k
               = Stop (Raised (HttpResponseError status_code msg))
                   [request k] self).
  { subst step. cbv beta. rewrite Hp. unfold text_step.
    rewrite H429. reflexivity. }
  rewrite (@retry_stop _ (Returned None) self step _ _ _ _ _ Hs) in Ht, Ho, Hsf.
  simpl in *. eauto.
Qed.

Lemma text_other_retried k e :
  In (request k) (trace run) ->
  pass k = PassRaise e ->
  is_http_response_error e = false ->
  (S k < max_retries self)%nat ->
  exists pre post,
    trace run
    = pre ++ request k
        :: Sleep (retry_delay self * 2 ^ Z.of_nat k)
        :: request (S k) :: post.
Proof.
  intros Hin Hp He Hlt.
  destruct (text_loop_from _ _ _ Hin) as (Hk & _ & pre & m & Hm & Ht & _).
  assert (Hs : step k
               = Continue [request k] (retry_delay self * 2 ^ Z.of_nat k)).
  { subst step. cbv beta. rewrite Hp. unfold text_step.
    destruct (Z.eqb_spec (Z.of_nat k) (Z.of_nat (max_retries self) - 1));
      [lia|].
    destruct e; try reflexivity. discriminate. }
  rewrite (@retry_continue _ (Returned None) self step _ _ _ _ Hs) in Ht.
  simpl in Ht. destruct m as [|m]; [lia|]. simpl seq in Ht.
  destruct (retry_starts (Returned None) self step (S k) (seq (S (S k)) m))
    as (post & Hpost).
  rewrite Hpost in Ht. subst step. cbv beta in Ht.
  rewrite text_step_events in Ht.
  simpl in Ht. eauto.
Qed.

Lemma text_other_final k e :
  In (request k) (trace run) ->
  pass k = PassRaise e ->
  is_http_response_error e = false ->
  S k = max_retries self ->
  outcome run = Raised e /\
  self_after run = self /\
  exists pre, trace run = pre ++ [request k].
Proof.
  intros Hin Hp He Hlast.
  destruct (text_loop_from _ _ _ Hin)
    as (Hk & _ & pre & m & Hm & Ht & Ho & Hsf).
  assert (Hs : step k = Stop (Raised e) [request k] self).
  { subst step. cbv beta. rewrite Hp. unfold text_step.
    destruct (Z.eqb_spec (Z.of_nat k) (Z.of_nat (max_retries self) - 1));
      [|lia].
    destruct e; try reflexivity. discriminate. }
  rewrite (@retry_stop _ (Returned None) self step _ _ _ _ _ Hs) in Ht, Ho, Hsf.
  simpl in *. eauto.
Qed.

Lemma text_all_rate_limited :
  (forall k, (k < max_retries self)%nat ->
             exists msg, pass k = PassRaise (HttpResponseError (Some 429) msg)) ->
  outcome run = Returned None /\ self_after run = self.
Proof.
  intros H. subst run. apply retry_exhausted.
  intros k Hk. unfold range in Hk. apply in_seq in Hk.
  destruct (H k) as (msg & Hp); [lia|].
  subst step. simpl. rewrite Hp. simpl. eauto.
Qed.

Lemma text_attempts_bound :
  (attempts_made (trace run) <= max_retries self)%nat.
Proof.
  subst run.
  pose proof (retry_attempts_bound (Returned None) self step
                (range (max_retries self))) as H.
  unfold range in H. rewrite length_seq in H. apply H.
  intros k. subst step. cbv beta. rewrite text_step_events.
  apply Nat.le_refl.
Qed.

End TextLoop.

(** *** The loop of the conversation method *)

Lemma poll_loop_events fuel svc k url : forall n e,
  In e (snd (poll_loop fuel svc k n url)) ->
  is_attempt e = false /\ forall j, attempt_of e = Some j -> j = k.
Proof.
  induction fuel as [|fuel IH]; intros n e; simpl; [contradiction|].
  destruct (get svc k n) as [x|status items].
  - simpl. intros [<-|[]]. simpl. split; [reflexivity|congruence].
  - destruct (str_eqb status (lit "succeeded")).
    { simpl. intros [<-|[]]. simpl. split; [reflexivity|congruence]. }
    destruct (str_eqb status (lit "failed")).
    { simpl. intros [<-|[]]. simpl. split; [reflexivity|congruence]. }
    destruct (poll_loop fuel svc k (S n) url) as [p t] eqn:E.
    simpl. intros [<-|[<-|H]].
    + simpl. split; [reflexivity|congruence].
    + simpl. split; [reflexivity|discriminate].
    + apply (IH (S n)). rewrite E. exact H.
Qed.

(** A pass submits the job once, and then only asks for the status. *)
Lemma conversation_pass_events fuel self svc items url json k :
  exists t,
    snd (conversation_pass fuel self svc items url json k)
    = Post k url json :: t /\
    forall e, In e t ->
      is_attempt e = false /\ forall j, attempt_of e = Some j -> j = k.
Proof.
  unfold conversation_pass.
  destruct (post svc k) as [x|[[|c location]|]];
    try (exists []; simpl; split; [reflexivity|contradiction]).
  pose proof (poll_loop_events fuel svc k (c :: location) 0) as H.
  destruct (poll_loop fuel svc k 0 (c :: location)) as [p t].
  exists t. split; [|exact H].
  destruct p as [[items'|x]|x|]; try reflexivity.
  destruct (total_chars items); reflexivity.
Qed.

Lemma conversation_step_events fuel self svc items url json k :
  step_events (conversation_step fuel self svc items url json k)
  = snd (conversation_pass fuel self svc items url json k).
Proof.
  unfold conversation_step.
  destruct (conversation_pass fuel self svc items url json k) as [p t].
  destruct p as [v s'|e|]; try reflexivity.
  destruct e; try (destruct (status_code =? 429));
    try (destruct (Z.of_nat k =? Z.of_nat (max_retries self) - 1));
    reflexivity.
Qed.

Lemma attempts_made_none (t : list Event) :
  (forall e, In e t -> is_attempt e = false) -> attempts_made t = 0%nat.
Proof.
  unfold attempts_made. induction t as [|e t IH]; intros H; [reflexivity|].
  simpl. rewrite (H e (or_introl eq_refl)). apply IH.
  intros e' He'. apply H. right. exact He'.
Qed.

Section ConversationLoop.

Variable fuel : nat.
Variable self : AzureTextSummarizer.
Variable svc : Service.
Variable items : list dict.
Variable url : str.
Variable json : ConversationData.

Let step := conversation_step fuel self svc items url json.
Let run := retry (Some (Returned None)) self step (range (max_retries self)).

Lemma conversation_labelled j e k :
  In e (step_events (step j)) -> attempt_of e = Some k -> k = j.
Proof.
  subst step. cbv beta. rewrite conversation_step_events.
  destruct (conversation_pass_events fuel self svc items url json j)
    as (t & -> & Ht).
  intros [<-|H] Hk.
  - simpl in Hk. congruence.
  - apply (proj2 (Ht e H)). exact Hk.
Qed.

Lemma conversation_loop_from k url' json' :
  In (Post k url' json') (trace run) ->
  (k < max_retries self)%nat /\
  url' = url /\ json' = json /\
  exists pre m,
    max_retries self = (k + S m)%nat /\
    trace run
    = pre ++ trace (retry (Some (Returned None)) self step
                      (k :: seq (S k) m)) /\
    outcome run
    = outcome (retry (Some (Returned None)) self step (k :: seq (S k) m)).
Proof.
  subst run. unfold range. intros Hin.
  destruct (retry_suffix (Some (Returned None)) self step
              conversation_labelled (max_retries self) 0 _ Hin eq_refl)
    as (Hr & He & pre & Ht & Ho & Hs).
  split; [lia|].
  assert (Heq : url' = url /\ json' = json).
  { subst step. cbv beta in He. rewrite conversation_step_events in He.
    destruct (conversation_pass_events fuel self svc items url json k)
      as (t & Hsnd & Hrest).
    rewrite Hsnd in He. destruct He as [He|He].
    - injection He as -> ->. auto.
    - destruct (Hrest _ He) as [Hna _]. discriminate. }
  destruct Heq as [-> ->]. split; [reflexivity|]. split; [reflexivity|].
  exists pre, (max_retries self - S k)%nat.
  replace (0 + max_retries self - k)%nat
    with (S (max_retries self - S k)) in * by lia.
  simpl in *. split; [lia|]. auto.
Qed.

Lemma conversation_rate_limited k url' json' msg t :
  In (Post k url' json') (trace run) ->
  conversation_pass fuel self svc items url json k
  = (ConvRaise (HTTPError 429 msg), t) ->
  exists pre post,
    trace run
    = pre ++ t ++ Sleep (rate_limit_delay self * 2 ^ Z.of_nat k) :: post /\
    ((S k < max_retries self)%nat ->
     exists post', post = Post (S k) url json :: post') /\
    (S k = max_retries self -> post = []).
Proof.
  intros Hin Hp.
  destruct (conversation_loop_from _ _ _ Hin)
    as (Hk & _ & _ & pre & m & Hm & Ht & _).
  assert (Hs : step k
               = Continue t (rate_limit_delay self * 2 ^ Z.of_nat k)).
  { subst step. cbv beta. unfold conversation_step. rewrite Hp.
    reflexivity. }
  rewrite (@retry_continue _ (Some (Returned None)) self step _ _ _ _ Hs)
    in Ht.
  simpl in Ht. exists pre. eexists. split; [exact Ht|]. split.
  - intros Hlt. destruct m as [|m]; [lia|]. simpl seq.
    destruct (retry_starts (Some (Returned None)) self step (S k)
                (seq (S (S k)) m)) as (post & Hpost).
    rewrite Hpost. subst step. cbv beta.
    rewrite conversation_step_events.
    destruct (conversation_pass_events fuel self svc items url json (S k))
      as (t' & -> & _).
    simpl. eauto.
  - intros Heq. destruct m as [|m]; [reflexivity | lia].
Qed.

Lemma conversation_attempts_bound :
  (attempts_made (trace run) <= max_retries self)%nat.
Proof.
  subst run.
  pose proof (retry_attempts_bound (Some (Returned None)) self step
                (range (max_retries self))) as H.
  unfold range in H. rewrite length_seq in H. apply H.
  intros k. subst step. cbv beta. rewrite conversation_step_events.
  destruct (conversation_pass_events fuel self svc items url json k)
    as (t & -> & Ht).
  change (Post k url json :: t) with ([Post k url json] ++ t).
  rewrite attempts_made_app, (attempts_made_none t).
  - apply Nat.le_refl.
  - intros e He. apply (Ht e He).
Qed.

End ConversationLoop.

(** *** Polling that settles *)

Lemma poll_loop_settles svc k url fuel : forall n,
  (exists n', (n <= n' < n + fuel)%nat /\ poll_ends (get svc k n') = true) ->
  fst (poll_loop fuel svc k n url) <> StillPolling.
Proof.
  induction fuel as [|fuel IH]; intros n (n' & Hn & He); [lia|].
  simpl. unfold poll_ends in He.
  destruct (get svc k n) as [x|status items] eqn:Eg; [discriminate|].
  destruct (str_eqb status (lit "succeeded")) eqn:E1; [discriminate|].
  destruct (str_eqb status (lit "failed")) eqn:E2; [discriminate|].
  assert (Hne : n' <> n).
  { intros ->. rewrite Eg, E1, E2 in He. discriminate. }
  specialize (IH (S n)).
  destruct (poll_loop fuel svc k (S n) url) as [p t]. simpl in *.
  apply IH. exists n'. split; [lia|exact He].
Qed.

(** Once the polling loop has left, more fuel changes nothing. *)
Lemma poll_loop_stable svc k url fuel : forall n fuel',
  fst (poll_loop fuel svc k n url) <> StillPolling ->
  (fuel <= fuel')%nat ->
  poll_loop fuel' svc k n url = poll_loop fuel svc k n url.
Proof.
  induction fuel as [|fuel IH]; intros n fuel' Hne Hle; simpl in Hne;
    [congruence|].
  destruct fuel' as [|fuel']; [lia|]. simpl.
  destruct (get svc k n) as [x|status items]; [reflexivity|].
  destruct (str_eqb status (lit "succeeded")); [reflexivity|].
  destruct (str_eqb status (lit "failed")); [reflexivity|].
  rewrite (IH (S n) fuel'); [reflexivity| |lia].
  destruct (poll_loop fuel svc k (S n) url). exact Hne.
Qed.

Lemma conversation_step_settles self svc items url json bound k fuel :
  polling_settles svc bound k ->
  (bound <= fuel)%nat ->
  conversation_step fuel self svc items url json k
  = conversation_step bound self svc items url json k /\
  forall t s', conversation_step bound self svc items url json k
               <> Stop None t s'.
Proof.
  intros (n & Hn & He) Hle.
  unfold conversation_step, conversation_pass.
  destruct (post svc k) as [x|[[|c location]|]];
    try (split; [reflexivity|]; intros t s';
         try (destruct x; try (destruct (status_code =? 429)));
         try (destruct (Z.of_nat k =? Z.of_nat (max_retries self) - 1));
         discriminate).
  assert (Hs : fst (poll_loop bound svc k 0 (c :: location)) <> StillPolling).
  { apply poll_loop_settles. exists n. split; [lia|exact He]. }
  rewrite (@poll_loop_stable svc k (c :: location) bound 0%nat fuel Hs Hle).
  split; [reflexivity|].
  destruct (poll_loop bound svc k 0 (c :: location)) as [p t0].
  simpl in Hs. intros t s'.
  destruct p as [[its|x]|x|]; try congruence;
    try (destruct (total_chars items) as [v|x]; [discriminate|]);
    destruct x; break_ifs; discriminate.
Qed.

Lemma retry_ext (O : Type) (exhausted : O) self (f g : nat -> Step O)
  attempts :
  (forall k, In k attempts -> f k = g k) ->
  retry exhausted self f attempts = retry exhausted self g attempts.
Proof.
  induction attempts as [|k rest IH]; intros H; simpl; [reflexivity|].
  rewrite <- (H k (or_introl eq_refl)), IH; [reflexivity|].
  intros j Hj. apply H. right. exact Hj.
Qed.

(** The outcome of a loop is that of the turn that left it, or the one
    for attempts used up. *)
Lemma retry_outcome (O : Type) (exhausted : O) self (f : nat -> Step O)
  attempts :
  outcome (retry exhausted self f attempts) = exhausted \/
  exists k t s', In k attempts /\
    f k = Stop (outcome (retry exhausted self f attempts)) t s'.
Proof.
  induction attempts as [|k rest IH]; simpl; [left; reflexivity|].
  destruct (f k) as [o t s'|t d] eqn:E; simpl.
  - right. exists k, t, s'. auto.
  - destruct IH as [IH|(j & t' & s' & Hj & Hf)]; [left; exact IH|].
    right. exists j, t', s'. auto.
Qed.

End RetryFacts.

(* ===================================================================== *)
(** ** Properties of [AzureTextSummarizer]                                 *)
(* ===================================================================== *)

Module SummarizerSpec.

Import Summarizer Retry RetryFacts PyFacts.

Local Open Scope Z_scope.

(** [__init__] sets the three retry parameters. *)
Lemma init_configuration endpoint api_key env_endpoint env_key self :
  init endpoint api_key env_endpoint env_key = Returned self ->
  max_retries self = 3%nat /\ retry_delay self = 1 /\
  rate_limit_delay self = 2.
Proof.
  unfold init.
  destruct (or_else endpoint env_endpoint) as [[|c e]|]; try discriminate;
    destruct (or_else api_key env_key) as [[|c' k]|]; try discriminate.
  intros H. injection H as <-. simpl. auto.
Qed.

Lemma init_summarizer :
  init (Some (endpoint Scenario.summarizer))
    (Some (api_key Scenario.summarizer)) None None
  = Returned Scenario.summarizer.
Proof. reflexivity. Qed.

(** A call of [extractive_summarization] either fails its validation,
    with nothing done, or is its retry loop under the outer handler. *)
Lemma extractive_cases self client text sentence_count sort_by :
  let r := extractive_summarization self client text sentence_count sort_by in
  (trace r = [] /\
   (text_is_empty text = true \/ sentence_count_ok sentence_count = false) /\
   exists msg, outcome r = Raised (ValueError msg))
  \/
  (text_is_empty text = false /\ sentence_count_ok sentence_count = true /\
   r = count_failure (len text)
         (retry (Returned None) self
            (extractive_step self client text
               (ExtractiveSummaryAction sentence_count sort_by))
            (range (max_retries self)))).
Proof.
  unfold extractive_summarization. simpl.
  destruct (text_is_empty text); simpl.
  { left. split; [reflexivity|]. split; [auto|]. eexists. reflexivity. }
  destruct (sentence_count_ok sentence_count); simpl.
  - right. rewrite extractive_loop_retry. auto.
  - left. split; [reflexivity|]. split; [auto|]. eexists. reflexivity.
Qed.

Lemma abstractive_cases self client text summary_length :
  let r := abstractive_summarization self client text summary_length in
  (trace r = [] /\
   (text_is_empty text = true \/ summary_length_ok summary_length = false) /\
   exists msg, outcome r = Raised (ValueError msg))
  \/
  (text_is_empty text = false /\ summary_length_ok summary_length = true /\
   r = count_failure (len text)
         (retry (Returned None) self
            (abstractive_step self client text
               (AbstractiveSummaryAction summary_length))
            (range (max_retries self)))).
Proof.
  unfold abstractive_summarization. simpl.
  destruct (text_is_empty text); simpl.
  { left. split; [reflexivity|]. split; [auto|]. eexists. reflexivity. }
  destruct (summary_length_ok summary_length); simpl.
  - right. rewrite abstractive_loop_retry. auto.
  - left. split; [reflexivity|]. split; [auto|]. eexists. reflexivity.
Qed.

Lemma trace_count_conversation_failure (A : Type) items
  (r : Run (option (completion A))) :
  trace (count_conversation_failure items r) = trace r.
Proof.
  unfold count_conversation_failure.
  destruct (outcome r) as [[v|e]|]; try reflexivity.
  destruct (total_chars items); reflexivity.
Qed.

Lemma outcome_count_conversation_failure (A : Type) items
  (r : Run (option (completion A))) :
  outcome (count_conversation_failure items r) = None <-> outcome r = None.
Proof.
  unfold count_conversation_failure.
  destruct (outcome r) as [[v|e]|] eqn:E; simpl; try tauto;
    try (rewrite E; tauto).
  destruct (total_chars items); simpl; split; discriminate.
Qed.

(** A call of [conversation_summarization] either ends before its loop,
    with nothing done, or is its retry loop under the outer handler. *)
Lemma conversation_cases fuel self svc items aspects :
  let r := conversation_summarization fuel self svc items aspects in
  (trace r = [] /\ exists e, outcome r = Some (Raised e))
  \/
  (exists json,
     r = count_conversation_failure items
           (retry (Some (Returned None)) self
              (conversation_step fuel self svc items (conversation_url self)
                 json)
              (range (max_retries self)))).
Proof.
  unfold conversation_summarization. simpl.
  destruct (truthy items); simpl.
  - destruct (conversation_items_from 0 items) as [l|e].
    + right. eexists. rewrite conversation_loop_retry. reflexivity.
    + left. rewrite trace_count_conversation_failure. simpl.
      split; [reflexivity|]. unfold count_conversation_failure. simpl.
      destruct (total_chars items); simpl; eauto.
  - left. rewrite trace_count_conversation_failure. simpl.
    split; [reflexivity|]. unfold count_conversation_failure. simpl.
    destruct (total_chars items); simpl; eauto.
Qed.

(** C1 (amended).  In [extractive_summarization],
    [abstractive_summarization] and [conversation_summarization],
    whenever attempt number [k] (counting from 0) is made and fails with
    an HTTP error whose status code is 429, the function sleeps for
    exactly [rate_limit_delay * 2^k] seconds right after the attempt,
    and, when [k + 1 < max_retries], the next thing it does is to issue
    the same request again as attempt [k + 1].  [__init__] sets
    [rate_limit_delay] to 2 seconds. *)
Theorem rate_limit_backoff :
  (forall self client text sentence_count sort_by k msg,
     let request j :=
       Analyze j [text] [ExtractiveSummaryAction sentence_count sort_by] in
     let r :=
       extractive_summarization self client text sentence_count sort_by in
     In (request k) (trace r) ->
     client k = Raises (HttpResponseError (Some 429) msg) ->
     exists pre post,
       trace r
       = pre ++ request k
           :: Sleep (rate_limit_delay self * 2 ^ Z.of_nat k) :: post /\
       ((S k < max_retries self)%nat ->
        exists post', post = request (S k) :: post'))
  /\
  (forall self client text summary_length k msg,
     let request j :=
       Analyze j [text] [AbstractiveSummaryAction summary_length] in
     let r := abstractive_summarization self client text summary_length in
     In (request k) (trace r) ->
     client k = Raises (HttpResponseError (Some 429) msg) ->
     exists pre post,
       trace r
       = pre ++ request k
           :: Sleep (rate_limit_delay self * 2 ^ Z.of_nat k) :: post /\
       ((S k < max_retries self)%nat ->
        exists post', post = request (S k) :: post'))
  /\
  (forall fuel self svc items aspects url json k msg t,
     let r := conversation_summarization fuel self svc items aspects in
     In (Post k url json) (trace r) ->
     conversation_pass fuel self svc items url json k
     = (ConvRaise (HTTPError 429 msg), t) ->
     exists pre post,
       trace r
       = pre ++ t
           ++ Sleep (rate_limit_delay self * 2 ^ Z.of_nat k) :: post /\
       ((S k < max_retries self)%nat ->
        exists post', post = Post (S k) url json :: post'))
  /\
  (forall endpoint api_key env_endpoint env_key self,
     init endpoint api_key env_endpoint env_key = Returned self ->
     rate_limit_delay self = 2).
Proof.
  repeat split.
  - intros self client text sentence_count sort_by k msg request r Hin Hk.
    destruct (extractive_cases self client text sentence_count sort_by)
      as [(Ht & _)|(_ & _ & Hr)]; fold r in Ht || fold r in Hr.
    { rewrite Ht in Hin. contradiction. }
    rewrite Hr, trace_count_failure in *.
    destruct (@text_rate_limited self text
                (ExtractiveSummaryAction sentence_count sort_by)
                (fun j => extractive_pass self text (client j)) k msg Hin)
      as (pre & post & H1 & H2 & _).
    { simpl. rewrite Hk. reflexivity. }
    exists pre, post. split; [exact H1 | exact H2].
  - intros self client text summary_length k msg request r Hin Hk.
    destruct (abstractive_cases self client text summary_length)
      as [(Ht & _)|(_ & _ & Hr)]; fold r in Ht || fold r in Hr.
    { rewrite Ht in Hin. contradiction. }
    rewrite Hr, trace_count_failure in *.
    destruct (@text_rate_limited self text
                (AbstractiveSummaryAction summary_length)
                (fun j => abstractive_pass self text (client j)) k msg Hin)
      as (pre & post & H1 & H2 & _).
    { simpl. rewrite Hk. reflexivity. }
    exists pre, post. split; [exact H1 | exact H2].
  - intros fuel self svc items aspects url json k msg t r Hin Hp.
    destruct (conversation_cases fuel self svc items aspects)
      as [(Ht & _)|(json' & Hr)]; fold r in Ht || fold r in Hr.
    { rewrite Ht in Hin. contradiction. }
    rewrite Hr, trace_count_conversation_failure in *.
    destruct (@conversation_loop_from fuel self svc items
                (conversation_url self) json' k url json Hin)
      as (_ & -> & -> & _).
    destruct (@conversation_rate_limited fuel self svc items
                (conversation_url self) json' k (conversation_url self)
                json' msg t Hin Hp)
      as (pre & post & H1 & H2 & _).
    exists pre, post. split; [exact H1 | exact H2].
  - intros endpoint api_key env_endpoint env_key self H.
    apply (init_configuration _ _ _ _ H).
Qed.

(** C1, witness: the throttled services, at attempts 0, 1 and 0. *)
Lemma rate_limit_backoff_witness :
  (exists pre post,
     trace (extractive_summarization Scenario.summarizer
              Scenario.throttled_extract Scenario.article 3 (lit "Rank"))
     = pre ++ Analyze 0 [Scenario.article]
                [ExtractiveSummaryAction 3 (lit "Rank")]
         :: Sleep (2 * 2 ^ 0) :: post /\
     ((1 < 3)%nat ->
      exists post',
        post = Analyze 1 [Scenario.article]
                 [ExtractiveSummaryAction 3 (lit "Rank")] :: post'))
  /\
  (exists pre post,
     trace (abstractive_summarization Scenario.summarizer
              Scenario.throttled_abstract Scenario.article (lit "short"))
     = pre ++ Analyze 1 [Scenario.article]
                [AbstractiveSummaryAction (lit "short")]
         :: Sleep (2 * 2 ^ 1) :: post /\
     ((2 < 3)%nat ->
      exists post',
        post = Analyze 2 [Scenario.article]
                 [AbstractiveSummaryAction (lit "short")] :: post'))
  /\
  (exists pre post,
     trace (conversation_summarization 5 Scenario.summarizer
              Scenario.throttled Scenario.chat None)
     = pre ++ [Post 0 (conversation_url Scenario.summarizer)
                 Scenario.chat_job]
         ++ Sleep (2 * 2 ^ 0) :: post /\
     ((1 < 3)%nat ->
      exists post',
        post = Post 1 (conversation_url Scenario.summarizer)
                 Scenario.chat_job :: post')).
Proof.
  split; [|split].
  - apply (proj1 rate_limit_backoff Scenario.summarizer
             Scenario.throttled_extract Scenario.article 3 (lit "Rank")
             0%nat (lit "Too Many Requests")).
    + vm_compute. auto.
    + reflexivity.
  - apply (proj1 (proj2 rate_limit_backoff) Scenario.summarizer
             Scenario.throttled_abstract Scenario.article (lit "short")
             1%nat (lit "Too Many Requests")).
    + vm_compute. auto.
    + reflexivity.
  - apply (proj1 (proj2 (proj2 rate_limit_backoff)) 5%nat
             Scenario.summarizer Scenario.throttled Scenario.chat None
             (conversation_url Scenario.summarizer) Scenario.chat_job
             0%nat (lit "Too Many Requests")).
    + vm_compute. auto.
    + reflexivity.
Defined.

(** C1, counterexample: with a service that answers every attempt with
    HTTP 429, attempt 2 of [extractive_summarization] is made and fails
    with status 429, and the function sleeps 8 seconds, but nothing
    follows the sleep: the request is not issued again. *)
Lemma rate_limit_last_attempt_not_retried :
  let r :=
    extractive_summarization Scenario.summarizer Scenario.throttled_extract
      Scenario.article 3 (lit "Rank") in
  let request j :=
    Analyze j [Scenario.article] [ExtractiveSummaryAction 3 (lit "Rank")] in
  (2 < max_retries Scenario.summarizer)%nat /\
  Scenario.throttled_extract 2%nat = Raises Scenario.too_many_requests /\
  trace r
  = [request 0%nat; Sleep 2; request 1%nat; Sleep 4; request 2%nat; Sleep 8] /\
  ~ (exists pre e post,
       trace r
       = pre ++ request 2%nat
           :: Sleep (rate_limit_delay Scenario.summarizer * 2 ^ 2)
           :: e :: post).
Proof.
  intros r request.
  assert (Ht : trace r
               = [request 0%nat; Sleep 2; request 1%nat; Sleep 4;
                  request 2%nat; Sleep 8]) by reflexivity.
  split; [simpl; lia|]. split; [reflexivity|]. split; [exact Ht|].
  intros (pre & e & post & H). rewrite Ht in H.
  assert (Hlen : (List.length pre + (3 + List.length post) = 6)%nat).
  { apply (f_equal (@List.length Event)) in H.
    rewrite length_app in H. simpl in H. lia. }
  destruct pre as [|e0 [|e1 [|e2 [|e3 pre]]]]; simpl in H, Hlen;
    try lia; injection H; intros; subst; discriminate.
Qed.

(** C3.  Within the retry loop of [extractive_summarization] and
    [abstractive_summarization]: an [HttpResponseError] whose status
    code is not 429 is raised again at once, with no further attempt
    (the trace ends with the request that failed); every other exception
    an attempt ends with is followed by a sleep of
    [retry_delay * 2^attempt] seconds and the next attempt, unless it
    occurs on the final attempt ([attempt == max_retries - 1]), where it
    is raised again. *)
Theorem error_policy :
  (forall self client text sentence_count sort_by k,
     let request j :=
       Analyze j [text] [ExtractiveSummaryAction sentence_count sort_by] in
     let r :=
       extractive_summarization self client text sentence_count sort_by in
     In (request k) (trace r) ->
     (forall status_code msg,
        client k = Raises (HttpResponseError status_code msg) ->
        is_429 status_code = false ->
        outcome r = Raised (HttpResponseError status_code msg) /\
        exists pre, trace r = pre ++ [request k])
     /\
     (forall e,
        extractive_pass self text (client k) = PassRaise e ->
        is_http_response_error e = false ->
        ((S k < max_retries self)%nat ->
         exists pre post,
           trace r
           = pre ++ request k
               :: Sleep (retry_delay self * 2 ^ Z.of_nat k)
               :: request (S k) :: post)
        /\
        (Z.of_nat k = Z.of_nat (max_retries self) - 1 ->
         outcome r = Raised e /\
         exists pre, trace r = pre ++ [request k])))
  /\
  (forall self client text summary_length k,
     let request j :=
       Analyze j [text] [AbstractiveSummaryAction summary_length] in
     let r := abstractive_summarization self client text summary_length in
     In (request k) (trace r) ->
     (forall status_code msg,
        client k = Raises (HttpResponseError status_code msg) ->
        is_429 status_code = false ->
        outcome r = Raised (HttpResponseError status_code msg) /\
        exists pre, trace r = pre ++ [request k])
     /\
     (forall e,
        abstractive_pass self text (client k) = PassRaise e ->
        is_http_response_error e = false ->
        ((S k < max_retries self)%nat ->
         exists pre post,
           trace r
           = pre ++ request k
               :: Sleep (retry_delay self * 2 ^ Z.of_nat k)
               :: request (S k) :: post)
        /\
        (Z.of_nat k = Z.of_nat (max_retries self) - 1 ->
         outcome r = Raised e /\
         exists pre, trace r = pre ++ [request k]))).
Proof.
  split.
  - intros self client text sentence_count sort_by k request r Hin.
    destruct (extractive_cases self client text sentence_count sort_by)
      as [(Ht & _)|(_ & _ & Hr)]; fold r in Ht || fold r in Hr.
    { rewrite Ht in Hin. contradiction. }
    rewrite Hr, trace_count_failure, outcome_count_failure in *.
    set (pass := fun j => extractive_pass self text (client j)).
    set (action := ExtractiveSummaryAction sentence_count sort_by) in *.
    split.
    + intros status_code msg Hk H429.
      destruct (@text_fatal self text action pass k status_code msg Hin)
        as (Ho & _ & Hp); auto.
      subst pass. simpl. rewrite Hk. reflexivity.
    + intros e Hp He. split.
      * intros Hlt.
        apply (@text_other_retried self text action pass k e Hin Hp He Hlt).
      * intros Hlast.
        destruct (@text_other_final self text action pass k e Hin Hp He)
          as (Ho & _ & Hpre); [lia|]. auto.
  - intros self client text summary_length k request r Hin.
    destruct (abstractive_cases self client text summary_length)
      as [(Ht & _)|(_ & _ & Hr)]; fold r in Ht || fold r in Hr.
    { rewrite Ht in Hin. contradiction. }
    rewrite Hr, trace_count_failure, outcome_count_failure in *.
    set (pass := fun j => abstractive_pass self text (client j)).
    set (action := AbstractiveSummaryAction summary_length) in *.
    split.
    + intros status_code msg Hk H429.
      destruct (@text_fatal self text action pass k status_code msg Hin)
        as (Ho & _ & Hp); auto.
      subst pass. simpl. rewrite Hk. reflexivity.
    + intros e Hp He. split.
      * intros Hlt.
        apply (@text_other_retried self text action pass k e Hin Hp He Hlt).
      * intros Hlast.
        destruct (@text_other_final self text action pass k e Hin Hp He)
          as (Ho & _ & Hpre); [lia|]. auto.
Qed.

(** C3, witness: a refused key at attempt 0, and a dropped connection
    at attempts 0 and 2. *)
Lemma error_policy_witness :
  let request j :=
    Analyze j [Scenario.article] [ExtractiveSummaryAction 3 (lit "Rank")] in
  (outcome (extractive_summarization Scenario.summarizer
              Scenario.unauthorized_extract Scenario.article 3 (lit "Rank"))
   = Raised (HttpResponseError (Some 401) (lit "Unauthorized")) /\
   exists pre,
     trace (extractive_summarization Scenario.summarizer
              Scenario.unauthorized_extract Scenario.article 3 (lit "Rank"))
     = pre ++ [request 0%nat])
  /\
  (exists pre post,
     trace (extractive_summarization Scenario.summarizer
              Scenario.unreachable_extract Scenario.article 3 (lit "Rank"))
     = pre ++ request 0%nat :: Sleep (1 * 2 ^ 0) :: request 1%nat :: post)
  /\
  (outcome (abstractive_summarization Scenario.summarizer
              Scenario.unreachable_abstract Scenario.article (lit "long"))
   = Raised (Exception (lit "Connection reset by peer")) /\
   exists pre,
     trace (abstractive_summarization Scenario.summarizer
              Scenario.unreachable_abstract Scenario.article (lit "long"))
     = pre ++ [Analyze 2 [Scenario.article]
                 [AbstractiveSummaryAction (lit "long")]]).
Proof.
  intros request. split; [|split].
  - refine (proj1 (proj1 error_policy Scenario.summarizer
                     Scenario.unauthorized_extract Scenario.article 3
                     (lit "Rank") 0%nat _)
              (Some 401) (lit "Unauthorized") eq_refl eq_refl).
    vm_compute. auto.
  - refine (proj1 (proj2 (proj1 error_policy Scenario.summarizer
                            Scenario.unreachable_extract Scenario.article 3
                            (lit "Rank") 0%nat _)
                     (Exception (lit "Connection reset by peer"))
                     eq_refl eq_refl) _).
    + vm_compute. auto.
    + simpl. lia.
  - refine (proj2 (proj2 (proj2 error_policy Scenario.summarizer
                            Scenario.unreachable_abstract Scenario.article
                            (lit "long") 2%nat _)
                     (Exception (lit "Connection reset by peer"))
                     eq_refl eq_refl) _).
    + vm_compute. auto 10.
    + reflexivity.
Defined.

(** C4.  If every one of the [max_retries] attempts of
    [extractive_summarization] (or [abstractive_summarization]) fails
    with an HTTP 429 error, the function neither raises nor returns a
    [SummaryResult]: it returns [None], and the object, its statistics
    included, is as it was before the call. *)
Theorem rate_limit_exhaustion :
  (forall self client text sentence_count sort_by,
     text_is_empty text = false ->
     sentence_count_ok sentence_count = true ->
     (forall k, (k < max_retries self)%nat ->
        exists msg, client k = Raises (HttpResponseError (Some 429) msg)) ->
     let r :=
       extractive_summarization self client text sentence_count sort_by in
     outcome r = Returned None /\
     self_after r = self /\ stats (self_after r) = stats self)
  /\
  (forall self client text summary_length,
     text_is_empty text = false ->
     summary_length_ok summary_length = true ->
     (forall k, (k < max_retries self)%nat ->
        exists msg, client k = Raises (HttpResponseError (Some 429) msg)) ->
     let r := abstractive_summarization self client text summary_length in
     outcome r = Returned None /\
     self_after r = self /\ stats (self_after r) = stats self).
Proof.
  split.
  - intros self client text sentence_count sort_by Htext Hcount Hall r.
    destruct (extractive_cases self client text sentence_count sort_by)
      as [(_ & [H|H] & _)|(_ & _ & Hr)]; try congruence.
    fold r in Hr. rewrite Hr.
    destruct (@text_all_rate_limited self text
                (ExtractiveSummaryAction sentence_count sort_by)
                (fun j => extractive_pass self text (client j)))
      as (Ho & Hs).
    { intros k Hk. destruct (Hall k Hk) as (msg & Hm). exists msg.
      simpl. rewrite Hm. reflexivity. }
    rewrite outcome_count_failure.
    rewrite (self_after_count_failure _ _ Ho).
    unfold extractive_step. rewrite Ho, Hs. auto.
  - intros self client text summary_length Htext Hlength Hall r.
    destruct (abstractive_cases self client text summary_length)
      as [(_ & [H|H] & _)|(_ & _ & Hr)]; try congruence.
    fold r in Hr. rewrite Hr.
    destruct (@text_all_rate_limited self text
                (AbstractiveSummaryAction summary_length)
                (fun j => abstractive_pass self text (client j)))
      as (Ho & Hs).
    { intros k Hk. destruct (Hall k Hk) as (msg & Hm). exists msg.
      simpl. rewrite Hm. reflexivity. }
    rewrite outcome_count_failure.
    rewrite (self_after_count_failure _ _ Ho).
    unfold abstractive_step. rewrite Ho, Hs. auto.
Qed.

(** C4, witness: the throttled services. *)
Lemma rate_limit_exhaustion_witness :
  (let r :=
     extractive_summarization Scenario.summarizer Scenario.throttled_extract
       Scenario.article 3 (lit "Rank") in
   outcome r = Returned None /\
   self_after r = Scenario.summarizer /\
   stats (self_after r) = stats Scenario.summarizer)
  /\
  (let r :=
     abstractive_summarization Scenario.summarizer
       Scenario.throttled_abstract Scenario.article (lit "medium") in
   outcome r = Returned None /\
   self_after r = Scenario.summarizer /\
   stats (self_after r) = stats Scenario.summarizer).
Proof.
  split.
  - apply (proj1 rate_limit_exhaustion Scenario.summarizer
             Scenario.throttled_extract Scenario.article 3 (lit "Rank")).
    + reflexivity.
    + reflexivity.
    + intros k _. exists (lit "Too Many Requests"). reflexivity.
  - apply (proj2 rate_limit_exhaustion Scenario.summarizer
             Scenario.throttled_abstract Scenario.article (lit "medium")).
    + reflexivity.
    + reflexivity.
    + intros k _. exists (lit "Too Many Requests"). reflexivity.
Defined.

(** The emptiness test of the two text methods holds exactly of the
    texts that are empty or consist only of whitespace. *)
Lemma text_is_empty_spec (text : str) :
  text_is_empty text = only_whitespace text.
Proof.
  unfold text_is_empty.
  destruct (only_whitespace text) eqn:E.
  - apply strip_nil_iff in E. rewrite E. apply orb_true_r.
  - apply orb_false_iff. split.
    + destruct text; [discriminate E | reflexivity].
    + destruct (len (strip text) =? 0) eqn:E'; [|reflexivity].
      apply len_zero_iff, strip_nil_iff in E'. congruence.
Qed.

(** C5.  For every integer [sentence_count] outside 1..20,
    [extractive_summarization] raises [ValueError] and makes no vendor
    request.  For every [sentence_count] in 1..20 the check of the
    sentence count passes and does not raise: with a text that is not
    empty the call goes on to its retry loop; with a text that is empty
    or consists only of whitespace the error raised is that of the text
    check. *)
Theorem sentence_count_validation :
  (forall self client text sentence_count sort_by,
     sentence_count < 1 \/ 20 < sentence_count ->
     let r :=
       extractive_summarization self client text sentence_count sort_by in
     (exists msg, outcome r = Raised (ValueError msg)) /\ trace r = [])
  /\
  (forall self client text sentence_count sort_by,
     1 <= sentence_count <= 20 ->
     let r :=
       extractive_summarization self client text sentence_count sort_by in
     sentence_count_ok sentence_count = true /\
     if only_whitespace text then
       outcome r = Raised (ValueError (lit "Input text cannot be empty")) /\
       trace r = []
     else
       r = count_failure (len text)
             (extractive_loop self client text
                (ExtractiveSummaryAction sentence_count sort_by)
                (range (max_retries self)))).
Proof.
  split.
  - intros self client text sentence_count sort_by Hout r.
    assert (Hbad : sentence_count_ok sentence_count = false).
    { unfold sentence_count_ok. apply andb_false_iff.
      destruct Hout; [left|right]; apply Z.leb_gt; lia. }
    subst r. unfold extractive_summarization.
    destruct (text_is_empty text); [|rewrite Hbad]; simpl;
      (split; [eexists; reflexivity | reflexivity]).
  - intros self client text sentence_count sort_by Hin r.
    assert (Hok : sentence_count_ok sentence_count = true).
    { unfold sentence_count_ok. apply andb_true_iff.
      split; apply Z.leb_le; lia. }
    split; [exact Hok|].
    subst r. unfold extractive_summarization.
    rewrite text_is_empty_spec, Hok.
    destruct (only_whitespace text); simpl; auto.
Qed.

(** C5, witness: a sentence count of 0 and of 21, and one of 20. *)
Lemma sentence_count_validation_witness :
  ((exists msg,
      outcome (extractive_summarization Scenario.summarizer
                 Scenario.throttled_extract Scenario.article 0 (lit "Rank"))
      = Raised (ValueError msg)) /\
   trace (extractive_summarization Scenario.summarizer
            Scenario.throttled_extract Scenario.article 0 (lit "Rank"))
   = [])
  /\
  ((exists msg,
      outcome (extractive_summarization Scenario.summarizer
                 Scenario.throttled_extract Scenario.article 21 (lit "Rank"))
      = Raised (ValueError msg)) /\
   trace (extractive_summarization Scenario.summarizer
            Scenario.throttled_extract Scenario.article 21 (lit "Rank"))
   = [])
  /\
  (sentence_count_ok 20 = true /\
   extractive_summarization Scenario.summarizer Scenario.unauthorized_extract
     Scenario.article 20 (lit "Offset")
   = count_failure (len Scenario.article)
       (extractive_loop Scenario.summarizer Scenario.unauthorized_extract
          Scenario.article (ExtractiveSummaryAction 20 (lit "Offset"))
          (range 3))).
Proof.
  split; [|split].
  - apply (proj1 sentence_count_validation Scenario.summarizer
             Scenario.throttled_extract Scenario.article 0 (lit "Rank")).
    left. lia.
  - apply (proj1 sentence_count_validation Scenario.summarizer
             Scenario.throttled_extract Scenario.article 21 (lit "Rank")).
    right. lia.
  - apply (proj2 sentence_count_validation Scenario.summarizer
             Scenario.unauthorized_extract Scenario.article 20
             (lit "Offset")).
    lia.
Defined.

(** C6.  For every text that is empty or consists only of whitespace,
    [extractive_summarization] and [abstractive_summarization] raise
    [ValueError("Input text cannot be empty")] without any request to
    the service, and [conversation_summarization] raises [ValueError]
    when [conversation_items] is empty. *)
Theorem empty_input_rejected :
  (forall self client text sentence_count sort_by,
     only_whitespace text = true ->
     let r :=
       extractive_summarization self client text sentence_count sort_by in
     outcome r = Raised (ValueError (lit "Input text cannot be empty")) /\
     trace r = [])
  /\
  (forall self client text summary_length,
     only_whitespace text = true ->
     let r := abstractive_summarization self client text summary_length in
     outcome r = Raised (ValueError (lit "Input text cannot be empty")) /\
     trace r = [])
  /\
  (forall fuel self svc aspects,
     let r := conversation_summarization fuel self svc [] aspects in
     outcome r
     = Some (Raised (ValueError (lit "Conversation items cannot be empty")))
     /\ trace r = []).
Proof.
  split; [|split].
  - intros self client text sentence_count sort_by H r. subst r.
    unfold extractive_summarization. rewrite text_is_empty_spec, H.
    split; reflexivity.
  - intros self client text summary_length H r. subst r.
    unfold abstractive_summarization. rewrite text_is_empty_spec, H.
    split; reflexivity.
  - intros fuel self svc aspects r. split; reflexivity.
Qed.

(** C6, witness: the empty text, and a text of a space, a tab, a line
    feed and a no-break space. *)
Lemma empty_input_rejected_witness :
  (outcome (extractive_summarization Scenario.summarizer
              Scenario.throttled_extract [] 3 (lit "Rank"))
   = Raised (ValueError (lit "Input text cannot be empty")) /\
   trace (extractive_summarization Scenario.summarizer
            Scenario.throttled_extract [] 3 (lit "Rank")) = [])
  /\
  (outcome (abstractive_summarization Scenario.summarizer
              Scenario.throttled_abstract [32; 9; 10; 160]%N (lit "short"))
   = Raised (ValueError (lit "Input text cannot be empty")) /\
   trace (abstractive_summarization Scenario.summarizer
            Scenario.throttled_abstract [32; 9; 10; 160]%N (lit "short"))
   = []).
Proof.
  split.
  - apply (proj1 empty_input_rejected Scenario.summarizer
             Scenario.throttled_extract [] 3 (lit "Rank")).
    reflexivity.
  - apply (proj1 (proj2 empty_input_rejected) Scenario.summarizer
             Scenario.throttled_abstract [32; 9; 10; 160]%N (lit "short")).
    reflexivity.
Defined.

Lemma status_requests_cons e t :
  status_requests (e :: t)
  = ((if is_status_request e then 1 else 0) + status_requests t)%nat.
Proof. unfold status_requests. simpl. destruct (is_status_request e); reflexivity. Qed.

(** The busy service keeps the polling loop going for as long as there
    is fuel. *)
Lemma busy_polling fuel : forall k n url,
  fst (poll_loop fuel Scenario.busy k n url) = StillPolling /\
  status_requests (snd (poll_loop fuel Scenario.busy k n url)) = fuel.
Proof.
  induction fuel as [|fuel IH]; intros k n url; [split; reflexivity|].
  specialize (IH k (S n) url).
  cbn [poll_loop Scenario.busy get].
  change (str_eqb (lit "running") (lit "succeeded")) with false.
  change (str_eqb (lit "running") (lit "failed")) with false.
  cbv iota.
  destruct (poll_loop fuel Scenario.busy k (S n) url) as [p t].
  simpl in *. destruct IH as [-> Hn]. split; [reflexivity|].
  rewrite !status_requests_cons. simpl. lia.
Qed.

Lemma busy_conversation fuel :
  let r :=
    conversation_summarization fuel Scenario.summarizer Scenario.busy
      Scenario.chat None in
  outcome r = None /\ status_requests (trace r) = fuel.
Proof.
  intros r. subst r.
  unfold conversation_summarization.
  change (truthy Scenario.chat) with true. cbv iota. cbn [negb].
  change (conversation_items_from 0 Scenario.chat)
    with (Returned (conversationItems Scenario.chat_job)).
  cbv iota.
  change (range (max_retries Scenario.summarizer)) with [0; 1; 2]%nat.
  cbn [conversation_loop].
  unfold conversation_pass.
  cbn [Scenario.busy post].
  change Scenario.job_url with (104%N :: List.tl Scenario.job_url).
  cbv iota.
  destruct (busy_polling fuel 0 0 (104%N :: List.tl Scenario.job_url))
    as [Hp Ht].
  destruct (poll_loop fuel Scenario.busy 0 0
              (104%N :: List.tl Scenario.job_url)) as [p t].
  simpl in Hp, Ht. subst p.
  rewrite outcome_count_conversation_failure.
  rewrite trace_count_conversation_failure.
  split; [reflexivity|].
  simpl trace. rewrite status_requests_cons. exact Ht.
Qed.

Lemma conversation_loop_settles self svc items url json bound fuel :
  (forall k, (k < max_retries self)%nat -> polling_settles svc bound k) ->
  (bound <= fuel)%nat ->
  conversation_loop fuel self svc items url json (range (max_retries self))
  = conversation_loop bound self svc items url json
      (range (max_retries self)) /\
  outcome (conversation_loop bound self svc items url json
             (range (max_retries self))) <> None.
Proof.
  intros Hall Hle. rewrite !conversation_loop_retry. split.
  - apply retry_ext. intros k Hk. apply in_seq in Hk.
    apply conversation_step_settles; [apply Hall; lia | exact Hle].
  - destruct (retry_outcome (Some (Returned None)) self
                (conversation_step bound self svc items url json)
                (range (max_retries self)))
      as [H|(k & t & s' & Hk & Hs)].
    + rewrite H. discriminate.
    + intros Hnone. rewrite Hnone in Hs. apply in_seq in Hk.
      destruct (@conversation_step_settles self svc items url json bound k
                  bound) as [_ Hne]; [apply Hall; lia | lia |].
      apply (Hne t s'). exact Hs.
Qed.

(** C2 (amended).  For every input, [extractive_summarization] and
    [abstractive_summarization] make at most [max_retries] attempts of
    the vendor call and always end, by returning a result, returning
    [None] or raising.  [conversation_summarization] submits its job at
    most [max_retries] times; it ends whenever the status requests of
    each attempt meet, among the first [bound] of them, a reply that
    ends the polling (an error or one of the statuses "succeeded" and
    "failed"): from [bound] status requests per attempt on, the call has
    ended and more polling changes nothing.  [__init__] sets
    [max_retries] to 3. *)
Theorem attempts_bounded :
  (forall self client text sentence_count sort_by,
     let r :=
       extractive_summarization self client text sentence_count sort_by in
     (attempts_made (trace r) <= max_retries self)%nat /\
     ((exists value, outcome r = Returned (Some value)) \/
      outcome r = Returned None \/
      (exists e, outcome r = Raised e)))
  /\
  (forall self client text summary_length,
     let r := abstractive_summarization self client text summary_length in
     (attempts_made (trace r) <= max_retries self)%nat /\
     ((exists value, outcome r = Returned (Some value)) \/
      outcome r = Returned None \/
      (exists e, outcome r = Raised e)))
  /\
  (forall fuel self svc items aspects,
     let r := conversation_summarization fuel self svc items aspects in
     (attempts_made (trace r) <= max_retries self)%nat)
  /\
  (forall self svc items aspects bound fuel,
     (forall k, (k < max_retries self)%nat -> polling_settles svc bound k) ->
     (bound <= fuel)%nat ->
     conversation_summarization fuel self svc items aspects
     = conversation_summarization bound self svc items aspects /\
     outcome (conversation_summarization bound self svc items aspects)
     <> None)
  /\
  (forall endpoint api_key env_endpoint env_key self,
     init endpoint api_key env_endpoint env_key = Returned self ->
     max_retries self = 3%nat).
Proof.
  split; [|split; [|split; [|split]]].
  - intros self client text sentence_count sort_by r. split.
    + destruct (extractive_cases self client text sentence_count sort_by)
        as [(Ht & _)|(_ & _ & Hr)]; fold r in Ht || fold r in Hr.
      * rewrite Ht. apply Nat.le_0_l.
      * rewrite Hr, trace_count_failure.
        apply (text_attempts_bound self text
                 (ExtractiveSummaryAction sentence_count sort_by)
                 (fun j => extractive_pass self text (client j))).
    + destruct (outcome r) as [[v|]|e]; eauto.
  - intros self client text summary_length r. split.
    + destruct (abstractive_cases self client text summary_length)
        as [(Ht & _)|(_ & _ & Hr)]; fold r in Ht || fold r in Hr.
      * rewrite Ht. apply Nat.le_0_l.
      * rewrite Hr, trace_count_failure.
        apply (text_attempts_bound self text
                 (AbstractiveSummaryAction summary_length)
                 (fun j => abstractive_pass self text (client j))).
    + destruct (outcome r) as [[v|]|e]; eauto.
  - intros fuel self svc items aspects r.
    destruct (conversation_cases fuel self svc items aspects)
      as [(Ht & _)|(json & Hr)]; fold r in Ht || fold r in Hr.
    + rewrite Ht. apply Nat.le_0_l.
    + rewrite Hr, trace_count_conversation_failure.
      apply conversation_attempts_bound.
  - intros self svc items aspects bound fuel Hall Hle.
    unfold conversation_summarization.
    destruct (truthy items); cbn [negb];
      [|split; [reflexivity|]; unfold count_conversation_failure; simpl;
        destruct (total_chars items); discriminate].
    destruct (conversation_items_from 0 items) as [l|e];
      [|split; [reflexivity|]; unfold count_conversation_failure; simpl;
        destruct (total_chars items); discriminate].
    match goal with
    | |- context [conversation_loop fuel self svc items ?u ?j _] =>
        destruct (@conversation_loop_settles self svc items u j bound fuel
                    Hall Hle) as [Heq Hne]
    end.
    rewrite Heq. split; [reflexivity|].
    rewrite outcome_count_conversation_failure. exact Hne.
  - intros endpoint api_key env_endpoint env_key self H.
    apply (init_configuration _ _ _ _ H).
Qed.

(** C2, witness: a job that succeeds at the second status request. *)
Lemma attempts_bounded_witness :
  conversation_summarization 7 Scenario.summarizer Scenario.prompt_service
    Scenario.chat None
  = conversation_summarization 2 Scenario.summarizer Scenario.prompt_service
      Scenario.chat None /\
  outcome (conversation_summarization 2 Scenario.summarizer
             Scenario.prompt_service Scenario.chat None) <> None.
Proof.
  apply (proj1 (proj2 (proj2 (proj2 attempts_bounded))) Scenario.summarizer
           Scenario.prompt_service Scenario.chat None 2%nat 7%nat).
  - intros k _. exists 1%nat. split; [lia | reflexivity].
  - lia.
Defined.

(** C2, counterexample: with a service that accepts the job and reports
    it as running for ever, [conversation_summarization] never ends,
    however many status requests it is given, and ten status requests
    are made where ten are allowed. *)
Lemma polling_never_ends :
  ~ (exists fuel,
       outcome (conversation_summarization fuel Scenario.summarizer
                  Scenario.busy Scenario.chat None) <> None)
  /\
  status_requests
    (trace (conversation_summarization 10 Scenario.summarizer Scenario.busy
              Scenario.chat None)) = 10%nat.
Proof.
  split.
  - intros (fuel & H). apply H. apply (busy_conversation fuel).
  - apply (busy_conversation 10).
Qed.

(** *** Batches *)

Lemma same_configuration_refl a : same_configuration a a.
Proof. unfold same_configuration. auto. Qed.

Lemma same_configuration_trans a b c :
  same_configuration a b -> same_configuration b c ->
  same_configuration a c.
Proof.
  unfold same_configuration.
  intros (H1 & H2 & H3) (H4 & H5 & H6). repeat split; congruence.
Qed.

Lemma update_stats_configuration a n success :
  same_configuration a (update_stats a n success).
Proof. unfold same_configuration. simpl. auto. Qed.

Lemma extractive_loop_configuration a b client text action attempts :
  same_configuration a b ->
  same_run (extractive_loop a client text action attempts)
    (extractive_loop b client text action attempts).
Proof.
  intros Hab. pose proof Hab as (Hm & Hr & Hl).
  induction attempts as [|k rest (Ho & Ht & Hs)]; simpl.
  { split; [|split]; auto. }
  unfold extractive_pass.
  destruct (client k) as [e|result].
  - destruct e; try (destruct (is_429 status_code));
      rewrite <- ?Hm, <- ?Hr, <- ?Hl;
      try (destruct (Z.of_nat k =? Z.of_nat (max_retries a) - 1));
      unfold same_run; simpl; rewrite ?Ho, ?Ht; (split; [|split]); auto.
  - destruct (first_doc result) as [[m|ss]|].
    + rewrite <- ?Hm, <- ?Hr.
      destruct (Z.of_nat k =? Z.of_nat (max_retries a) - 1);
        unfold same_run; simpl; rewrite ?Ho, ?Ht; (split; [|split]); auto.
    + unfold same_run. simpl. split; [|split]; auto;
        destruct Hab as (H1 & H2 & H3); unfold same_configuration; simpl;
        auto.
    + unfold same_run. simpl. split; [|split]; auto;
        destruct Hab as (H1 & H2 & H3); unfold same_configuration; simpl;
        auto.
Qed.

Lemma abstractive_loop_configuration a b client text action attempts :
  same_configuration a b ->
  same_run (abstractive_loop a client text action attempts)
    (abstractive_loop b client text action attempts).
Proof.
  intros Hab. pose proof Hab as (Hm & Hr & Hl).
  induction attempts as [|k rest (Ho & Ht & Hs)]; simpl.
  { split; [|split]; auto. }
  unfold abstractive_pass.
  destruct (client k) as [e|result].
  - destruct e; try (destruct (is_429 status_code));
      rewrite <- ?Hm, <- ?Hr, <- ?Hl;
      try (destruct (Z.of_nat k =? Z.of_nat (max_retries a) - 1));
      unfold same_run; simpl; rewrite ?Ho, ?Ht; (split; [|split]); auto.
  - destruct (first_doc result) as [[m|ss]|].
    + rewrite <- ?Hm, <- ?Hr.
      destruct (Z.of_nat k =? Z.of_nat (max_retries a) - 1);
        unfold same_run; simpl; rewrite ?Ho, ?Ht; (split; [|split]); auto.
    + unfold same_run. simpl. split; [|split]; auto;
        destruct Hab as (H1 & H2 & H3); unfold same_configuration; simpl;
        auto.
    + unfold same_run. simpl. split; [|split]; auto;
        destruct Hab as (H1 & H2 & H3); unfold same_configuration; simpl;
        auto.
Qed.

Lemma count_failure_configuration (A : Type) n (r r' : Run (completion A)) :
  same_run r r' -> same_run (count_failure n r) (count_failure n r').
Proof.
  unfold same_run, count_failure. intros (Ho & Ht & Hs).
  rewrite <- Ho. destruct (outcome r) eqn:E; simpl.
  - rewrite E. auto.
  - split; [reflexivity|]. split; [exact Ht|].
    destruct Hs as (H1 & H2 & H3). unfold same_configuration. simpl. auto.
Qed.

Lemma raise_now_configuration (A : Type) a b e :
  same_configuration a b ->
  same_run (@raise_now A a e) (@raise_now A b e).
Proof. unfold same_run. simpl. auto. Qed.

Lemma process_document_configuration a b client ty kwargs i doc :
  same_configuration a b ->
  same_run (process_document a client ty kwargs i doc)
    (process_document b client ty kwargs i doc).
Proof.
  intros Hab.
  assert (H : forall r r' : Run (completion (option SummaryResult)),
             same_run r r' ->
             same_run
               {| outcome := match outcome r with
                             | Returned value => value
                             | Raised _ => None
                             end;
                  trace := trace r; self_after := self_after r |}
               {| outcome := match outcome r' with
                             | Returned value => value
                             | Raised _ => None
                             end;
                  trace := trace r'; self_after := self_after r' |}).
  { intros r r' (Ho & Ht & Hs). unfold same_run. simpl. rewrite Ho.
    auto. }
  unfold process_document. apply H.
  pose proof Hab as (Hm & _).
  destruct (str_eqb ty (lit "extractive")).
  - unfold call_extractive.
    destruct (kw_summary_length kwargs), (kw_other kwargs);
      try (apply raise_now_configuration; exact Hab).
    unfold extractive_summarization. apply count_failure_configuration.
    destruct (text_is_empty doc);
      [apply raise_now_configuration; exact Hab|].
    destruct (negb _); [apply raise_now_configuration; exact Hab|].
    rewrite <- Hm. apply extractive_loop_configuration. exact Hab.
  - unfold call_abstractive.
    destruct (kw_sentence_count kwargs), (kw_sort_by kwargs),
      (kw_other kwargs);
      try (apply raise_now_configuration; exact Hab).
    unfold abstractive_summarization. apply count_failure_configuration.
    destruct (text_is_empty doc);
      [apply raise_now_configuration; exact Hab|].
    destruct (negb _); [apply raise_now_configuration; exact Hab|].
    rewrite <- Hm. apply abstractive_loop_configuration. exact Hab.
Qed.

(** A run leaves the configuration as it found it. *)
Lemma process_document_keeps_configuration a client ty kwargs i doc :
  same_configuration a
    (self_after (process_document a client ty kwargs i doc)).
Proof.
  assert (Hloop_e : forall client text action attempts,
             same_configuration a
               (self_after (extractive_loop a client text action attempts))).
  { intros c text action attempts.
    induction attempts as [|k rest IH]; simpl;
      [apply same_configuration_refl|].
    unfold extractive_pass.
    destruct (c k) as [e|result];
      [|destruct (first_doc result) as [[m|ss]|]];
      try destruct e; break_ifs; simpl;
      auto using same_configuration_refl, update_stats_configuration. }
  assert (Hloop_a : forall client text action attempts,
             same_configuration a
               (self_after (abstractive_loop a client text action attempts))).
  { intros c text action attempts.
    induction attempts as [|k rest IH]; simpl;
      [apply same_configuration_refl|].
    unfold abstractive_pass.
    destruct (c k) as [e|result];
      [|destruct (first_doc result) as [[m|ss]|]];
      try destruct e; break_ifs; simpl;
      auto using same_configuration_refl, update_stats_configuration. }
  assert (Hcf : forall n (r : Run (completion (option SummaryResult))),
             same_configuration a (self_after r) ->
             same_configuration a (self_after (count_failure n r))).
  { intros n r H. unfold count_failure. destruct (outcome r); simpl; auto. }
  unfold process_document. simpl.
  destruct (str_eqb ty (lit "extractive")).
  - unfold call_extractive.
    destruct (kw_summary_length kwargs), (kw_other kwargs);
      try apply same_configuration_refl.
    unfold extractive_summarization. apply Hcf.
    break_ifs; simpl; auto using same_configuration_refl.
  - unfold call_abstractive.
    destruct (kw_sentence_count kwargs), (kw_sort_by kwargs),
      (kw_other kwargs); try apply same_configuration_refl.
    unfold abstractive_summarization. apply Hcf.
    break_ifs; simpl; auto using same_configuration_refl.
Qed.

Lemma gather_outcome a client ty kwargs documents : forall i b,
  same_configuration a b ->
  batch_outcome (gather b client ty kwargs i documents)
  = List.map
      (fun p => Returned
                  (outcome (process_document a client ty kwargs
                              (fst p) (snd p))))
      (combine (seq i (List.length documents)) documents).
Proof.
  induction documents as [|doc rest IH]; intros i b Hab; [reflexivity|].
  simpl. f_equal.
  - f_equal. symmetry.
    apply (process_document_configuration client ty kwargs i doc Hab).
  - apply IH. eapply same_configuration_trans; [exact Hab|].
    apply process_document_keeps_configuration.
Qed.

Lemma successful_results_map (A : Type) (f : A -> option SummaryResult)
  (l : list A) :
  successful_results (List.map (fun p => Returned (f p)) l)
  = flat_map (fun p => match f p with
                       | Some value => [value]
                       | None => []
                       end) l /\
  (List.length (successful_results (List.map (fun p => Returned (f p)) l))
   <= List.length l)%nat.
Proof.
  induction l as [|p l (IH & Hlen)]; simpl; [auto|].
  destruct (f p); simpl; rewrite IH; split; try reflexivity;
    rewrite <- IH; lia.
Qed.

(** The documents of a batch with their positions. *)
Lemma in_enumerated (A : Type) (l : list A) : forall k i (x : A),
  In (i, x) (combine (seq k (List.length l)) l) ->
  (k <= i)%nat /\ nth_error l (i - k) = Some x.
Proof.
  induction l as [|d rest IH]; intros k i x H; simpl in H; [contradiction|].
  destruct H as [H|H].
  - injection H as <- <-. rewrite Nat.sub_diag. split; [lia | reflexivity].
  - destruct (IH (S k) i x H) as [Hk Hn]. split; [lia|].
    replace (i - k)%nat with (S (i - S k)) by lia. exact Hn.
Qed.

(** C7.  For every list of documents, [batch_summarization] skips the
    documents whose processing fails.  It returns exactly the
    [SummaryResult] values that the calls of [extractive_summarization]
    or [abstractive_summarization] for the documents returned, in
    document order: a document whose call raised, or returned [None],
    contributes nothing.  So every element of the returned list is the
    [SummaryResult] of one of the documents, and the list is no longer
    than [documents]. *)
Theorem batch_keeps_successes :
  forall self client documents summarization_type kwargs,
    let r :=
      batch_summarization self client documents summarization_type kwargs in
    let call (p : nat * str) : completion (option SummaryResult) :=
      outcome
        (if str_eqb summarization_type (lit "extractive") then
           call_extractive self (extract_replies client (fst p)) (snd p)
             kwargs
         else
           call_abstractive self (abstract_replies client (fst p)) (snd p)
             kwargs) in
    batch_outcome r
    = flat_map (fun p => match call p with
                         | Returned (Some value) => [value]
                         | Returned None => []
                         | Raised _ => []
                         end)
        (combine (seq 0 (List.length documents)) documents) /\
    (forall value,
       In value (batch_outcome r) ->
       exists i doc,
         nth_error documents i = Some doc /\
         call (i, doc) = Returned (Some value)) /\
    (List.length (batch_outcome r) <= List.length documents)%nat.
Proof.
  intros self client documents ty kwargs r call. subst r.
  unfold batch_summarization. cbn [batch_outcome].
  rewrite (@gather_outcome self client ty kwargs documents 0 self
             (same_configuration_refl self)).
  set (result := fun p : nat * str =>
         outcome (process_document self client ty kwargs (fst p) (snd p))).
  destruct (successful_results_map result
              (combine (seq 0 (List.length documents)) documents))
    as [Heq Hlen].
  rewrite length_combine, length_seq, Nat.min_id in Hlen.
  assert (Hres : forall p,
             match result p with
             | Some value => [value]
             | None => []
             end
             = match call p with
               | Returned (Some value) => [value]
               | Returned None => []
               | Raised _ => []
               end).
  { intros p. subst result call. unfold process_document.
    cbn [outcome].
    destruct (str_eqb ty (lit "extractive"));
      match goal with
      | |- context [outcome ?x] => destruct (outcome x) as [[v|]|e]
      end; reflexivity. }
  assert (Hflat : successful_results
                    (List.map (fun p => Returned (result p))
                       (combine (seq 0 (List.length documents)) documents))
                  = flat_map (fun p => match call p with
                                       | Returned (Some value) => [value]
                                       | Returned None => []
                                       | Raised _ => []
                                       end)
                      (combine (seq 0 (List.length documents)) documents)).
  { rewrite Heq. apply flat_map_ext. exact Hres. }
  split; [exact Hflat|]. split; [|exact Hlen].
  intros value Hin'.
  assert (Hin : In value
                  (flat_map (fun p => match call p with
                                      | Returned (Some value) => [value]
                                      | Returned None => []
                                      | Raised _ => []
                                      end)
                     (combine (seq 0 (List.length documents)) documents))).
  { rewrite <- Hflat. exact Hin'. }
  clear Hin'.
  apply in_flat_map in Hin. destruct Hin as ([i doc] & Hp & Hv).
  exists i, doc. split.
  - rewrite <- (Nat.sub_0_r i). exact (proj2 (@in_enumerated _ documents 0%nat i doc Hp)).
  - destruct (call (i, doc)) as [[v|]|e]; simpl in Hv;
      [destruct Hv as [->|[]]; reflexivity | contradiction | contradiction].
Qed.

(** C7, witness: a batch of three, extractive; the first document is
    summarized at the second attempt, the second is blank and refused,
    the key is refused for the third.  One result comes back. *)
Lemma batch_keeps_successes_witness :
  List.length
    (batch_outcome
       (batch_summarization Scenario.summarizer Scenario.mixed_batch
          Scenario.three_documents (lit "extractive") Scenario.no_kwargs))
  = 1%nat /\
  forall value,
    In value
      (batch_outcome
         (batch_summarization Scenario.summarizer Scenario.mixed_batch
            Scenario.three_documents (lit "extractive")
            Scenario.no_kwargs)) ->
    exists i doc,
      nth_error Scenario.three_documents i = Some doc /\
      outcome
        (if str_eqb (lit "extractive") (lit "extractive") then
           call_extractive Scenario.summarizer
             (extract_replies Scenario.mixed_batch (fst (i, doc)))
             (snd (i, doc)) Scenario.no_kwargs
         else
           call_abstractive Scenario.summarizer
             (abstract_replies Scenario.mixed_batch (fst (i, doc)))
             (snd (i, doc)) Scenario.no_kwargs)
      = Returned (Some value).
Proof.
  split; [reflexivity|].
  exact (proj1 (proj2 (batch_keeps_successes Scenario.summarizer
                         Scenario.mixed_batch Scenario.three_documents
                         (lit "extractive") Scenario.no_kwargs))).
Defined.

End SummarizerSpec.

(* ===================================================================== *)
(** ** Properties of the batch semaphore                                   *)
(* ===================================================================== *)

Module BatchSpec.

Import Summarizer Batch.

Local Unset Implicit Arguments.

(** A task of the batch is either not started, or inside the block with
    some of its call done, or finished. *)
Definition task_ok (call : list Event) (task : Task) : Prop :=
  (holds_permit task = false /\
   (todo task = process_document_ops call \/ todo task = []))
  \/
  (holds_permit task = true /\
   exists done rest,
     call = done ++ rest /\ todo task = List.map Perform rest ++ [Leave]).

Lemma nth_error_set_task (l : list Task) : forall i t,
  (i < List.length l)%nat -> nth_error (set_task i t l) i = Some t.
Proof.
  induction l as [|t' l IH]; intros [|i] t H; simpl in *; try lia;
    [reflexivity | apply IH; lia].
Qed.

Lemma tasks_ok_set_task (calls : list (list Event)) : forall l i call t,
  Forall2 task_ok calls l ->
  nth_error calls i = Some call ->
  task_ok call t ->
  Forall2 task_ok calls (set_task i t l).
Proof.
  induction calls as [|c calls IH]; intros l i call t Hall Hc Hok;
    inversion Hall; subst; destruct i as [|i]; simpl in *;
    try discriminate.
  - injection Hc as ->. constructor; assumption.
  - constructor; [assumption|]. eapply IH; eassumption.
Qed.

Lemma tasks_ok_nth (calls : list (list Event)) : forall l i task,
  Forall2 task_ok calls l ->
  nth_error l i = Some task ->
  exists call, nth_error calls i = Some call /\ task_ok call task.
Proof.
  induction calls as [|c calls IH]; intros l i task Hall Hn;
    inversion Hall; subst; destruct i as [|i]; simpl in *;
    try discriminate.
  - injection Hn as <-. eauto.
  - eapply IH; eassumption.
Qed.

(** Replacing a task changes the count of the tasks inside by what the
    two tasks differ in. *)
Lemma in_flight_set_task (l : list Task) : forall i t t',
  nth_error l i = Some t ->
  (List.length (filter holds_permit (set_task i t' l))
   + (if holds_permit t then 1 else 0)
   = List.length (filter holds_permit l)
     + (if holds_permit t' then 1 else 0))%nat.
Proof.
  induction l as [|t0 l IH]; intros [|i] t t' H; simpl in *;
    try discriminate.
  - injection H as ->. destruct (holds_permit t), (holds_permit t');
      simpl; lia.
  - specialize (IH i t t' H). destruct (holds_permit t0); simpl; lia.
Qed.

(** The permits not in the semaphore are held by the tasks inside, and
    every task is where [task_ok] says. *)
Definition invariant (calls : list (list Event)) (st : State) : Prop :=
  (in_flight st + value st = 5)%nat /\ Forall2 task_ok calls (tasks st).

Lemma invariant_start (calls : list (list Event)) :
  invariant calls (start calls).
Proof.
  unfold invariant, start, in_flight. cbn [value tasks]. split.
  - induction calls as [|c calls IH]; simpl; [reflexivity | exact IH].
  - induction calls as [|c calls IH]; simpl; constructor; [|exact IH].
    left. simpl. auto.
Qed.

Lemma invariant_step (calls : list (list Event)) st i st' :
  invariant calls st -> step st i = Some st' -> invariant calls st'.
Proof.
  intros [Hsum Hall] Hstep. unfold step in Hstep.
  destruct (nth_error (tasks st) i) as [task|] eqn:Hn; [|discriminate].
  destruct (tasks_ok_nth _ _ _ _ Hall Hn) as (call & Hc & Hok).
  unfold invariant, in_flight in *.
  destruct (todo task) as [|op rest] eqn:Htodo; [discriminate|].
  destruct op as [|e|].
  - destruct (value st) as [|n] eqn:Hv; [discriminate|].
    injection Hstep as <-. cbn [value tasks].
    destruct Hok as [(Hh & [Hp|Hp])|(Hh & done & r & Hcall & Hp)];
      rewrite Htodo in Hp; try discriminate.
    + injection Hp as ->. split.
      * pose proof (in_flight_set_task _ i task
                      {| holds_permit := true;
                         todo := List.map Perform call ++ [Leave] |} Hn)
          as H.
        rewrite Hh in H. cbn [holds_permit] in H. lia.
      * eapply tasks_ok_set_task; [exact Hall | exact Hc |].
        right. split; [reflexivity|]. exists [], call. auto.
    + destruct r; discriminate.
  - injection Hstep as <-. cbn [value tasks].
    destruct Hok as [(Hh & [Hp|Hp])|(Hh & done & r & Hcall & Hp)];
      rewrite Htodo in Hp; try discriminate.
    destruct r as [|e' r]; [discriminate|].
    cbn [List.map app] in Hp. injection Hp as -> ->. split.
    + pose proof (in_flight_set_task _ i task
                    {| holds_permit := holds_permit task;
                       todo := List.map Perform r ++ [Leave] |} Hn) as H.
      cbn [holds_permit] in H. lia.
    + eapply tasks_ok_set_task; [exact Hall | exact Hc |].
      right. split; [exact Hh|]. exists (done ++ [e']), r.
      rewrite <- app_assoc. auto.
  - injection Hstep as <-. cbn [value tasks].
    destruct Hok as [(Hh & [Hp|Hp])|(Hh & done & r & Hcall & Hp)];
      rewrite Htodo in Hp; try discriminate.
    destruct r as [|e' r]; [|discriminate].
    cbn [List.map app] in Hp. injection Hp as ->. split.
    + pose proof (in_flight_set_task _ i task
                    {| holds_permit := false; todo := [] |} Hn) as H.
      rewrite Hh in H. cbn [holds_permit] in H. lia.
    + eapply tasks_ok_set_task; [exact Hall | exact Hc |].
      left. simpl. auto.
Qed.

Lemma invariant_run (calls : list (list Event)) schedule : forall st st',
  invariant calls st -> run st schedule = Some st' -> invariant calls st'.
Proof.
  induction schedule as [|i rest IH]; intros st st' Hinv Hrun; simpl in Hrun.
  - injection Hrun as <-. exact Hinv.
  - destruct (step st i) as [st1|] eqn:Hstep; [|discriminate].
    apply (IH st1 st'); [|exact Hrun].
    exact (invariant_step _ _ _ _ Hinv Hstep).
Qed.

(** A task in its call holds a permit. *)
Lemma in_call_holds (call : list Event) (task : Task) :
  task_ok call task -> in_call task = true -> holds_permit task = true.
Proof.
  unfold in_call.
  intros [(Hh & [Hp|Hp])|(Hh & done & rest & Hcall & Hp)]; rewrite Hp;
    try discriminate.
  intros _. exact Hh.
Qed.

(** The tasks in their call are among the tasks inside. *)
Lemma calling_in_flight (calls : list (list Event)) : forall l,
  Forall2 task_ok calls l ->
  (List.length (filter in_call l) <= List.length (filter holds_permit l))%nat.
Proof.
  induction calls as [|c calls IH]; intros l Hall; inversion Hall as
    [|c' y calls' l' Hok Hrest]; subst; [simpl; lia|].
  specialize (IH _ Hrest). pose proof (in_call_holds _ _ Hok) as Hy.
  cbn [filter].
  destruct (in_call y); [rewrite (Hy eq_refl)|destruct (holds_permit y)];
    simpl; lia.
Qed.

(** Line 423: one task per document. *)
Lemma one_task_per_document client ty kwargs documents : forall self i,
  List.length (task_traces (gather self client ty kwargs i documents))
  = List.length documents.
Proof.
  induction documents as [|doc rest IH]; intros self i; simpl;
    [reflexivity | rewrite IH; reflexivity].
Qed.

(** C8.  During [batch_summarization] at most 5 document requests are
    in flight at the same time.  However the event loop interleaves
    the tasks of a batch, the tasks inside [async with semaphore] and
    the value of the semaphore add up to 5, so at most 5 tasks are in
    their summarization call; and every request and every sleep of the
    call of [extractive_summarization] or [abstractive_summarization]
    for a document is made by a task that holds one of the 5 permits:
    what a task has done and has still to do is always [acquire], the
    events of its call, [release]. *)
Theorem semaphore_bound :
  forall self client documents summarization_type kwargs schedule st,
    let r :=
      batch_summarization self client documents summarization_type kwargs in
    run (start_batch r) schedule = Some st ->
    (calling st <= in_flight st <= 5)%nat /\
    (in_flight st + value st = 5)%nat /\
    List.length (tasks st) = List.length documents /\
    forall i task,
      nth_error (tasks st) i = Some task ->
      (in_call task = true -> holds_permit task = true) /\
      exists done,
        done ++ todo task
        = process_document_ops (nth i (task_traces r) []).
Proof.
  intros self client documents ty kwargs schedule st r Hrun.
  pose proof (invariant_run _ schedule _ _
                (invariant_start (task_traces r)) Hrun)
    as [Hsum Hall].
  split.
  { pose proof (calling_in_flight _ _ Hall). unfold calling, in_flight in *.
    lia. }
  split; [exact Hsum|]. split.
  { rewrite <- (Forall2_length Hall). subst r.
    unfold batch_summarization. cbn [task_traces].
    apply one_task_per_document. }
  intros i task Hn.
  destruct (tasks_ok_nth _ _ _ _ Hall Hn) as (call & Hc & Hok).
  rewrite (nth_error_nth _ _ [] Hc).
  destruct Hok as [(Hh & [Hp|Hp])|(Hh & done & rest & Hcall & Hp)].
  - split; [apply (in_call_holds call); left; auto|].
    exists []. rewrite Hp. reflexivity.
  - split; [apply (in_call_holds call); left; auto|].
    exists (process_document_ops call). rewrite Hp. apply app_nil_r.
  - split; [intros _; exact Hh|].
    exists (Enter :: List.map Perform done). rewrite Hp, Hcall.
    unfold process_document_ops. rewrite List.map_app, <- !app_assoc.
    reflexivity.
Qed.

(** C8, witness: six documents; five tasks have entered the semaphore,
    the first is in its call, and the sixth has to wait. *)
Lemma semaphore_bound_witness :
  step Scenario.five_in_flight 5 = None /\
  in_flight Scenario.five_in_flight = 5%nat /\
  calling Scenario.five_in_flight = 5%nat /\
  ((calling Scenario.five_in_flight
    <= in_flight Scenario.five_in_flight <= 5)%nat /\
   (in_flight Scenario.five_in_flight + value Scenario.five_in_flight
    = 5)%nat /\
   List.length (tasks Scenario.five_in_flight)
   = List.length Scenario.six_documents /\
   forall i task,
     nth_error (tasks Scenario.five_in_flight) i = Some task ->
     (in_call task = true -> holds_permit task = true) /\
     exists done,
       done ++ todo task
       = process_document_ops
           (nth i
              (task_traces
                 (batch_summarization Scenario.summarizer
                    Scenario.throttled_batch Scenario.six_documents
                    (lit "extractive") Scenario.no_kwargs))
              [])).
Proof.
  split; [reflexivity|]. split; [reflexivity|]. split; [reflexivity|].
  apply (semaphore_bound Scenario.summarizer Scenario.throttled_batch
           Scenario.six_documents (lit "extractive") Scenario.no_kwargs
           Scenario.five_enter Scenario.five_in_flight).
  reflexivity.
Defined.

End BatchSpec.

(* ===================================================================== *)
(** ** Properties of [ConversationManager]                                 *)
(* ===================================================================== *)

Module ChatSpec.

Import Chat PyFacts.

Local Open Scope Z_scope.

(** With a positive [max_history], every call keeps the first message
    in place and the history within [max_history + 1] messages, and does
    not raise. *)
Lemma call_keeps_bound (self : ConversationManager) (c : Call)
  (first : Message) (rest : list Message) :
  1 <= max_history self ->
  messages self = first :: rest ->
  len (messages self) <= max_history self + 1 ->
  exists self' rest',
    call self c = Returned self' /\
    messages self' = first :: rest' /\
    len (messages self') <= max_history self' + 1 /\
    max_history self' = max_history self.
Proof.
  intros Hpos Hm Hlen.
  assert (H : forall m,
             exists self' rest',
               trim_history (append self m) = Returned self' /\
               messages self' = first :: rest' /\
               len (messages self') <= max_history self' + 1 /\
               max_history self' = max_history self).
  { intros m. unfold trim_history, append. cbn [messages max_history].
    rewrite Hm in *. cbn [app].
    destruct (Z.gtb_spec (len (first :: rest ++ [m])) (max_history self + 1))
      as [Hgt|Hle].
    - eexists. eexists. split; [reflexivity|].
      cbn [messages max_history app]. split; [reflexivity|].
      split; [|reflexivity].
      unfold slice_from, clamp, len in *.
      cbn [List.length] in *. rewrite length_app in *.
      cbn [List.length] in *.
      destruct (Z.ltb_spec (- max_history self) 0); [|lia].
      rewrite length_skipn. cbn [List.length]. rewrite length_app.
      cbn [List.length]. lia.
    - eexists. eexists. split; [reflexivity|].
      cbn [messages max_history]. split; [reflexivity|].
      split; [exact Hle | reflexivity]. }
  destruct c; simpl; apply H.
Qed.

Lemma calls_keep_bound (cs : list Call) : forall self first rest,
  1 <= max_history self ->
  messages self = first :: rest ->
  len (messages self) <= max_history self + 1 ->
  exists self' rest',
    calls self cs = Returned self' /\
    messages self' = first :: rest' /\
    len (messages self') <= max_history self' + 1.
Proof.
  induction cs as [|c cs IH]; intros self first rest Hpos Hm Hlen; simpl.
  - eauto.
  - destruct (@call_keeps_bound self c first rest Hpos Hm Hlen)
      as (self' & rest' & -> & Hm' & Hlen' & Hmh).
    apply (IH self' first rest'); [lia | exact Hm' | exact Hlen'].
Qed.

(** With a positive [max_history] the history of a new manager stays
    bounded and keeps the system message first, whatever messages are
    added. *)
Lemma history_bounded (system_prompt : str) (max_history : Z)
  (cs : list Call) :
  1 <= max_history ->
  exists self' rest',
    calls (init system_prompt max_history) cs = Returned self' /\
    messages self'
    = {| role := lit "system"; content := system_prompt |} :: rest' /\
    len (messages self') <= max_history + 1.
Proof.
  intros Hpos.
  destruct (@calls_keep_bound cs (init system_prompt max_history)
              {| role := lit "system"; content := system_prompt |} [])
    as (self' & rest' & Hc & Hm & Hlen).
  - exact Hpos.
  - reflexivity.
  - unfold init, len. simpl. lia.
  - exists self', rest'. split; [exact Hc|]. split; [exact Hm|].
    assert (Hmh : forall cs self self',
               calls self cs = Returned self' ->
               Chat.max_history self' = Chat.max_history self).
    { clear. induction cs as [|c cs IH]; intros self self' H; simpl in H.
      - injection H as <-. reflexivity.
      - destruct (call self c) as [s1|e] eqn:E; [|discriminate].
        rewrite (IH _ _ H).
        destruct c; simpl in E; unfold add_user_message,
          add_assistant_message, trim_history, append in E;
          cbn [messages Chat.max_history] in E;
          destruct (_ >? _) in E;
          try (destruct (Chat.messages self ++ _) in E; [discriminate|]);
          injection E as <-; reflexivity. }
    rewrite (Hmh _ _ _ Hc) in Hlen. exact Hlen.
Qed.

(** With a positive [max_history], a history that has grown past the
    bound is cut to its first message and its last [max_history]
    messages. *)
Lemma trim_history_keeps_recent (self : ConversationManager)
  (first : Message) (rest : list Message) :
  1 <= max_history self ->
  messages self = first :: rest ->
  len (messages self) > max_history self + 1 ->
  exists self',
    trim_history self = Returned self' /\
    messages self'
    = first :: skipn (List.length (messages self)
                      - Z.to_nat (max_history self)) (messages self) /\
    len (messages self') = max_history self + 1.
Proof.
  intros Hpos Hm Hlen. unfold trim_history.
  destruct (Z.gtb_spec (len (messages self)) (max_history self + 1));
    [|lia].
  rewrite Hm. eexists. split; [reflexivity|]. cbn [messages app].
  unfold slice_from, clamp. rewrite <- Hm.
  destruct (Z.ltb_spec (- max_history self) 0); [|lia].
  unfold len in *.
  replace (Z.to_nat (Z.max 0 (- max_history self
                              + Z.of_nat (List.length (messages self)))))
    with (List.length (messages self) - Z.to_nat (max_history self))%nat
    by lia.
  split; [reflexivity|].
  cbn [List.length]. rewrite length_skipn. lia.
Qed.

(** C9, at [max_history = 0]: after one user message the manager holds
    the system message twice and the user message, three messages where
    the bound is one; [messages[-0:]] is the whole list. *)
Theorem history_unbounded_at_zero :
  calls (init (lit "You are helpful.") 0) [AddUser (lit "hi")]
  = Returned
      {| messages :=
           [Scenario.system_message; Scenario.system_message;
            {| role := lit "user"; content := lit "hi" |}];
         max_history := 0;
         total_tokens := 0 |} /\
  len [Scenario.system_message; Scenario.system_message;
       {| role := lit "user"; content := lit "hi" |}] > 0 + 1.
Proof. split; reflexivity. Qed.

End ChatSpec.

(* ===================================================================== *)
(** ** Properties of [analyze_text]                                        *)
(* ===================================================================== *)

Module FirstProjectSpec.

Import FirstProject PyFacts.

Local Open Scope Z_scope.

(** The emptiness test of [analyze_text] holds exactly of the texts that
    are empty or consist only of whitespace. *)
Lemma empty_test_spec (text : str) :
  negb (truthy text) || negb (truthy (strip text)) = only_whitespace text.
Proof.
  destruct (only_whitespace text) eqn:E.
  - apply strip_nil_iff in E. rewrite E. apply orb_true_r.
  - apply orb_false_iff. split.
    + destruct text; [discriminate E | reflexivity].
    + destruct (strip text) eqn:E'; [|reflexivity].
      apply strip_nil_iff in E'. congruence.
Qed.

(** Every request of the analysis is for the one text it is given. *)
Lemma analysis_documents client text op documents :
  In (Call op documents) (analysis client text) -> documents = [text].
Proof.
  assert (Hr : forall e, In (Call op documents) (report e) -> False).
  { intros e. unfold report.
    destruct e; try (destruct status_code as [[|[]|]|]); simpl;
      repeat match goal with
             | |- context [match ?p with _ => _ end] => destruct p
             end; simpl; intuition discriminate. }
  unfold analysis. simpl.
  intros [H|H]; [congruence|].
  destruct (detect_language client [text]); [|elim (Hr _ H)].
  destruct H as [H|[H|H]]; try discriminate; [congruence|].
  destruct (analyze_sentiment client [text]); [|elim (Hr _ H)].
  destruct H as [H|[H|H]]; try discriminate; [congruence|].
  destruct (extract_key_phrases client [text]); [|elim (Hr _ H)].
  destruct (truthy value1); simpl in H; intuition discriminate.
Qed.

(** C10.  In [analyze_text], an empty or whitespace-only text does not
    raise: the function prints a warning and returns [None] without any
    call of the service.  For every text longer than 5000 characters
    that is analysed, the text sent to the service is exactly its first
    5000 characters. *)
Theorem analyze_text_input_handling :
  (forall client text,
     only_whitespace text = true ->
     analyze_text client text = (Returned tt, [Print WarnEmpty]))
  /\
  (forall client text,
     len text > 5000 ->
     only_whitespace text = false ->
     let analysed := firstn 5000 text in
     len analysed = 5000 /\
     fst (analyze_text client text) = Returned tt /\
     In (Call DetectLanguage [analysed]) (snd (analyze_text client text)) /\
     forall op documents,
       In (Call op documents) (snd (analyze_text client text)) ->
       documents = [analysed]).
Proof.
  split.
  - intros client text H. unfold analyze_text.
    rewrite empty_test_spec, H. reflexivity.
  - intros client text Hlong Hne analysed.
    assert (Hs : slice_to 5000 text = analysed).
    { apply (slice_to_firstn 5000 text). }
    unfold analyze_text. rewrite empty_test_spec, Hne.
    destruct (Z.gtb_spec (len text) 5000) as [_|Hle]; [|lia].
    rewrite Hs. cbn [fst snd].
    split.
    { rewrite <- Hs. apply len_slice_to. lia. }
    split; [reflexivity|]. split.
    + right. right. left. reflexivity.
    + intros op documents [H|[H|H]]; try discriminate.
      apply (@analysis_documents client analysed op documents H).
Qed.

(** C10, witness: a text of four whitespace characters, and a text of
    5001 letters. *)
Lemma analyze_text_input_handling_witness :
  analyze_text Scenario.english [32; 9; 10; 160]%N
  = (Returned tt, [Print WarnEmpty])
  /\
  (len (firstn 5000 Scenario.long_text) = 5000 /\
   fst (analyze_text Scenario.english Scenario.long_text) = Returned tt /\
   In (Call DetectLanguage [firstn 5000 Scenario.long_text])
     (snd (analyze_text Scenario.english Scenario.long_text)) /\
   forall op documents,
     In (Call op documents)
       (snd (analyze_text Scenario.english Scenario.long_text)) ->
     documents = [firstn 5000 Scenario.long_text]).
Proof.
  split.
  - apply (proj1 analyze_text_input_handling Scenario.english
             [32; 9; 10; 160]%N).
    reflexivity.
  - apply (proj2 analyze_text_input_handling Scenario.english
             Scenario.long_text).
    + vm_compute. reflexivity.
    + vm_compute. reflexivity.
Defined.

End FirstProjectSpec.

(* ===================================================================== *)
(** ** Further properties of [AzureTextSummarizer]                         *)
(* ===================================================================== *)

Module SummarizerMore.

Import Summarizer Retry RetryFacts PyFacts Observe.

Local Open Scope Z_scope.

(** How a loop ends: with its attempts used up and the object as it
    was, or at the turn that left it. *)
Lemma retry_end (O : Type) (exhausted : O) self (step : nat -> Step O)
  attempts :
  let r := retry exhausted self step attempts in
  (outcome r = exhausted /\ self_after r = self) \/
  exists k t, In k attempts /\ step k = Stop (outcome r) t (self_after r).
Proof.
  induction attempts as [|k rest IH]; simpl; [left; auto|].
  destruct (step k) as [o t s'|t d] eqn:E; simpl.
  - right. exists k, t. auto.
  - destruct IH as [IH|(j & t' & Hj & Hs)]; [left; exact IH|].
    right. exists j, t'. auto.
Qed.

Lemma str_eqb_spec (a b : str) : str_eqb a b = true <-> a = b.
Proof.
  unfold str_eqb. destruct (list_eq_dec N.eq_dec a b); split;
    congruence.
Qed.

Lemma str_eqb_neq (a b : str) : a <> b -> str_eqb a b = false.
Proof.
  intros H. destruct (str_eqb a b) eqn:E; [|reflexivity].
  apply str_eqb_spec in E. contradiction.
Qed.

(** *** Statistics *)

Lemma text_step_stop self request k p o t s' :
  text_step self request k p = Stop o t s' ->
  (exists v, p = PassReturn v s' /\ o = Returned (Some v)) \/
  (p = PassBreak /\ o = Returned None /\ s' = self) \/
  (exists e, p = PassRaise e /\ o = Raised e /\ s' = self).
Proof.
  unfold text_step. destruct p as [v s1| |e].
  - intros H. injection H as <- <- <-. left. eauto.
  - intros H. injection H as <- <- <-. right. left. auto.
  - intros H. right. right. exists e.
    destruct e; try (destruct (is_429 status_code));
      try (destruct (Z.of_nat k =? Z.of_nat (max_retries self) - 1));
      try discriminate; injection H as <- <- <-; auto.
Qed.

Lemma extractive_pass_return self text reply v s' :
  extractive_pass self text reply = PassReturn v s' ->
  s' = update_stats self (len text) true /\
  exists action_results doc_sentences,
    reply = Result action_results /\
    first_doc action_results = Some (ExtractOk doc_sentences) /\
    v = {| summary_type := lit "extractive";
           summary_text :=
             join (lit " ") (List.map Summarizer.text doc_sentences);
           sentences := Some (List.map Summarizer.text doc_sentences);
           rank_scores := Some (List.map rank_score doc_sentences);
           character_count := len text |}.
Proof.
  unfold extractive_pass. destruct reply as [e|rs]; [discriminate|].
  destruct (first_doc rs) as [[m|ds]|] eqn:E; try discriminate.
  intros H. injection H as <- <-. split; [reflexivity|].
  exists rs, ds. auto.
Qed.

Lemma abstractive_pass_return self text reply v s' :
  abstractive_pass self text reply = PassReturn v s' ->
  s' = update_stats self (len text) true /\
  exists action_results summaries,
    reply = Result action_results /\
    first_doc action_results = Some (AbstractOk summaries) /\
    v = {| summary_type := lit "abstractive";
           summary_text := join (lit " ") summaries;
           sentences := None;
           rank_scores := None;
           character_count := len text |}.
Proof.
  unfold abstractive_pass. destruct reply as [e|rs]; [discriminate|].
  destruct (first_doc rs) as [[m|ds]|] eqn:E; try discriminate.
  intros H. injection H as <- <-. split; [reflexivity|].
  exists rs, ds. auto.
Qed.

(** The loop of a text method leaves the object as it was, unless it
    returns a result, which it counts as a success. *)
Lemma text_loop_accounting self (text : str) request
  (pass : nat -> Pass SummaryResult) attempts :
  (forall k v s', pass k = PassReturn v s' ->
                  s' = update_stats self (len text) true) ->
  let r :=
    retry (Returned None) self
      (fun k => text_step self (request k) k (pass k)) attempts in
  match outcome r with
  | Returned (Some _) => self_after r = update_stats self (len text) true
  | _ => self_after r = self
  end.
Proof.
  intros Hpass r.
  destruct (retry_end (Returned None) self
              (fun k => text_step self (request k) k (pass k)) attempts)
    as [(Ho & Hs)|(k & t & _ & Hstop)]; fold r in Ho, Hs || fold r in Hstop.
  - rewrite Ho. exact Hs.
  - apply text_step_stop in Hstop.
    destruct Hstop as [(v & Hp & ->)|[(_ & -> & ->)|(e & _ & -> & ->)]];
      try reflexivity.
    apply (@Hpass _ _ _ Hp).
Qed.

(** The outer handler on top of that. *)
Lemma count_failure_accounting self n
  (r : Run (completion (option SummaryResult))) :
  match outcome r with
  | Returned (Some _) => self_after r = update_stats self n true
  | _ => self_after r = self
  end ->
  match outcome (count_failure n r) with
  | Returned (Some _) =>
      self_after (count_failure n r) = update_stats self n true
  | Returned None => self_after (count_failure n r) = self
  | Raised _ => self_after (count_failure n r) = update_stats self n false
  end.
Proof.
  unfold count_failure.
  destruct (outcome r) as [[v|]|e] eqn:E; simpl; try rewrite E;
    intros H; try exact H.
  rewrite H. reflexivity.
Qed.

Lemma extractive_accounting self client text sentence_count sort_by :
  let r :=
    extractive_summarization self client text sentence_count sort_by in
  match outcome r with
  | Returned (Some _) => self_after r = update_stats self (len text) true
  | Returned None => self_after r = self
  | Raised _ => self_after r = update_stats self (len text) false
  end.
Proof.
  intros r. subst r. unfold extractive_summarization.
  destruct (text_is_empty text); [reflexivity|].
  destruct (negb (sentence_count_ok sentence_count)); [reflexivity|].
  rewrite extractive_loop_retry.
  apply count_failure_accounting.
  apply (@text_loop_accounting self text
           (fun k => Analyze k [text]
                       [ExtractiveSummaryAction sentence_count sort_by])
           (fun k => extractive_pass self text (client k))
           (range (max_retries self))).
  intros k v s' H. exact (proj1 (@extractive_pass_return _ _ _ _ _ H)).
Qed.

Lemma abstractive_accounting self client text summary_length :
  let r := abstractive_summarization self client text summary_length in
  match outcome r with
  | Returned (Some _) => self_after r = update_stats self (len text) true
  | Returned None => self_after r = self
  | Raised _ => self_after r = update_stats self (len text) false
  end.
Proof.
  intros r. subst r. unfold abstractive_summarization.
  destruct (text_is_empty text); [reflexivity|].
  destruct (negb (summary_length_ok summary_length)); [reflexivity|].
  rewrite abstractive_loop_retry.
  apply count_failure_accounting.
  apply (@text_loop_accounting self text
           (fun k => Analyze k [text]
                       [AbstractiveSummaryAction summary_length])
           (fun k => abstractive_pass self text (client k))
           (range (max_retries self))).
  intros k v s' H. exact (proj1 (@abstractive_pass_return _ _ _ _ _ H)).
Qed.

(** X1.  A call of [extractive_summarization] or
    [abstractive_summarization] that returns a summary counts one
    successful request and [len(text)] characters; a call that raises
    counts one failed request and [len(text)] characters; a call that
    returns [None] counts nothing. *)
Theorem statistics_follow_outcome :
  (forall self client text sentence_count sort_by,
     let r :=
       extractive_summarization self client text sentence_count sort_by in
     match outcome r with
     | Returned (Some _) => self_after r = update_stats self (len text) true
     | Returned None => self_after r = self
     | Raised _ => self_after r = update_stats self (len text) false
     end)
  /\
  (forall self client text summary_length,
     let r := abstractive_summarization self client text summary_length in
     match outcome r with
     | Returned (Some _) => self_after r = update_stats self (len text) true
     | Returned None => self_after r = self
     | Raised _ => self_after r = update_stats self (len text) false
     end).
Proof.
  split.
  - intros. apply extractive_accounting.
  - intros. apply abstractive_accounting.
Qed.

(** *** What a returned summary is *)

(** X2.  A [SummaryResult] that [extractive_summarization] or
    [abstractive_summarization] returns comes from a valid call and
    from the service: the text is not blank, the sentence count (or the
    summary length) is one the method accepts, and one of the attempts
    got a reply whose first document result is not an error; the result
    holds that document's sentences with their scores, in order (or its
    summaries), joined by single spaces, and the length of the text. *)
Theorem returned_summary_origin :
  (forall self client text sentence_count sort_by v,
     outcome (extractive_summarization self client text sentence_count
                sort_by) = Returned (Some v) ->
     only_whitespace text = false /\
     1 <= sentence_count <= 20 /\
     exists k action_results doc_sentences,
       (k < max_retries self)%nat /\
       client k = Result action_results /\
       first_doc action_results = Some (ExtractOk doc_sentences) /\
       v = {| summary_type := lit "extractive";
              summary_text :=
                join (lit " ") (List.map Summarizer.text doc_sentences);
              sentences := Some (List.map Summarizer.text doc_sentences);
              rank_scores := Some (List.map rank_score doc_sentences);
              character_count := len text |})
  /\
  (forall self client text summary_length v,
     outcome (abstractive_summarization self client text summary_length)
     = Returned (Some v) ->
     only_whitespace text = false /\
     In summary_length [lit "short"; lit "medium"; lit "long"] /\
     exists k action_results summaries,
       (k < max_retries self)%nat /\
       client k = Result action_results /\
       first_doc action_results = Some (AbstractOk summaries) /\
       v = {| summary_type := lit "abstractive";
              summary_text := join (lit " ") summaries;
              sentences := None;
              rank_scores := None;
              character_count := len text |}).
Proof.
  split.
  - intros self client text sentence_count sort_by v Ho.
    destruct (SummarizerSpec.extractive_cases self client text
                sentence_count sort_by)
      as [(_ & _ & msg & Ho')|(Htext & Hcount & Hr)];
      [congruence|].
    rewrite SummarizerSpec.text_is_empty_spec in Htext.
    split; [exact Htext|]. split.
    { unfold sentence_count_ok in Hcount.
      apply andb_true_iff in Hcount. destruct Hcount as [H1 H2].
      apply Z.leb_le in H1, H2. lia. }
    rewrite Hr, outcome_count_failure in Ho.
    destruct (retry_end (Returned None) self
                (extractive_step self client text
                   (ExtractiveSummaryAction sentence_count sort_by))
                (range (max_retries self)))
      as [(Ho' & _)|(k & t & Hk & Hstop)]; [congruence|].
    rewrite Ho in Hstop. apply text_step_stop in Hstop.
    destruct Hstop as [(v' & Hp & Hv)|[(_ & H & _)|(e & _ & H & _)]];
      try discriminate.
    injection Hv as <-.
    apply extractive_pass_return in Hp.
    destruct Hp as (_ & rs & ds & Hreply & Hdoc & Hv).
    apply in_seq in Hk. exists k, rs, ds. repeat split; auto. lia.
  - intros self client text summary_length v Ho.
    destruct (SummarizerSpec.abstractive_cases self client text
                summary_length)
      as [(_ & _ & msg & Ho')|(Htext & Hlength & Hr)];
      [congruence|].
    rewrite SummarizerSpec.text_is_empty_spec in Htext.
    split; [exact Htext|]. split.
    { unfold summary_length_ok in Hlength.
      apply existsb_exists in Hlength.
      destruct Hlength as (x & Hin & Hx). apply str_eqb_spec in Hx.
      subst x. exact Hin. }
    rewrite Hr, outcome_count_failure in Ho.
    destruct (retry_end (Returned None) self
                (abstractive_step self client text
                   (AbstractiveSummaryAction summary_length))
                (range (max_retries self)))
      as [(Ho' & _)|(k & t & Hk & Hstop)]; [congruence|].
    rewrite Ho in Hstop. apply text_step_stop in Hstop.
    destruct Hstop as [(v' & Hp & Hv)|[(_ & H & _)|(e & _ & H & _)]];
      try discriminate.
    injection Hv as <-.
    apply abstractive_pass_return in Hp.
    destruct Hp as (_ & rs & ds & Hreply & Hdoc & Hv).
    apply in_seq in Hk. exists k, rs, ds. repeat split; auto. lia.
Qed.

(** X2, witness: a service that answers at the second attempt. *)
Lemma returned_summary_origin_witness :
  (only_whitespace Scenario.article = false /\
   1 <= 3 <= 20 /\
   exists k action_results doc_sentences,
     (k < 3)%nat /\
     Scenario.recovering_extract k = Result action_results /\
     first_doc action_results = Some (ExtractOk doc_sentences) /\
     {| summary_type := lit "extractive";
        summary_text :=
          lit "Azure AI Language condenses long articles. Summaries are short.";
        sentences :=
          Some [lit "Azure AI Language condenses long articles.";
                lit "Summaries are short."];
        rank_scores :=
          Some [QArith_base.Qmake 9 10; QArith_base.Qmake 1 2];
        character_count := 63 |}
     = {| summary_type := lit "extractive";
          summary_text :=
            join (lit " ") (List.map Summarizer.text doc_sentences);
          sentences := Some (List.map Summarizer.text doc_sentences);
          rank_scores := Some (List.map rank_score doc_sentences);
          character_count := len Scenario.article |})
  /\
  (only_whitespace Scenario.article = false /\
   In (lit "short") [lit "short"; lit "medium"; lit "long"] /\
   exists k action_results summaries,
     (k < 3)%nat /\
     Scenario.recovering_abstract k = Result action_results /\
     first_doc action_results = Some (AbstractOk summaries) /\
     {| summary_type := lit "abstractive";
        summary_text := lit "Articles get shorter.";
        sentences := None;
        rank_scores := None;
        character_count := 63 |}
     = {| summary_type := lit "abstractive";
          summary_text := join (lit " ") summaries;
          sentences := None;
          rank_scores := None;
          character_count := len Scenario.article |}).
Proof.
  split.
  - apply (proj1 returned_summary_origin Scenario.summarizer
             Scenario.recovering_extract Scenario.article 3 (lit "Rank")).
    vm_compute. reflexivity.
  - apply (proj2 returned_summary_origin Scenario.summarizer
             Scenario.recovering_abstract Scenario.article (lit "short")).
    vm_compute. reflexivity.
Defined.

(** *** Time asleep *)

Lemma slept_app (t u : list Event) : slept (t ++ u) = slept t + slept u.
Proof.
  induction t as [|e t IH]; simpl; [reflexivity|].
  destruct e; rewrite IH; lia.
Qed.

Lemma pow2_le (i j : nat) : (i <= j)%nat -> 2 ^ Z.of_nat i <= 2 ^ Z.of_nat j.
Proof. intros H. apply Z.pow_le_mono_r; lia. Qed.

(** A loop whose turns do not sleep, and whose handlers sleep at most
    [m * 2^k] seconds after attempt [k], sleeps less than the sum of
    these. *)
Lemma retry_slept (O : Type) (exhausted : O) self (step : nat -> Step O)
  (m : Z) (n : nat) : forall i,
  0 <= m ->
  (forall k, slept (step_events (step k)) = 0) ->
  (forall k t d, step k = Continue t d -> d <= m * 2 ^ Z.of_nat k) ->
  slept (trace (retry exhausted self step (seq i n)))
  <= m * (2 ^ Z.of_nat (i + n) - 2 ^ Z.of_nat i).
Proof.
  induction n as [|n IH]; intros i Hm Hquiet Hbound; simpl.
  - rewrite Nat.add_0_r. lia.
  - pose proof (Hquiet i) as Hq. assert (Hle : 2 ^ Z.of_nat i <= 2 ^ Z.of_nat (i + S n))
      by (apply pow2_le; lia).
    destruct (step i) as [o t s'|t d] eqn:E; simpl in *.
    + rewrite Hq. nia.
    + rewrite slept_app. simpl. rewrite Hq.
      specialize (IH (S i) Hm Hquiet Hbound).
      specialize (@Hbound i t d E).
      replace (S i + n)%nat with (i + S n)%nat in IH by lia.
      assert (H2 : 2 ^ Z.of_nat (S i) = 2 * 2 ^ Z.of_nat i).
      { rewrite Nat2Z.inj_succ. apply Z.pow_succ_r. lia. }
      rewrite H2 in IH. nia.
Qed.


Lemma text_step_delay self request k p t d :
  text_step self request k p = Continue t d ->
  d = rate_limit_delay self * 2 ^ Z.of_nat k \/
  d = retry_delay self * 2 ^ Z.of_nat k.
Proof.
  unfold text_step. destruct p as [v s1| |e]; try discriminate.
  destruct e; try (destruct (is_429 status_code));
    try (destruct (Z.of_nat k =? Z.of_nat (max_retries self) - 1));
    try discriminate; intros H; injection H as <- <-; auto.
Qed.

Lemma text_loop_slept self docs acts (pass : nat -> Pass SummaryResult) :
  0 <= retry_delay self -> 0 <= rate_limit_delay self ->
  slept (trace (retry (Returned None) self
                  (fun k => text_step self (Analyze k docs acts) k (pass k))
                  (range (max_retries self))))
  <= Z.max (retry_delay self) (rate_limit_delay self)
     * (2 ^ Z.of_nat (max_retries self) - 1).
Proof.
  intros Hr Hl.
  pose proof (@retry_slept _ (Returned None) self
                (fun k => text_step self (Analyze k docs acts) k (pass k))
                (Z.max (retry_delay self) (rate_limit_delay self))
                (max_retries self) 0) as H.
  simpl in H. apply H.
  - lia.
  - intros k. rewrite text_step_events. reflexivity.
  - intros k t d Hs. apply text_step_delay in Hs.
    assert (Hp : 0 <= 2 ^ Z.of_nat k) by (apply Z.pow_nonneg; lia).
    destruct Hs as [-> | ->]; apply Z.mul_le_mono_nonneg_r; lia.
Qed.

Lemma slept_count_failure (A : Type) n (r : Run (completion A)) :
  slept (trace (count_failure n r)) = slept (trace r).
Proof. rewrite trace_count_failure. reflexivity. Qed.

(** X3.  With delays that are not negative, a call of
    [extractive_summarization] or [abstractive_summarization] spends at
    most [max(retry_delay, rate_limit_delay) * (2^max_retries - 1)]
    seconds asleep; for an object as [__init__] builds it that is 14
    seconds. *)
Theorem sleep_is_bounded :
  (forall self client text sentence_count sort_by,
     0 <= retry_delay self -> 0 <= rate_limit_delay self ->
     slept (trace (extractive_summarization self client text
                     sentence_count sort_by))
     <= Z.max (retry_delay self) (rate_limit_delay self)
        * (2 ^ Z.of_nat (max_retries self) - 1))
  /\
  (forall self client text summary_length,
     0 <= retry_delay self -> 0 <= rate_limit_delay self ->
     slept (trace (abstractive_summarization self client text
                     summary_length))
     <= Z.max (retry_delay self) (rate_limit_delay self)
        * (2 ^ Z.of_nat (max_retries self) - 1))
  /\
  (forall endpoint api_key env_endpoint env_key self,
     init endpoint api_key env_endpoint env_key = Returned self ->
     (forall client text sentence_count sort_by,
        slept (trace (extractive_summarization self client text
                        sentence_count sort_by)) <= 14) /\
     (forall client text summary_length,
        slept (trace (abstractive_summarization self client text
                        summary_length)) <= 14)).
Proof.
  assert (He : forall self client text sentence_count sort_by,
             0 <= retry_delay self -> 0 <= rate_limit_delay self ->
             slept (trace (extractive_summarization self client text
                             sentence_count sort_by))
             <= Z.max (retry_delay self) (rate_limit_delay self)
                * (2 ^ Z.of_nat (max_retries self) - 1)).
  { intros self client text sentence_count sort_by Hr Hl.
    assert (H0 : 0 <= Z.max (retry_delay self) (rate_limit_delay self)
                      * (2 ^ Z.of_nat (max_retries self) - 1)).
    { apply Z.mul_nonneg_nonneg; [lia|].
      pose proof (@pow2_le 0 (max_retries self) (Nat.le_0_l _)) as Hp.
      simpl in Hp. lia. }
    unfold extractive_summarization. rewrite slept_count_failure.
    destruct (text_is_empty text); [exact H0|].
    destruct (negb (sentence_count_ok sentence_count)); [exact H0|].
    rewrite extractive_loop_retry.
    apply (@text_loop_slept self [text]
             [ExtractiveSummaryAction sentence_count sort_by]
             (fun k => extractive_pass self text (client k)) Hr Hl). }
  assert (Ha : forall self client text summary_length,
             0 <= retry_delay self -> 0 <= rate_limit_delay self ->
             slept (trace (abstractive_summarization self client text
                             summary_length))
             <= Z.max (retry_delay self) (rate_limit_delay self)
                * (2 ^ Z.of_nat (max_retries self) - 1)).
  { intros self client text summary_length Hr Hl.
    assert (H0 : 0 <= Z.max (retry_delay self) (rate_limit_delay self)
                      * (2 ^ Z.of_nat (max_retries self) - 1)).
    { apply Z.mul_nonneg_nonneg; [lia|].
      pose proof (@pow2_le 0 (max_retries self) (Nat.le_0_l _)) as Hp.
      simpl in Hp. lia. }
    unfold abstractive_summarization. rewrite slept_count_failure.
    destruct (text_is_empty text); [exact H0|].
    destruct (negb (summary_length_ok summary_length)); [exact H0|].
    rewrite abstractive_loop_retry.
    apply (@text_loop_slept self [text]
             [AbstractiveSummaryAction summary_length]
             (fun k => abstractive_pass self text (client k)) Hr Hl). }
  split; [exact He|]. split; [exact Ha|].
  intros endpoint api_key env_endpoint env_key self Hinit.
  destruct (SummarizerSpec.init_configuration _ _ _ _ Hinit)
    as (Hm & Hr & Hl).
  split.
  - intros client text sentence_count sort_by.
    pose proof (He self client text sentence_count sort_by) as H.
    rewrite Hm, Hr, Hl in H. apply H; lia.
  - intros client text summary_length.
    pose proof (Ha self client text summary_length) as H.
    rewrite Hm, Hr, Hl in H. apply H; lia.
Qed.

(** X3, witness: the throttled service makes the call sleep its 14
    seconds. *)
Lemma sleep_is_bounded_witness :
  slept (trace (extractive_summarization Scenario.summarizer
                  Scenario.throttled_extract Scenario.article 3
                  (lit "Rank")))
  <= Z.max 1 2 * (2 ^ Z.of_nat 3 - 1)
  /\
  slept (trace (abstractive_summarization Scenario.summarizer
                  Scenario.unreachable_abstract Scenario.article
                  (lit "long")))
  <= Z.max 1 2 * (2 ^ Z.of_nat 3 - 1)
  /\
  slept (trace (extractive_summarization Scenario.summarizer
                  Scenario.throttled_extract Scenario.article 3
                  (lit "Rank"))) <= 14.
Proof.
  split; [|split].
  - apply (proj1 sleep_is_bounded Scenario.summarizer
             Scenario.throttled_extract Scenario.article 3 (lit "Rank"));
      simpl; lia.
  - apply (proj1 (proj2 sleep_is_bounded) Scenario.summarizer
             Scenario.unreachable_abstract Scenario.article (lit "long"));
      simpl; lia.
  - apply (proj2 (proj2 sleep_is_bounded) _ _ _ _ Scenario.summarizer
             SummarizerSpec.init_summarizer).
Defined.

(** *** Replies without a document, lengths the method does not know *)

Lemma first_doc_none (D : Type) (rs : list (list D)) :
  first_doc rs = None <-> List.concat rs = [].
Proof.
  induction rs as [|ds rs IH]; simpl; [tauto|].
  destruct ds as [|d ds]; simpl; [exact IH|].
  split; discriminate.
Qed.

(** X4.  When the reply to the first attempt holds no document result
    at all, [extractive_summarization] and [abstractive_summarization]
    return [None] after that one request: nothing is retried, nothing
    is slept, nothing is counted. *)
Theorem empty_reply_returns_none :
  (forall self client text sentence_count sort_by action_results,
     only_whitespace text = false ->
     1 <= sentence_count <= 20 ->
     (0 < max_retries self)%nat ->
     client 0%nat = Result action_results ->
     List.concat action_results = [] ->
     extractive_summarization self client text sentence_count sort_by
     = {| outcome := Returned None;
          trace :=
            [Analyze 0 [text]
               [ExtractiveSummaryAction sentence_count sort_by]];
          self_after := self |})
  /\
  (forall self client text summary_length action_results,
     only_whitespace text = false ->
     In summary_length [lit "short"; lit "medium"; lit "long"] ->
     (0 < max_retries self)%nat ->
     client 0%nat = Result action_results ->
     List.concat action_results = [] ->
     abstractive_summarization self client text summary_length
     = {| outcome := Returned None;
          trace :=
            [Analyze 0 [text] [AbstractiveSummaryAction summary_length]];
          self_after := self |}).
Proof.
  split.
  - intros self client text sentence_count sort_by rs Htext Hcount Hmax
      Hreply Hempty.
    unfold extractive_summarization.
    rewrite SummarizerSpec.text_is_empty_spec, Htext.
    assert (Hok : sentence_count_ok sentence_count = true).
    { unfold sentence_count_ok. apply andb_true_iff.
      split; apply Z.leb_le; lia. }
    rewrite Hok. cbn [negb]. unfold range.
    destruct (max_retries self) as [|n]; [lia|].
    cbn [seq extractive_loop]. unfold extractive_pass.
    rewrite Hreply. apply first_doc_none in Hempty. rewrite Hempty.
    reflexivity.
  - intros self client text summary_length rs Htext Hlength Hmax
      Hreply Hempty.
    unfold abstractive_summarization.
    rewrite SummarizerSpec.text_is_empty_spec, Htext.
    assert (Hok : summary_length_ok summary_length = true).
    { unfold summary_length_ok. apply existsb_exists.
      exists summary_length. split; [exact Hlength|].
      apply str_eqb_spec. reflexivity. }
    rewrite Hok. cbn [negb]. unfold range.
    destruct (max_retries self) as [|n]; [lia|].
    cbn [seq abstractive_loop]. unfold abstractive_pass.
    rewrite Hreply. apply first_doc_none in Hempty. rewrite Hempty.
    reflexivity.
Qed.

(** X4, witness: replies made of empty action results, or of none. *)
Lemma empty_reply_returns_none_witness :
  extractive_summarization Scenario.summarizer Scenario.silent_extract
    Scenario.article 5 (lit "Offset")
  = {| outcome := Returned None;
       trace :=
         [Analyze 0 [Scenario.article]
            [ExtractiveSummaryAction 5 (lit "Offset")]];
       self_after := Scenario.summarizer |}
  /\
  abstractive_summarization Scenario.summarizer Scenario.silent_abstract
    Scenario.article (lit "medium")
  = {| outcome := Returned None;
       trace :=
         [Analyze 0 [Scenario.article]
            [AbstractiveSummaryAction (lit "medium")]];
       self_after := Scenario.summarizer |}.
Proof.
  split.
  - apply (proj1 empty_reply_returns_none Scenario.summarizer
             Scenario.silent_extract Scenario.article 5 (lit "Offset")
             [[]; []]).
    + reflexivity.
    + lia.
    + simpl. lia.
    + reflexivity.
    + reflexivity.
  - apply (proj2 empty_reply_returns_none Scenario.summarizer
             Scenario.silent_abstract Scenario.article (lit "medium") []).
    + reflexivity.
    + simpl. auto.
    + simpl. lia.
    + reflexivity.
    + reflexivity.
Defined.

(** X5.  [abstractive_summarization] accepts exactly the lengths
    "short", "medium" and "long": with any other [summary_length] it
    raises [ValueError] without a request and counts one failed
    request; the message is that of the text check when the text is
    blank, that of the length check otherwise. *)
Theorem summary_length_validation :
  forall self client text summary_length,
    summary_length <> lit "short" ->
    summary_length <> lit "medium" ->
    summary_length <> lit "long" ->
    abstractive_summarization self client text summary_length
    = {| outcome :=
           Raised
             (ValueError
                (if only_whitespace text then
                   lit "Input text cannot be empty"
                 else
                   lit "Summary length must be 'short', 'medium', or 'long'"));
         trace := [];
         self_after := update_stats self (len text) false |}.
Proof.
  intros self client text summary_length H1 H2 H3.
  unfold abstractive_summarization.
  rewrite SummarizerSpec.text_is_empty_spec.
  assert (Hbad : summary_length_ok summary_length = false).
  { unfold summary_length_ok. simpl.
    rewrite (str_eqb_neq H1), (str_eqb_neq H2), (str_eqb_neq H3).
    reflexivity. }
  destruct (only_whitespace text); [reflexivity|].
  rewrite Hbad. reflexivity.
Qed.

(** X5, witness: a length with a capital letter. *)
Lemma summary_length_validation_witness :
  abstractive_summarization Scenario.summarizer Scenario.recovering_abstract
    Scenario.article (lit "Short")
  = {| outcome :=
         Raised
           (ValueError
              (lit "Summary length must be 'short', 'medium', or 'long'"));
       trace := [];
       self_after :=
         update_stats Scenario.summarizer (len Scenario.article) false |}.
Proof.
  apply (@summary_length_validation Scenario.summarizer
           Scenario.recovering_abstract Scenario.article (lit "Short"));
    discriminate.
Defined.

(** *** The conversation job *)

Lemma conversation_items_missing items : forall i,
  existsb (fun item => negb (has_text item)) items = true ->
  conversation_items_from i items = Raised (KeyError (lit "text")).
Proof.
  induction items as [|item rest IH]; intros i H; simpl in *;
    [discriminate|].
  unfold has_text in H.
  destruct (lookup (lit "text") item) as [t|]; [|reflexivity].
  simpl in H. rewrite (IH (S i) H). reflexivity.
Qed.

Lemma total_chars_missing items :
  existsb (fun item => negb (has_text item)) items = true ->
  total_chars items = Raised (KeyError (lit "text")).
Proof.
  induction items as [|item rest IH]; intros H; simpl in *;
    [discriminate|].
  unfold has_text in H.
  destruct (lookup (lit "text") item) as [t|]; [|reflexivity].
  simpl in H. rewrite (IH H). reflexivity.
Qed.

(** X6.  When an item of a conversation has no "text" key,
    [conversation_summarization] raises [KeyError('text')] before any
    request, and, unlike for an empty conversation, the failure is not
    counted: the handler that would count it raises the same error
    first. *)
Theorem missing_text_not_counted :
  forall fuel self svc items aspects,
    existsb (fun item => negb (has_text item)) items = true ->
    conversation_summarization fuel self svc items aspects
    = {| outcome := Some (Raised (KeyError (lit "text")));
         trace := [];
         self_after := self |}.
Proof.
  intros fuel self svc items aspects H.
  unfold conversation_summarization, count_conversation_failure.
  destruct items as [|item rest]; [discriminate|].
  cbn [truthy negb].
  rewrite (conversation_items_missing (item :: rest) 0 H).
  cbn [outcome]. rewrite (total_chars_missing (item :: rest) H).
  reflexivity.
Qed.

(** X6, witness: the second item has only a role. *)
Lemma missing_text_not_counted_witness :
  conversation_summarization 3 Scenario.summarizer Scenario.prompt_service
    Scenario.broken_chat None
  = {| outcome := Some (Raised (KeyError (lit "text")));
       trace := [];
       self_after := Scenario.summarizer |}.
Proof.
  apply (@missing_text_not_counted 3 Scenario.summarizer
           Scenario.prompt_service Scenario.broken_chat None).
  reflexivity.
Defined.

Lemma conversation_items_built items : forall i l,
  conversation_items_from i items = Returned l ->
  List.length l = List.length items /\
  forall j item,
    nth_error items j = Some item ->
    exists t,
      lookup (lit "text") item = Some t /\
      nth_error l j
      = Some {| item_text := t;
                item_id := str_of_nat (i + j + 1);
                item_role := get_default (lit "role") (lit "Customer") item;
                item_participantId :=
                  get_default (lit "participantId")
                    (lit "Participant_" ++ str_of_nat (i + j + 1)) item |}.
Proof.
  induction items as [|item rest IH]; intros i l H; simpl in H.
  - injection H as <-. split; [reflexivity|].
    intros [|j] it Hj; discriminate.
  - destruct (lookup (lit "text") item) as [t|] eqn:Et; [|discriminate].
    destruct (conversation_items_from (S i) rest) as [l'|e] eqn:Er;
      [|discriminate].
    injection H as <-. destruct (IH (S i) l' Er) as [Hlen Hnth].
    split; [simpl; rewrite Hlen; reflexivity|].
    intros [|j] it Hj; simpl in Hj.
    + injection Hj as <-. exists t. split; [exact Et|].
      simpl. rewrite Nat.add_0_r. reflexivity.
    + destruct (Hnth j it Hj) as (t' & Ht' & Hn). exists t'.
      split; [exact Ht'|]. simpl. rewrite Hn.
      replace (S i + j + 1)%nat with (i + S j + 1)%nat by lia.
      reflexivity.
Qed.

(** X7.  Every job [conversation_summarization] submits goes to the
    analyze-conversations address of the endpoint and carries the whole
    conversation: one entry per item, in order, with the item's text,
    the 1-based position as id, the role ("Customer" when the item has
    none) and the participant ("Participant_" and the position when the
    item has none); and one task per requested aspect ("issue",
    "resolution" and "recap" when none is given). *)
Theorem job_carries_conversation :
  forall fuel self svc items aspects k url json,
    In (Post k url json)
      (trace (conversation_summarization fuel self svc items aspects)) ->
    url = endpoint self
          ++ lit "/language/analyze-conversations/jobs?api-version=2023-04-01"
    /\
    tasks json
    = List.map (fun a => {| taskName := a ++ lit "_task";
                            summaryAspects := [a] |})
        (match aspects with
         | Some l => l
         | None => [lit "issue"; lit "resolution"; lit "recap"]
         end) /\
    List.length (conversationItems json) = List.length items /\
    forall j item,
      nth_error items j = Some item ->
      exists t,
        lookup (lit "text") item = Some t /\
        nth_error (conversationItems json) j
        = Some {| item_text := t;
                  item_id := str_of_nat (j + 1);
                  item_role :=
                    get_default (lit "role") (lit "Customer") item;
                  item_participantId :=
                    get_default (lit "participantId")
                      (lit "Participant_" ++ str_of_nat (j + 1)) item |}.
Proof.
  intros fuel self svc items aspects k url json.
  unfold conversation_summarization.
  rewrite SummarizerSpec.trace_count_conversation_failure.
  destruct (truthy items); cbn [negb]; [|simpl; contradiction].
  destruct (conversation_items_from 0 items) as [l|e] eqn:El;
    [|simpl; contradiction].
  rewrite conversation_loop_retry. intros Hin.
  match type of Hin with
  | context [conversation_step _ _ _ _ _ ?body] =>
      destruct (@conversation_loop_from fuel self svc items
                  (conversation_url self) body k url json Hin)
        as (_ & -> & -> & _)
  end.
  split; [reflexivity|]. split.
  { simpl. destruct aspects; reflexivity. }
  destruct (conversation_items_built items 0 El) as [Hlen Hnth].
  split; [exact Hlen|]. exact Hnth.
Qed.

(** X7, witness: the first job for a two-item conversation. *)
Lemma job_carries_conversation_witness :
  tasks Scenario.support_job
  = List.map (fun a => {| taskName := a ++ lit "_task";
                          summaryAspects := [a] |})
      [lit "issue"; lit "resolution"; lit "recap"] /\
  List.length (conversationItems Scenario.support_job)
  = List.length Scenario.support_chat /\
  exists t,
    lookup (lit "text") [(lit "role", lit "Agent");
                         (lit "text", lit "Please restart it.")]
    = Some t /\
    nth_error (conversationItems Scenario.support_job) 1
    = Some {| item_text := t;
              item_id := str_of_nat (1 + 1);
              item_role :=
                get_default (lit "role") (lit "Customer")
                  [(lit "role", lit "Agent");
                   (lit "text", lit "Please restart it.")];
              item_participantId :=
                get_default (lit "participantId")
                  (lit "Participant_" ++ str_of_nat (1 + 1))
                  [(lit "role", lit "Agent");
                   (lit "text", lit "Please restart it.")] |}.
Proof.
  destruct (@job_carries_conversation 4 Scenario.summarizer
              Scenario.prompt_service Scenario.support_chat None 0%nat
              (conversation_url Scenario.summarizer) Scenario.support_job)
    as (_ & Ht & Hlen & Hnth).
  - vm_compute. left. reflexivity.
  - split; [exact Ht|]. split; [exact Hlen|].
    apply (Hnth 1%nat). reflexivity.
Defined.

(** *** Parsing the job's result *)

Lemma parse_results_fold (items : list TaskItem) :
  parse_results items
  = fold_left store_summary (succeeded_summaries items) empty_summary.
Proof.
  unfold parse_results, succeeded_summaries.
  generalize empty_summary.
  induction items as [|task rest IH]; intros c; simpl; [reflexivity|].
  rewrite fold_left_app, IH. f_equal.
  destruct (str_eqb (task_status task) (lit "succeeded")); [|reflexivity].
  generalize c. clear.
  induction (conversations task) as [|conv convs IH]; intros c; simpl;
    [reflexivity|].
  rewrite fold_left_app. apply IH.
Qed.

Lemma with_aspect_snoc a ss s :
  with_aspect a (ss ++ [s])
  = with_aspect a ss
    ++ (if str_eqb (aspect s) a then [aspect_text s] else []).
Proof.
  unfold with_aspect. rewrite filter_app, map_app. simpl.
  destruct (str_eqb (aspect s) a); reflexivity.
Qed.

Lemma last_snoc (A : Type) (l : list A) (x d : A) : last (l ++ [x]) d = x.
Proof. apply last_last. Qed.

Lemma some_if_any_snoc (l : list str) (x : str) :
  match some_if_any l with
  | None => Some [x]
  | Some titles => Some (titles ++ [x])
  end = some_if_any (l ++ [x]).
Proof. destruct l; reflexivity. Qed.

Lemma other_aspect (x a b : str) :
  str_eqb x a = true -> str_eqb a b = false -> str_eqb x b = false.
Proof.
  intros H Hab. apply str_eqb_spec in H. subst x. exact Hab.
Qed.

(** X8.  Of the summaries a finished job reports, only those of tasks
    whose status is "succeeded" are read.  The parsed [issue],
    [resolution] and [recap] are each the text of the last summary of
    that aspect (empty when there is none); [chapter_titles] and
    [narrative_summaries] hold all the texts of their aspect in order
    ([None] when there is none); summaries of any other aspect are
    ignored. *)
Theorem parsed_summary :
  forall items,
    let summaries := succeeded_summaries items in
    let c := parse_results items in
    issue c = last (with_aspect (lit "issue") summaries) [] /\
    resolution c = last (with_aspect (lit "resolution") summaries) [] /\
    recap c = last (with_aspect (lit "recap") summaries) [] /\
    chapter_titles c
    = some_if_any (with_aspect (lit "chapterTitle") summaries) /\
    narrative_summaries c
    = some_if_any (with_aspect (lit "narrative") summaries).
Proof.
  intros items summaries c. subst c. rewrite parse_results_fold.
  fold summaries. generalize summaries. clear.
  induction summaries as [|s ss (H1 & H2 & H3 & H4 & H5)] using rev_ind.
  { repeat split. }
  rewrite fold_left_app. cbn [fold_left].
  rewrite !with_aspect_snoc.
  set (c := fold_left store_summary ss empty_summary) in *.
  unfold store_summary.
  destruct (str_eqb (aspect s) (lit "issue")) eqn:E1.
  { rewrite (@other_aspect _ _ (lit "resolution") E1 eq_refl),
      (@other_aspect _ _ (lit "recap") E1 eq_refl),
      (@other_aspect _ _ (lit "chapterTitle") E1 eq_refl),
      (@other_aspect _ _ (lit "narrative") E1 eq_refl).
    rewrite !app_nil_r, last_snoc. cbn. auto. }
  destruct (str_eqb (aspect s) (lit "resolution")) eqn:E2.
  { rewrite (@other_aspect _ _ (lit "recap") E2 eq_refl),
      (@other_aspect _ _ (lit "chapterTitle") E2 eq_refl),
      (@other_aspect _ _ (lit "narrative") E2 eq_refl).
    rewrite !app_nil_r, last_snoc. cbn. auto. }
  destruct (str_eqb (aspect s) (lit "recap")) eqn:E3.
  { rewrite (@other_aspect _ _ (lit "chapterTitle") E3 eq_refl),
      (@other_aspect _ _ (lit "narrative") E3 eq_refl).
    rewrite !app_nil_r, last_snoc. cbn. auto. }
  destruct (str_eqb (aspect s) (lit "chapterTitle")) eqn:E4.
  { rewrite (@other_aspect _ _ (lit "narrative") E4 eq_refl).
    rewrite !app_nil_r. cbn [issue resolution recap chapter_titles
                             narrative_summaries].
    rewrite H4, some_if_any_snoc. auto. }
  destruct (str_eqb (aspect s) (lit "narrative")) eqn:E5.
  { rewrite !app_nil_r. cbn [issue resolution recap chapter_titles
                             narrative_summaries].
    rewrite H5, some_if_any_snoc. auto. }
  rewrite !app_nil_r. auto.
Qed.

(** *** The counters add up *)

Lemma update_stats_consistent self n success :
  consistent (stats self) -> consistent (stats (update_stats self n success)).
Proof.
  unfold consistent. simpl. destruct success; lia.
Qed.

Lemma counted_once_consistent a b :
  counted_once a b -> consistent (stats a) -> consistent (stats b).
Proof.
  intros [->|(n & success & ->)] H; [exact H|].
  apply update_stats_consistent. exact H.
Qed.

Lemma counted_once_total a b :
  counted_once a b ->
  total_requests (stats a) <= total_requests (stats b)
  <= total_requests (stats a) + 1.
Proof.
  intros [->|(n & success & ->)]; simpl; lia.
Qed.

Lemma extractive_counted self client text sentence_count sort_by :
  counted_once self
    (self_after (extractive_summarization self client text sentence_count
                   sort_by)).
Proof.
  pose proof (extractive_accounting self client text sentence_count sort_by)
    as H. simpl in H. unfold counted_once.
  destruct (outcome _) as [[v|]|e]; rewrite H; eauto.
Qed.

Lemma abstractive_counted self client text summary_length :
  counted_once self
    (self_after (abstractive_summarization self client text summary_length)).
Proof.
  pose proof (abstractive_accounting self client text summary_length) as H.
  simpl in H. unfold counted_once.
  destruct (outcome _) as [[v|]|e]; rewrite H; eauto.
Qed.

Lemma conversation_step_stop fuel self svc items url json k o t s' :
  conversation_step fuel self svc items url json k = Stop o t s' ->
  (o = None /\ s' = self) \/
  (exists v n,
     o = Some (Returned (Some v)) /\ s' = update_stats self n true /\
     total_chars items = Returned n) \/
  (exists e, o = Some (Raised e) /\ s' = self).
Proof.
  unfold conversation_step, conversation_pass.
  destruct (post svc k) as [x|[[|c location]|]].
  - destruct x; break_ifs; intros H; try discriminate;
      injection H as <- <- <-; right; right; eauto.
  - break_ifs; intros H; try discriminate;
      injection H as <- <- <-; right; right; eauto.
  - destruct (poll_loop fuel svc k 0 (c :: location)) as [p t0].
    destruct p as [[its|x]|x|].
    + destruct (total_chars items) as [n|x] eqn:En.
      * intros H. injection H as <- <- <-. right. left. eauto.
      * destruct x; break_ifs; intros H; try discriminate;
          injection H as <- <- <-; right; right; eauto.
    + destruct x; break_ifs; intros H; try discriminate;
        injection H as <- <- <-; right; right; eauto.
    + destruct x; break_ifs; intros H; try discriminate;
        injection H as <- <- <-; right; right; eauto.
    + intros H. injection H as <- <- <-. left. auto.
  - break_ifs; intros H; try discriminate;
      injection H as <- <- <-; right; right; eauto.
Qed.

Lemma conversation_counted fuel self svc items aspects :
  counted_once self
    (self_after (conversation_summarization fuel self svc items aspects)).
Proof.
  assert (Hraise : forall e,
             counted_once self
               (self_after
                  (count_conversation_failure items
                     {| outcome :=
                          Some (@Raised (option ConversationSummary) e);
                        trace := []; self_after := self |}))).
  { intros e. unfold count_conversation_failure, counted_once. simpl.
    destruct (total_chars items); simpl; eauto. }
  unfold conversation_summarization.
  destruct (truthy items); cbn [negb]; [|apply Hraise].
  destruct (conversation_items_from 0 items) as [l|e]; [|apply Hraise].
  rewrite conversation_loop_retry.
  match goal with
  | |- context [retry ?ex self ?step ?attempts] =>
      destruct (retry_end ex self step attempts)
        as [(Ho & Hs)|(k & t & _ & Hstop)];
      set (r := retry ex self step attempts) in *
  end.
  - unfold count_conversation_failure, counted_once. rewrite Ho, Hs. auto.
  - apply conversation_step_stop in Hstop.
    unfold count_conversation_failure, counted_once.
    destruct Hstop as [(-> & ->)|[(v & n & -> & -> & _)|(e & -> & ->)]];
      eauto.
    destruct (total_chars items); simpl; eauto.
Qed.

(** What [process_document] leaves: a success counted when it returns a
    result, otherwise nothing or one failure counted. *)
Lemma process_document_accounting self client ty kwargs i doc :
  let r := process_document self client ty kwargs i doc in
  match outcome r with
  | Some _ => self_after r = update_stats self (len doc) true
  | None =>
      self_after r = self \/
      self_after r = update_stats self (len doc) false
  end.
Proof.
  unfold process_document. cbn [outcome self_after].
  destruct (str_eqb ty (lit "extractive")).
  - unfold call_extractive.
    destruct (kw_summary_length kwargs), (kw_other kwargs);
      try (simpl; auto; fail).
    match goal with
    | |- context [extractive_summarization ?s ?c ?d ?n ?o] =>
        pose proof (extractive_accounting s c d n o) as H; simpl in H;
        destruct (outcome (extractive_summarization s c d n o))
          as [[v|]|e]; auto
    end.
  - unfold call_abstractive.
    destruct (kw_sentence_count kwargs), (kw_sort_by kwargs),
      (kw_other kwargs); try (simpl; auto; fail).
    match goal with
    | |- context [abstractive_summarization ?s ?c ?d ?l] =>
        pose proof (abstractive_accounting s c d l) as H; simpl in H;
        destruct (outcome (abstractive_summarization s c d l))
          as [[v|]|e]; auto
    end.
Qed.

Lemma gather_accounting client ty kwargs documents : forall self i,
  let r := gather self client ty kwargs i documents in
  successful_requests (stats (batch_self_after r))
  = successful_requests (stats self)
    + len (successful_results (batch_outcome r)) /\
  total_requests (stats self)
  <= total_requests (stats (batch_self_after r))
  <= total_requests (stats self) + len documents /\
  (consistent (stats self) -> consistent (stats (batch_self_after r))) /\
  List.length (task_traces r) = List.length documents.
Proof.
  induction documents as [|doc rest IH]; intros self i.
  { cbn. unfold len. simpl. repeat split; auto; lia. }
  cbn [gather].
  pose proof (process_document_accounting self client ty kwargs i doc) as H.
  cbv zeta in H.
  set (r := process_document self client ty kwargs i doc) in *.
  destruct (IH (self_after r) (S i)) as (Hs & Ht & Hc & Hl). clear IH.
  set (g := gather (self_after r) client ty kwargs (S i) rest) in *.
  cbv zeta.
  cbn [batch_outcome task_traces batch_self_after successful_results
       as_summary_result].
  unfold len in *. cbn [List.length].
  destruct (outcome r) as [v|].
  - rewrite H in Hs, Ht, Hc. cbn [List.length].
    unfold consistent in *. simpl in Hs, Ht, Hc.
    repeat split; intros; try lia.
  - destruct H as [H|H]; rewrite H in Hs, Ht, Hc;
      unfold consistent in *; simpl in Hs, Ht, Hc;
      repeat split; intros; try lia.
Qed.

(** X9.  Every call of [extractive_summarization],
    [abstractive_summarization] and [conversation_summarization]
    counts at most one request, and [batch_summarization] at most one
    per document; and whatever is called, the counters keep adding up:
    [total_requests = successful_requests + failed_requests], as it is
    after [__init__]. *)
Theorem counters_add_up :
  (forall endpoint api_key env_endpoint env_key self,
     init endpoint api_key env_endpoint env_key = Returned self ->
     consistent (stats self))
  /\
  (forall self client text sentence_count sort_by,
     let r :=
       extractive_summarization self client text sentence_count sort_by in
     counted_once self (self_after r) /\
     (consistent (stats self) -> consistent (stats (self_after r))))
  /\
  (forall self client text summary_length,
     let r := abstractive_summarization self client text summary_length in
     counted_once self (self_after r) /\
     (consistent (stats self) -> consistent (stats (self_after r))))
  /\
  (forall fuel self svc items aspects,
     let r := conversation_summarization fuel self svc items aspects in
     counted_once self (self_after r) /\
     (consistent (stats self) -> consistent (stats (self_after r))))
  /\
  (forall self client documents summarization_type kwargs,
     let r :=
       batch_summarization self client documents summarization_type kwargs in
     total_requests (stats self)
     <= total_requests (stats (batch_self_after r))
     <= total_requests (stats self) + len documents /\
     (consistent (stats self) -> consistent (stats (batch_self_after r)))).
Proof.
  split; [|split; [|split; [|split]]].
  - intros endpoint api_key env_endpoint env_key self H. unfold init in H.
    destruct (or_else endpoint env_endpoint) as [[|c e]|];
      try discriminate;
      destruct (or_else api_key env_key) as [[|c' k]|]; try discriminate.
    injection H as <-. reflexivity.
  - intros self client text sentence_count sort_by r.
    pose proof (extractive_counted self client text sentence_count sort_by)
      as H.
    split; [exact H | apply (counted_once_consistent H)].
  - intros self client text summary_length r.
    pose proof (abstractive_counted self client text summary_length) as H.
    split; [exact H | apply (counted_once_consistent H)].
  - intros fuel self svc items aspects r.
    pose proof (conversation_counted fuel self svc items aspects) as H.
    split; [exact H | apply (counted_once_consistent H)].
  - intros self client documents ty kwargs r. subst r.
    unfold batch_summarization. cbn [batch_self_after].
    destruct (gather_accounting client ty kwargs documents self 0)
      as (_ & Ht & Hc & _).
    split; [exact Ht | exact Hc].
Qed.

(** X9, witness: a fresh object, through a failed call, a run of
    conversation polling and a batch. *)
Lemma counters_add_up_witness :
  consistent (stats Scenario.summarizer) /\
  consistent
    (stats (self_after (extractive_summarization Scenario.summarizer
                          Scenario.unauthorized_extract Scenario.article
                          3 (lit "Rank")))) /\
  consistent
    (stats (self_after (conversation_summarization 4 Scenario.summarizer
                          Scenario.prompt_service Scenario.chat None))) /\
  consistent
    (stats (batch_self_after
              (batch_summarization Scenario.summarizer
                 {| extract_replies := fun _ => Scenario.recovering_extract;
                    abstract_replies := fun _ => Scenario.silent_abstract |}
                 Scenario.six_documents (lit "extractive")
                 {| kw_sentence_count := None; kw_sort_by := None;
                    kw_summary_length := None; kw_other := [] |}))).
Proof.
  assert (H0 : consistent (stats Scenario.summarizer)).
  { apply (proj1 counters_add_up _ _ _ _ Scenario.summarizer
             SummarizerSpec.init_summarizer). }
  split; [exact H0|]. split; [|split].
  - apply (proj1 (proj2 counters_add_up) Scenario.summarizer
             Scenario.unauthorized_extract Scenario.article 3 (lit "Rank")).
    exact H0.
  - apply (proj1 (proj2 (proj2 (proj2 counters_add_up))) 4%nat
             Scenario.summarizer Scenario.prompt_service Scenario.chat None).
    exact H0.
  - apply (proj2 (proj2 (proj2 (proj2 counters_add_up)))
             Scenario.summarizer _ Scenario.six_documents
             (lit "extractive")).
    exact H0.
Defined.

(** X10.  The list [batch_summarization] returns has as many results
    as the batch counted successful requests; and each document gets
    its task, whatever becomes of it. *)
Theorem batch_results_match_successes :
  forall self client documents summarization_type kwargs,
    let r :=
      batch_summarization self client documents summarization_type kwargs in
    successful_requests (stats (batch_self_after r))
    = successful_requests (stats self) + len (batch_outcome r) /\
    List.length (task_traces r) = List.length documents.
Proof.
  intros self client documents ty kwargs r. subst r.
  unfold batch_summarization. cbn [batch_self_after batch_outcome task_traces].
  destruct (gather_accounting client ty kwargs documents self 0)
    as (Hs & _ & _ & Hl).
  split; [exact Hs | exact Hl].
Qed.

(** *** Keywords a method does not have *)

Lemma gather_all_fail self client ty kwargs documents : forall i,
  (forall j doc,
     process_document self client ty kwargs j doc
     = {| outcome := None; trace := []; self_after := self |}) ->
  gather self client ty kwargs i documents
  = {| batch_outcome := List.map (fun _ => Returned None) documents;
       task_traces := List.map (fun _ => []) documents;
       batch_self_after := self |}.
Proof.
  intros i H. revert i.
  induction documents as [|doc rest IH]; intros i; [reflexivity|].
  cbn [gather]. rewrite H. cbn [self_after outcome trace].
  rewrite IH. reflexivity.
Qed.

Lemma no_successes (A : Type) (l : list A) :
  successful_results (List.map (fun _ => Returned None) l) = [].
Proof. induction l as [|x l IH]; simpl; [reflexivity | exact IH]. Qed.

(** X11.  A keyword argument the chosen method does not have makes
    every document of a batch fail without a trace: passing
    [summary_length] (or any unknown keyword) to an extractive batch,
    or [sentence_count] or [sort_by] (or any unknown keyword) to a
    batch of another type, gives an empty result list with no request
    made and nothing counted. *)
Theorem batch_swallows_unexpected_keyword :
  (forall self client documents kwargs,
     kw_summary_length kwargs <> None \/ kw_other kwargs <> [] ->
     batch_summarization self client documents (lit "extractive") kwargs
     = {| batch_outcome := [];
          task_traces := List.map (fun _ => []) documents;
          batch_self_after := self |})
  /\
  (forall self client documents summarization_type kwargs,
     summarization_type <> lit "extractive" ->
     kw_sentence_count kwargs <> None \/ kw_sort_by kwargs <> None \/
     kw_other kwargs <> [] ->
     batch_summarization self client documents summarization_type kwargs
     = {| batch_outcome := [];
          task_traces := List.map (fun _ => []) documents;
          batch_self_after := self |}).
Proof.
  split.
  - intros self client documents kwargs H.
    unfold batch_summarization. rewrite gather_all_fail.
    + cbn [batch_outcome task_traces batch_self_after].
      rewrite no_successes. reflexivity.
    + intros j doc. unfold process_document.
      change (str_eqb (lit "extractive") (lit "extractive")) with true.
      cbv iota. unfold call_extractive.
      destruct (kw_summary_length kwargs), (kw_other kwargs);
        try reflexivity.
      destruct H as [H|H]; contradiction.
  - intros self client documents ty kwargs Hty H.
    unfold batch_summarization. rewrite gather_all_fail.
    + cbn [batch_outcome task_traces batch_self_after].
      rewrite no_successes. reflexivity.
    + intros j doc. unfold process_document.
      rewrite (str_eqb_neq Hty). unfold call_abstractive.
      destruct (kw_sentence_count kwargs), (kw_sort_by kwargs),
        (kw_other kwargs); try reflexivity.
      destruct H as [H|[H|H]]; contradiction.
Qed.

(** X11, witness: a sentence count passed to an abstractive batch. *)
Lemma batch_swallows_unexpected_keyword_witness :
  batch_summarization Scenario.summarizer
    {| extract_replies := fun _ => Scenario.recovering_extract;
       abstract_replies := fun _ => Scenario.recovering_abstract |}
    Scenario.six_documents (lit "abstractive")
    {| kw_sentence_count := Some 3; kw_sort_by := None;
       kw_summary_length := None; kw_other := [] |}
  = {| batch_outcome := [];
       task_traces := List.map (fun _ => []) Scenario.six_documents;
       batch_self_after := Scenario.summarizer |}.
Proof.
  apply (proj2 batch_swallows_unexpected_keyword Scenario.summarizer).
  - discriminate.
  - left. discriminate.
Defined.

(** *** Building the object *)

(** X12.  [AzureTextSummarizer(endpoint, api_key)] never builds an
    object with an empty endpoint or key.  Each of the two is settled
    on its own: an argument that is given and not empty is used as it
    is, whatever the environment holds; for one that is [None] or empty
    the environment variable stands in.  When both come to a value the
    object is built with them, the configuration of lines 72-74 and
    zeroed statistics; when either is then still missing or empty,
    [ValueError] is raised; and there is no other case. *)
Theorem init_needs_endpoint_and_key :
  (forall endpoint api_key env_endpoint env_key e k,
     chosen endpoint env_endpoint e ->
     chosen api_key env_key k ->
     init endpoint api_key env_endpoint env_key
     = Returned {| Summarizer.endpoint := e;
                   Summarizer.api_key := k;
                   max_retries := 3; retry_delay := 1;
                   rate_limit_delay := 2; stats := zero_stats |})
  /\
  (forall endpoint api_key env_endpoint env_key,
     missing endpoint /\ missing env_endpoint \/
     missing api_key /\ missing env_key ->
     init endpoint api_key env_endpoint env_key
     = Raised
         (ValueError
            (lit "Azure Language endpoint and API key are required")))
  /\
  (forall endpoint api_key env_endpoint env_key,
     (exists e k,
        chosen endpoint env_endpoint e /\ chosen api_key env_key k) \/
     missing endpoint /\ missing env_endpoint \/
     missing api_key /\ missing env_key)
  /\
  (forall endpoint api_key env_endpoint env_key self,
     init endpoint api_key env_endpoint env_key = Returned self ->
     Summarizer.endpoint self <> [] /\ Summarizer.api_key self <> [] /\
     stats self = zero_stats).
Proof.
  split; [|split; [|split]].
  - intros endpoint api_key env_endpoint env_key e k
      [He [-> | [[-> | ->] ->]]] [Hk [-> | [[-> | ->] ->]]];
      destruct e as [|c e]; try (elim He; reflexivity);
      destruct k as [|c' k]; try (elim Hk; reflexivity);
      reflexivity.
  - intros endpoint api_key env_endpoint env_key
      [([-> | ->] & [-> | ->])|([-> | ->] & [-> | ->])];
      unfold init; simpl; try reflexivity;
      destruct endpoint as [[|c e]|], env_endpoint as [[|c'' e']|];
      reflexivity.
  - intros endpoint api_key env_endpoint env_key.
    unfold chosen, missing.
    destruct endpoint as [[|c e]|], env_endpoint as [[|c1 e1]|];
      try (right; left; split; auto; fail);
      destruct api_key as [[|c' k]|], env_key as [[|c2 k2]|];
      try (right; right; split; auto; fail);
      left; eexists; eexists;
      (split; (split; [|eauto]; discriminate)).
  - intros endpoint api_key env_endpoint env_key self H. unfold init in H.
    destruct (or_else endpoint env_endpoint) as [[|c e]|];
      try discriminate;
      destruct (or_else api_key env_key) as [[|c' k]|]; try discriminate.
    injection H as <-. simpl. repeat split; discriminate.
Qed.

(** X12, witness: the endpoint given as an argument and the key taken
    from the environment, with another endpoint there that is not
    used; and an endpoint that is nowhere. *)
Lemma init_needs_endpoint_and_key_witness :
  init (Some (lit "https://example")) None
    (Some (lit "https://elsewhere")) (Some (lit "k"))
  = Returned {| Summarizer.endpoint := lit "https://example";
                Summarizer.api_key := lit "k";
                max_retries := 3; retry_delay := 1;
                rate_limit_delay := 2; stats := zero_stats |}
  /\
  init (Some []) (Some (lit "k")) None (Some (lit "k'"))
  = Raised
      (ValueError (lit "Azure Language endpoint and API key are required"))
  /\
  (Summarizer.endpoint Scenario.summarizer <> [] /\
   Summarizer.api_key Scenario.summarizer <> [] /\
   stats Scenario.summarizer = zero_stats).
Proof.
  split; [|split].
  - apply (proj1 init_needs_endpoint_and_key).
    + split; [discriminate | left; reflexivity].
    + split; [discriminate|]. right. split; [left|]; reflexivity.
  - apply (proj1 (proj2 init_needs_endpoint_and_key)).
    left. split; [right | left]; reflexivity.
  - apply (proj2 (proj2 (proj2 init_needs_endpoint_and_key)) _ _ _ _
             Scenario.summarizer SummarizerSpec.init_summarizer).
Defined.

End SummarizerMore.

(* ===================================================================== *)
(** ** Further properties of the chat application                         *)
(* ===================================================================== *)

Module ChatAppSpec.

Import Chat ChatApp PyFacts.

Local Open Scope Z_scope.
Local Unset Implicit Arguments.

Lemma lastn_all (A : Type) (n : nat) (l : list A) :
  (List.length l <= n)%nat -> lastn n l = l.
Proof.
  intros H. unfold lastn.
  replace (List.length l - n)%nat with 0%nat by lia. reflexivity.
Qed.

Lemma length_lastn (A : Type) (n : nat) (l : list A) :
  List.length (lastn n l) = Nat.min n (List.length l).
Proof. unfold lastn. rewrite length_skipn. lia. Qed.

Lemma lastn_lastn_snoc (A : Type) (n : nat) (l : list A) (x : A) :
  (1 <= n)%nat -> lastn n (lastn n l ++ [x]) = lastn n (l ++ [x]).
Proof.
  intros Hn.
  destruct (Nat.le_gt_cases (List.length l) n) as [Hle|Hgt].
  - rewrite (lastn_all _ _ _ Hle). reflexivity.
  - unfold lastn at 1 3. rewrite !length_app, length_lastn. cbn [List.length].
    replace (Nat.min n (List.length l) + 1 - n)%nat with 1%nat by lia.
    unfold lastn.
    replace (List.length l + 1 - n)%nat
      with (1 + (List.length l - n))%nat by lia.
    rewrite <- skipn_skipn. f_equal.
    rewrite skipn_app.
    replace (List.length l - n - List.length l)%nat with 0%nat by lia.
    reflexivity.
Qed.

(** With a positive [max_history], trimming leaves the first message
    and the last [max_history] of the others. *)
Lemma trim_history_lastn (self : ConversationManager) (first : Message)
  (others : list Message) :
  1 <= max_history self ->
  messages self = first :: others ->
  trim_history self
  = Returned
      {| messages := first :: lastn (Z.to_nat (max_history self)) others;
         max_history := max_history self;
         total_tokens := total_tokens self |}.
Proof.
  intros Hpos Hm. unfold trim_history. rewrite Hm.
  unfold len. cbn [List.length].
  destruct (Z.gtb_spec (Z.of_nat (S (List.length others)))
              (max_history self + 1)) as [Hgt|Hle].
  - f_equal. f_equal. cbn [app]. f_equal.
    unfold slice_from, clamp, len. cbn [List.length].
    destruct (Z.ltb_spec (- max_history self) 0); [|lia].
    replace (Z.to_nat (Z.max 0 (- max_history self
                                + Z.of_nat (S (List.length others)))))
      with (S (List.length others - Z.to_nat (max_history self)))
      by lia.
    reflexivity.
  - rewrite lastn_all by lia. destruct self. simpl in *. subst.
    reflexivity.
Qed.

(** *** The history is a window *)

Lemma call_window (self : ConversationManager) (c : Call)
  (first : Message) (done : list Message) :
  1 <= max_history self ->
  messages self = first :: lastn (Z.to_nat (max_history self)) done ->
  exists self',
    call self c = Returned self' /\
    messages self'
    = first :: lastn (Z.to_nat (max_history self)) (done ++ [message_of c])
    /\
    max_history self' = max_history self /\
    total_tokens self' = total_tokens self.
Proof.
  intros Hpos Hm.
  assert (H : forall m,
             exists self',
               trim_history (append self m) = Returned self' /\
               messages self'
               = first :: lastn (Z.to_nat (max_history self)) (done ++ [m])
               /\
               max_history self' = max_history self /\
               total_tokens self' = total_tokens self).
  { intros m.
    rewrite (trim_history_lastn (append self m) first
               (lastn (Z.to_nat (max_history self)) done ++ [m]));
      [|exact Hpos|unfold append; cbn [messages]; rewrite Hm; reflexivity].
    eexists. split; [reflexivity|]. cbn [messages max_history total_tokens].
    unfold append. cbn [max_history total_tokens].
    rewrite lastn_lastn_snoc by lia. auto. }
  destruct c; apply H.
Qed.

Lemma calls_window (cs : list Call) :
  forall (self : ConversationManager) (first : Message)
         (done : list Message),
    1 <= max_history self ->
    messages self = first :: lastn (Z.to_nat (max_history self)) done ->
    exists self',
      calls self cs = Returned self' /\
      messages self'
      = first :: lastn (Z.to_nat (max_history self))
                   (done ++ List.map message_of cs) /\
      max_history self' = max_history self /\
      total_tokens self' = total_tokens self.
Proof.
  induction cs as [|c cs IH]; intros self first done Hpos Hm.
  - exists self. simpl. rewrite app_nil_r. auto.
  - destruct (call_window self c first done Hpos Hm)
      as (s1 & Hc & Hm1 & Hh & Ht).
    cbn [calls]. rewrite Hc.
    destruct (IH s1 first (done ++ [message_of c])) as (s2 & Hcs & Hm2 & Hh2 & Ht2).
    + lia.
    + rewrite Hh. exact Hm1.
    + exists s2. split; [exact Hcs|].
      cbn [List.map]. rewrite Hh in Hm2.
      rewrite <- app_assoc in Hm2. cbn [app] in Hm2.
      split; [exact Hm2|]. lia.
Qed.

(** X13.  With a positive [max_history], whatever messages are added to
    a new [ConversationManager], its history is the system message
    followed by the last [max_history] messages added, in the order
    they were added: trimming drops the oldest and nothing else. *)
Theorem history_is_recent_window :
  forall system_prompt max_history cs,
    1 <= max_history ->
    exists self,
      calls (init system_prompt max_history) cs = Returned self /\
      messages self
      = {| role := lit "system"; content := system_prompt |}
        :: lastn (Z.to_nat max_history) (List.map message_of cs) /\
      Chat.max_history self = max_history.
Proof.
  intros system_prompt mh cs Hpos.
  destruct (calls_window cs (init system_prompt mh)
              {| role := lit "system"; content := system_prompt |} [])
    as (self & Hc & Hm & Hh & _).
  - exact Hpos.
  - reflexivity.
  - exists self. auto.
Qed.

(** X13, witness: three messages into a history of two. *)
Lemma history_is_recent_window_witness :
  exists self,
    calls (init (lit "You are helpful.") 2)
      [AddUser (lit "a"); AddAssistant (lit "b"); AddUser (lit "c")]
    = Returned self /\
    messages self
    = {| role := lit "system"; content := lit "You are helpful." |}
      :: lastn (Z.to_nat 2)
           (List.map message_of
              [AddUser (lit "a"); AddAssistant (lit "b"); AddUser (lit "c")])
    /\
    Chat.max_history self = 2.
Proof.
  apply (history_is_recent_window (lit "You are helpful.") 2
           [AddUser (lit "a"); AddAssistant (lit "b"); AddUser (lit "c")]).
  lia.
Defined.

Lemma count_role_messages (cs : list Call) :
  count_role (lit "user") (List.map message_of cs)
  = List.length (filter is_user cs) /\
  count_role (lit "assistant") (List.map message_of cs)
  = List.length (filter is_assistant cs).
Proof.
  unfold count_role.
  induction cs as [|c cs (IHu & IHa)]; [split; reflexivity|].
  destruct c; cbn [List.map filter message_of role is_user is_assistant].
  - change (str_eqb (lit "user") (lit "user")) with true.
    change (str_eqb (lit "user") (lit "assistant")) with false.
    cbn [List.length]. rewrite IHu, IHa. auto.
  - change (str_eqb (lit "assistant") (lit "user")) with false.
    change (str_eqb (lit "assistant") (lit "assistant")) with true.
    cbn [List.length]. rewrite IHu, IHa. auto.
Qed.

Lemma lastn_map (A B : Type) (f : A -> B) (n : nat) (l : list A) :
  lastn n (List.map f l) = List.map f (lastn n l).
Proof. unfold lastn. rewrite length_map. apply skipn_map. Qed.

(** X14.  With a positive [max_history], the figures of
    [get_conversation_summary] are those of the window, not of the
    whole conversation: it counts the user and the assistant messages
    among the last [max_history] messages added, which together are at
    most [max_history]. *)
Theorem summary_counts_the_window :
  forall system_prompt max_history cs self,
    1 <= max_history ->
    calls (init system_prompt max_history) cs = Returned self ->
    let window := lastn (Z.to_nat max_history) cs in
    get_conversation_summary self
    = lit "Messages: "
      ++ str_of_nat (List.length (filter is_user window))
      ++ lit " user, "
      ++ str_of_nat (List.length (filter is_assistant window))
      ++ lit " assistant | Total tokens: "
      ++ lit "0"
    /\
    Z.of_nat (List.length (filter is_user window)
              + List.length (filter is_assistant window))
    <= max_history.
Proof.
  intros system_prompt mh cs self Hpos Hcalls window.
  destruct (calls_window cs (init system_prompt mh)
              {| role := lit "system"; content := system_prompt |} []
              Hpos eq_refl)
    as (self' & Hc & Hm & _ & Ht).
  rewrite Hcalls in Hc. injection Hc as <-.
  cbn [app init max_history total_tokens] in Hm, Ht.
  split.
  - unfold get_conversation_summary. rewrite Hm, Ht.
    rewrite lastn_map. fold window.
    unfold count_role. cbn [filter role].
    change (str_eqb (lit "system") (lit "user")) with false.
    change (str_eqb (lit "system") (lit "assistant")) with false.
    cbv iota.
    destruct (count_role_messages window) as [Hu Ha].
    unfold count_role in Hu, Ha. rewrite Hu, Ha. reflexivity.
  - assert (Hw : (List.length window <= Z.to_nat mh)%nat).
    { subst window. rewrite length_lastn. lia. }
    assert (Hsplit : (List.length (filter is_user window)
                      + List.length (filter is_assistant window)
                      = List.length window)%nat).
    { clear. induction window as [|c w IH]; [reflexivity|].
      destruct c; simpl; lia. }
    lia.
Qed.

(** X14, witness. *)
Lemma summary_counts_the_window_witness :
  exists self,
    calls (init (lit "You are helpful.") 2)
      [AddUser (lit "a"); AddAssistant (lit "b"); AddUser (lit "c")]
    = Returned self /\
    get_conversation_summary self
    = lit "Messages: 1 user, 1 assistant | Total tokens: 0".
Proof.
  eexists. split; [reflexivity|].
  refine (proj1 (summary_counts_the_window (lit "You are helpful.") 2
                   [AddUser (lit "a"); AddAssistant (lit "b");
                    AddUser (lit "c")] _ _ eq_refl)).
  lia.
Defined.

(** *** A streamed turn *)

(** Adding a message does not raise. *)
Lemma add_returns (self : ConversationManager) (m : Message) :
  exists self', trim_history (append self m) = Returned self'.
Proof.
  unfold trim_history, append. cbn [messages max_history].
  destruct (len (messages self ++ [m]) >? max_history self + 1);
    [|eauto].
  destruct (messages self); simpl; eauto.
Qed.

Lemma said_app (a b : list Output) : said (a ++ b) = said a ++ said b.
Proof.
  induction a as [|o a IH]; [reflexivity|].
  destruct o; cbn [app said]; rewrite ?IH, ?app_assoc; reflexivity.
Qed.

Lemma requests_app (a b : list Output) :
  requests (a ++ b) = requests a ++ requests b.
Proof.
  induction a as [|o a IH]; [reflexivity|].
  destruct o; cbn [app requests]; rewrite ?IH; reflexivity.
Qed.

Lemma consume_app (p q : list Piece) :
  forall full usage_info,
    consume (p ++ q) full usage_info
    = let '(out, full', usage') := consume p full usage_info in
      let '(out', full'', usage'') := consume q full' usage' in
      (out ++ out', full'', usage'').
Proof.
  induction p as [|x p IH]; intros full usage_info; cbn [app consume].
  - destruct (consume q full usage_info) as [[o f] u]. reflexivity.
  - destruct x as [content fr|u]; rewrite IH.
    + destruct (consume p (full ++ content) usage_info) as [[o f] u'].
      destruct (consume q f u') as [[o' f'] u'']. reflexivity.
    + reflexivity.
Qed.

Lemma consume_chunk (c : Chunk) (full : str) (usage_info : option Usage) :
  exists out,
    consume (pieces_of c) full usage_info
    = (out, full ++ content_of c,
       match usage c with Some u => Some u | None => usage_info end) /\
    said out = content_of c /\
    requests out = [].
Proof.
  unfold pieces_of, content_of.
  destruct (choices c) as [|first others];
    [|destruct (delta_content first) as [[|ch content]|]];
    destruct (usage c) as [u|]; cbn [app consume];
    eexists; rewrite ?app_nil_r; (split; [reflexivity|]);
    cbn [said requests]; rewrite ?app_nil_r; auto.
Qed.

Lemma consume_stream (cs : list Chunk) :
  forall full usage_info,
  exists out,
    consume (flat_map pieces_of cs) full usage_info
    = (out, full ++ streamed_text cs, last_usage cs usage_info) /\
    said out = streamed_text cs /\
    requests out = [].
Proof.
  unfold streamed_text.
  induction cs as [|c cs IH]; intros full usage_info.
  - exists []. simpl. rewrite app_nil_r. auto.
  - cbn [flat_map List.map List.concat last_usage].
    rewrite consume_app.
    destruct (consume_chunk c full usage_info) as (o1 & -> & Hs1 & Hr1).
    destruct (IH (full ++ content_of c)
                (match usage c with Some u => Some u | None => usage_info end))
      as (o2 & -> & Hs2 & Hr2).
    exists (o1 ++ o2). rewrite <- app_assoc.
    split; [reflexivity|].
    rewrite said_app, requests_app, Hs1, Hs2, Hr1, Hr2. auto.
Qed.

(** A turn sends one request: the history after the user's message. *)
Lemma turn_sends_one_request conversation service user_input c1 :
  add_user_message conversation user_input = Returned c1 ->
  exists c out,
    handle_streaming_response conversation service user_input
    = Returned (c, out) /\
    requests out = [messages c1].
Proof.
  intros Hadd. unfold handle_streaming_response. rewrite Hadd.
  unfold get_messages, stream_chat_completion.
  destruct (consume_stream (chunks (service (messages c1))) [] None)
    as (out & -> & _ & Hreq).
  assert (Hout : forall tail,
             requests tail = [] ->
             requests ((AssistantPrompt :: Sent (messages c1) :: out) ++ tail)
             = [messages c1]).
  { intros tail Ht. rewrite requests_app. cbn [requests].
    rewrite Hreq, Ht. reflexivity. }
  destruct (failure (service (messages c1))) as [e|].
  { eexists. eexists. split; [reflexivity|]. apply Hout. reflexivity. }
  destruct (if truthy _ then _ else _) as [c2|e].
  - destruct (last_usage _ None) as [u|];
      eexists; eexists; (split; [reflexivity|]); apply Hout; reflexivity.
  - eexists. eexists. split; [reflexivity|]. apply Hout. reflexivity.
Qed.

(** X15.  When the stream of a turn completes,
    [handle_streaming_response] has sent one request with the history
    as it is after the user's message; what it printed of the reply and
    what it appends as the assistant's message are both the contents of
    all chunks, in order; nothing is appended when that text is empty;
    and the token count grows by the total of the last usage reported,
    if any. *)
Theorem completed_stream_is_recorded :
  forall conversation service user_input c1,
    add_user_message conversation user_input = Returned c1 ->
    failure (service (messages c1)) = None ->
    let reply := streamed_text (chunks (service (messages c1))) in
    exists c2 c3 out,
      handle_streaming_response conversation service user_input
      = Returned (c3, out) /\
      requests out = [messages c1] /\
      said out = reply /\
      (if truthy reply then add_assistant_message c1 reply
       else Returned c1) = Returned c2 /\
      messages c3 = messages c2 /\
      total_tokens c3
      = total_tokens c1
        + match last_usage (chunks (service (messages c1))) None with
          | Some u => usage_total_tokens u
          | None => 0
          end.
Proof.
  intros conversation service user_input c1 Hadd Hfail reply.
  unfold handle_streaming_response. rewrite Hadd.
  unfold get_messages, stream_chat_completion. rewrite Hfail.
  destruct (consume_stream (chunks (service (messages c1))) [] None)
    as (out & -> & Hsaid & Hreq).
  cbn [app]. fold reply.
  assert (Hc2 : exists c2,
             (if truthy reply then add_assistant_message c1 reply
              else Returned c1) = Returned c2 /\
             total_tokens c2 = total_tokens c1).
  { destruct (truthy reply); [|eauto].
    unfold add_assistant_message.
    destruct (add_returns c1 {| role := lit "assistant"; content := reply |})
      as (c2 & Hc2).
    exists c2. split; [exact Hc2|].
    unfold trim_history, append in Hc2. cbn [messages max_history] in Hc2.
    destruct (_ >? _) in Hc2;
      [destruct (messages c1 ++ _) in Hc2; [discriminate|]|];
      injection Hc2 as <-; reflexivity. }
  destruct Hc2 as (c2 & Hc2 & Htok). rewrite Hc2.
  assert (Hout : forall tail,
             requests (AssistantPrompt :: Sent (messages c1) :: out ++ tail)
             = messages c1 :: requests tail /\
             said (AssistantPrompt :: Sent (messages c1) :: out ++ tail)
             = reply ++ said tail).
  { intros tail. cbn [requests said].
    rewrite requests_app, said_app, Hreq, Hsaid. auto. }
  destruct (last_usage (chunks (service (messages c1))) None) as [u|].
  - exists c2, (update_token_count c2 (usage_total_tokens u)). eexists.
    split; [reflexivity|].
    destruct (Hout [LineEnd; TokensUsed u]) as [H1 H2].
    cbn [app]. rewrite H1, H2. cbn [requests said]. rewrite app_nil_r.
    cbn [update_token_count messages total_tokens].
    repeat split; auto. lia.
  - exists c2, c2. eexists. split; [reflexivity|].
    destruct (Hout [LineEnd]) as [H1 H2].
    cbn [app]. rewrite H1, H2. cbn [requests said]. rewrite app_nil_r.
    repeat split; auto. lia.
Qed.

(** X15, witness: a reply of "Hel", "lo" and a usage of 14 tokens. *)
Lemma completed_stream_is_recorded_witness :
  exists c1,
    add_user_message Scenario.small_talk (lit "Bye") = Returned c1 /\
    exists c2 c3 out,
      handle_streaming_response Scenario.small_talk
        (fun _ => Scenario.hello_stream) (lit "Bye")
      = Returned (c3, out) /\
      requests out = [messages c1] /\
      said out = lit "Hello" /\
      add_assistant_message c1 (lit "Hello") = Returned c2 /\
      messages c3 = messages c2 /\
      total_tokens c3 = total_tokens c1 + 14.
Proof.
  eexists. split; [reflexivity|].
  refine (completed_stream_is_recorded Scenario.small_talk
            (fun _ => Scenario.hello_stream) (lit "Bye") _ eq_refl eq_refl).
Defined.

(** X16.  When the stream of a turn breaks off,
    [handle_streaming_response] does not raise: it prints the error
    after what had arrived of the reply.  The user's message stays in
    the history, but no assistant message is appended and no tokens are
    counted, whatever had arrived. *)
Theorem broken_stream_is_dropped :
  forall conversation service user_input c1 e,
    add_user_message conversation user_input = Returned c1 ->
    failure (service (messages c1)) = Some e ->
    exists out,
      handle_streaming_response conversation service user_input
      = Returned (c1, out ++ [SayError e]) /\
      requests out = [messages c1] /\
      said out = streamed_text (chunks (service (messages c1))).
Proof.
  intros conversation service user_input c1 e Hadd Hfail.
  unfold handle_streaming_response. rewrite Hadd.
  unfold get_messages, stream_chat_completion. rewrite Hfail.
  destruct (consume_stream (chunks (service (messages c1))) [] None)
    as (out & -> & Hsaid & Hreq).
  exists (AssistantPrompt :: Sent (messages c1) :: out).
  split; [reflexivity|]. cbn [requests said]. rewrite Hreq, Hsaid. auto.
Qed.

(** X16, witness: the same reply with the connection lost at its
    end. *)
Lemma broken_stream_is_dropped_witness :
  exists c1 out,
    add_user_message Scenario.small_talk (lit "Bye") = Returned c1 /\
    handle_streaming_response Scenario.small_talk
      (fun _ => Scenario.broken_stream) (lit "Bye")
    = Returned
        (c1, out ++ [SayError (Exception (lit "Connection error."))]) /\
    requests out = [messages c1] /\
    said out = lit "Hello".
Proof.
  eexists.
  destruct (broken_stream_is_dropped Scenario.small_talk
              (fun _ => Scenario.broken_stream) (lit "Bye") _
              (Exception (lit "Connection error.")) eq_refl eq_refl)
    as (out & H1 & H2 & H3).
  exists out. split; [reflexivity|]. auto.
Defined.

(** X17.  Every turn sends exactly one request.  For a conversation
    with a positive [max_history] it holds the first message of the
    history, then the last [max_history] of the other messages and the
    user's new one: never more than [max_history + 1] messages, the
    user's message last. *)
Theorem request_is_the_window :
  forall conversation service user_input first others,
    1 <= max_history conversation ->
    messages conversation = first :: others ->
    let request :=
      first
      :: lastn (Z.to_nat (max_history conversation))
           (others ++ [{| role := lit "user"; content := user_input |}]) in
    exists c out,
      handle_streaming_response conversation service user_input
      = Returned (c, out) /\
      requests out = [request] /\
      len request <= max_history conversation + 1 /\
      last request first = {| role := lit "user"; content := user_input |}.
Proof.
  intros conversation service user_input first others Hpos Hm request.
  assert (Hadd : add_user_message conversation user_input
                 = Returned
                     {| messages := request;
                        max_history := max_history conversation;
                        total_tokens := total_tokens conversation |}).
  { unfold add_user_message.
    rewrite (trim_history_lastn _ first
               (others ++ [{| role := lit "user"; content := user_input |}]));
      [reflexivity|exact Hpos|].
    unfold append. cbn [messages]. rewrite Hm. reflexivity. }
  assert (Hlen : len request <= max_history conversation + 1).
  { subst request. unfold len. cbn [List.length]. rewrite length_lastn. lia. }
  assert (Hlast : last request first
                  = {| role := lit "user"; content := user_input |}).
  { subst request. unfold lastn. rewrite length_app. cbn [List.length].
    set (n := Z.to_nat (max_history conversation)).
    assert (Hn : (1 <= n)%nat) by (subst n; lia).
    rewrite skipn_app.
    replace (List.length others + 1 - n - List.length others)%nat
      with 0%nat by lia.
    cbn [skipn].
    change (first :: skipn (List.length others + 1 - n) others
            ++ [{| role := lit "user"; content := user_input |}])
      with ((first :: skipn (List.length others + 1 - n) others)
            ++ [{| role := lit "user"; content := user_input |}]).
    apply last_last. }
  destruct (turn_sends_one_request conversation service user_input _ Hadd)
    as (c & out & H1 & H2).
  exists c, out. split; [exact H1|]. split; [exact H2|]. auto.
Qed.

(** X17, witness: the small talk with room for four messages. *)
Lemma request_is_the_window_witness :
  exists c out,
    handle_streaming_response Scenario.small_talk
      (fun _ => Scenario.hello_stream) (lit "Bye")
    = Returned (c, out) /\
    requests out
    = [Scenario.system_message
       :: lastn (Z.to_nat 4)
            (List.tl (messages Scenario.small_talk)
             ++ [{| role := lit "user"; content := lit "Bye" |}])] /\
    len (Scenario.system_message
         :: lastn (Z.to_nat 4)
              (List.tl (messages Scenario.small_talk)
               ++ [{| role := lit "user"; content := lit "Bye" |}]))
    <= 4 + 1 /\
    last (Scenario.system_message
          :: lastn (Z.to_nat 4)
               (List.tl (messages Scenario.small_talk)
                ++ [{| role := lit "user"; content := lit "Bye" |}]))
      Scenario.system_message
    = {| role := lit "user"; content := lit "Bye" |}.
Proof.
  apply (request_is_the_window Scenario.small_talk
           (fun _ => Scenario.hello_stream) (lit "Bye")
           Scenario.system_message
           (List.tl (messages Scenario.small_talk))).
  - simpl. lia.
  - reflexivity.
Defined.

End ChatAppSpec.

(* ===================================================================== *)
(** ** Further properties of the first project                            *)
(* ===================================================================== *)

Module FirstProjectMore.

Import FirstProject FirstProjectApp PyFacts.

Local Open Scope Z_scope.
Local Unset Implicit Arguments.

Lemma report_one_line (e : exn) :
  exists line, report e = [Print line] /\ is_failure (Print line) = true.
Proof.
  unfold report.
  destruct e; try (eexists; split; reflexivity).
  destruct status_code as [z|]; [|eexists; split; reflexivity].
  repeat match goal with
         | |- context [match ?p with _ => _ end] => destruct p
         end; eexists; split; reflexivity.
Qed.

(** X18.  [analyze_text] on a text that is not blank returns without
    raising; it asks the service for the language, then the sentiment,
    then the key phrases, and stops at the first of them that fails:
    the requests made are the first one, two or three of these, at most
    one failure is reported, and one is reported whenever fewer than
    three requests were made. *)
Theorem analysis_stops_at_first_failure :
  forall client text,
    only_whitespace text = false ->
    let t := snd (analyze_text client text) in
    fst (analyze_text client text) = Returned tt /\
    (operations t = [DetectLanguage] \/
     operations t = [DetectLanguage; AnalyzeSentiment] \/
     operations t
     = [DetectLanguage; AnalyzeSentiment; ExtractKeyPhrases]) /\
    (failures t <= 1)%nat /\
    (operations t
     <> [DetectLanguage; AnalyzeSentiment; ExtractKeyPhrases] ->
     failures t = 1%nat).
Proof.
  intros client text Htext t. subst t.
  unfold analyze_text.
  rewrite FirstProjectSpec.empty_test_spec, Htext.
  cbn [fst snd]. split; [reflexivity|].
  remember (if len text >? 5000 then slice_to 5000 text else text)
    as doc eqn:Hdoc.
  assert (Hpre : forall rest,
             operations
               ((if len text >? 5000 then [Print WarnTruncated] else [])
                ++ Print (Analyzing (display_text doc)) :: rest)
             = operations rest /\
             failures
               ((if len text >? 5000 then [Print WarnTruncated] else [])
                ++ Print (Analyzing (display_text doc)) :: rest)
             = failures rest).
  { intros rest. destruct (len text >? 5000); split; reflexivity. }
  destruct (Hpre (analysis client doc)) as [-> ->]. clear Hpre.
  unfold analysis.
  match goal with
  | |- context [detect_language client ?d] =>
      destruct (detect_language client d) as [name|e]
  end.
  2:{ destruct (report_one_line e) as (line & -> & Hl).
      unfold failures. simpl in Hl |- *. rewrite Hl. simpl.
      repeat split; auto; try lia. }
  match goal with
  | |- context [analyze_sentiment client ?d] =>
      destruct (analyze_sentiment client d) as [sentiment|e]
  end.
  2:{ destruct (report_one_line e) as (line & -> & Hl).
      unfold failures. simpl in Hl |- *. rewrite Hl. simpl.
      repeat split; auto; try lia. }
  match goal with
  | |- context [extract_key_phrases client ?d] =>
      destruct (extract_key_phrases client d) as [phrases|e]
  end.
  2:{ destruct (report_one_line e) as (line & -> & Hl).
      unfold failures. simpl in Hl |- *. rewrite Hl. simpl.
      repeat split; auto; try lia. }
  unfold failures.
  destruct (truthy phrases); cbn [operations filter is_failure List.length];
    repeat split; auto; try lia; intros H; contradiction.
Qed.

(** X18, witness: a client that fails at the second request. *)
Lemma analysis_stops_at_first_failure_witness :
  let t := snd (analyze_text Scenario.moody (lit "I love Azure")) in
  fst (analyze_text Scenario.moody (lit "I love Azure")) = Returned tt /\
  (operations t = [DetectLanguage] \/
   operations t = [DetectLanguage; AnalyzeSentiment] \/
   operations t = [DetectLanguage; AnalyzeSentiment; ExtractKeyPhrases]) /\
  (failures t <= 1)%nat /\
  (operations t <> [DetectLanguage; AnalyzeSentiment; ExtractKeyPhrases] ->
   failures t = 1%nat).
Proof.
  apply (analysis_stops_at_first_failure Scenario.moody (lit "I love Azure")).
  reflexivity.
Defined.

(** *** The interactive loop *)

Lemma analyze_text_returns (client : Client) (text : str) :
  fst (analyze_text client text) = Returned tt.
Proof.
  unfold analyze_text.
  destruct (negb (truthy text) || negb (truthy (strip text))); reflexivity.
Qed.

(** What is left of a text after [strip] is not blank, unless nothing
    is left. *)
Lemma strip_not_blank (s : str) :
  strip s <> [] -> only_whitespace (strip s) = false.
Proof.
  intros Hne. unfold strip, rstrip in *.
  rewrite only_whitespace_rev.
  pose proof (lstrip_head (rev (lstrip s))) as Hh.
  destruct (lstrip (rev (lstrip s))) as [|c l]; [contradiction Hne; reflexivity|].
  unfold only_whitespace. simpl. rewrite Hh. reflexivity.
Qed.

Lemma analysed_app (a b : list Shown) :
  analysed (a ++ b) = analysed a ++ analysed b.
Proof.
  induction a as [|x a IH]; [reflexivity|].
  destruct x as [|e| | |e]; cbn [app analysed]; try exact IH.
  destruct e; cbn [analysed]; rewrite ?IH; reflexivity.
Qed.

(** The documents [analyze_text] sends for a text that is not blank:
    the text, cut to 5000 characters. *)
Lemma analysed_by_analyze_text (client : Client) (text : str) documents :
  only_whitespace text = false ->
  In documents
    (analysed (List.map Analysis (snd (analyze_text client text)))) ->
  documents = [firstn 5000 text].
Proof.
  intros Htext Hin.
  assert (Hcalls : exists op,
             In (Call op documents) (snd (analyze_text client text))).
  { revert Hin. generalize (snd (analyze_text client text)).
    induction l as [|e l IH]; simpl; [contradiction|].
    destruct e; simpl.
    - intros H. destruct (IH H) as (op & Hop). eauto.
    - intros [<-|H]; [eauto|]. destruct (IH H) as (op' & Hop). eauto. }
  destruct Hcalls as (op & Hop).
  unfold analyze_text in Hop.
  rewrite FirstProjectSpec.empty_test_spec, Htext in Hop. cbn [snd] in Hop.
  destruct (Z.gtb_spec (len text) 5000) as [Hlong|Hshort].
  - cbn [app] in Hop. destruct Hop as [H|[H|H]]; try discriminate.
    rewrite (@FirstProjectSpec.analysis_documents _ _ _ _ H).
    f_equal. apply (slice_to_firstn 5000 text).
  - cbn [app] in Hop. destruct Hop as [H|H]; try discriminate.
    rewrite (@FirstProjectSpec.analysis_documents _ _ _ _ H).
    rewrite firstn_all2; [reflexivity|]. unfold len in Hshort. lia.
Qed.

(** The empty-text warning is printed for blank texts only. *)
Lemma analyze_text_no_warning (client : Client) (text : str) :
  only_whitespace text = false ->
  ~ In (Print WarnEmpty) (snd (analyze_text client text)).
Proof.
  intros Htext Hin.
  assert (Hrep : forall e, ~ In (Print WarnEmpty) (report e)).
  { intros e H. destruct (report_one_line e) as (l & Hl & Hf).
    rewrite Hl in H. destruct H as [H|[]].
    injection H as ->. discriminate Hf. }
  unfold analyze_text in Hin.
  rewrite FirstProjectSpec.empty_test_spec, Htext in Hin. cbn [snd] in Hin.
  apply in_app_or in Hin. destruct Hin as [Hin|[Hin|Hin]].
  - destruct (len text >? 5000); simpl in Hin; intuition discriminate.
  - discriminate.
  - revert Hin. generalize (if len text >? 5000 then slice_to 5000 text
                            else text).
    intros sent Hin. unfold analysis in Hin.
    destruct Hin as [Hin|Hin]; [discriminate|].
    match type of Hin with
    | context [detect_language client ?d] =>
        destruct (detect_language client d); [|exact (Hrep _ Hin)]
    end.
    destruct Hin as [Hin|[Hin|Hin]]; try discriminate.
    match type of Hin with
    | context [analyze_sentiment client ?d] =>
        destruct (analyze_sentiment client d); [|exact (Hrep _ Hin)]
    end.
    destruct Hin as [Hin|[Hin|Hin]]; try discriminate.
    match type of Hin with
    | context [extract_key_phrases client ?d] =>
        destruct (extract_key_phrases client d) as [phrases|];
          [|exact (Hrep _ Hin)]
    end.
    destruct (truthy phrases); destruct Hin as [Hin|[]]; discriminate.
Qed.

(** X19.  Whatever is typed, [interactive_mode] only ever sends for
    analysis a line that, stripped of surrounding whitespace, is not
    empty and is not one of the words that end the loop; what is sent
    is the stripped line (its first 5000 characters), so the
    empty-text warning of [analyze_text] cannot appear. *)
Theorem interactive_mode_sends_stripped_lines :
  forall lower fuel client inputs,
    let shown := snd (interactive_loop lower fuel client inputs) in
    (forall documents,
       In documents (analysed shown) ->
       exists line,
         In line inputs /\
         strip line <> [] /\
         is_quit lower (strip line) = false /\
         documents = [firstn 5000 (strip line)]) /\
    ~ In (Analysis (Print WarnEmpty)) shown.
Proof.
  intros lower fuel client.
  induction fuel as [|fuel IH]; intros inputs shown; subst shown.
  { simpl. split; [contradiction | tauto]. }
  cbn [interactive_loop].
  destruct inputs as [|line rest].
  - specialize (IH []). cbv zeta in IH.
    destruct (interactive_loop lower fuel client []) as [ended shown].
    cbn [snd] in *. destruct IH as [IH1 IH2]. split.
    + intros documents H. cbn [analysed] in H. apply (IH1 documents H).
    + intros [H|[H|H]]; try discriminate. exact (IH2 H).
  - specialize (IH rest). cbv zeta in IH.
    destruct (is_quit lower (strip line)) eqn:Hq.
    { cbn [snd analysed]. split; [contradiction|].
      intros [H|[H|H]]; try discriminate; contradiction. }
    destruct (truthy (strip line)) eqn:Ht; cbn [negb].
    + pose proof (analyze_text_returns client (strip line)) as Hr.
      assert (Hne : strip line <> []).
      { intros H. rewrite H in Ht. discriminate. }
      pose proof (strip_not_blank line Hne) as Hblank.
      destruct (analyze_text client (strip line)) as [result t] eqn:Ha.
      cbn [fst] in Hr. subst result.
      destruct (interactive_loop lower fuel client rest) as [ended shown].
      cbn [snd app] in *. destruct IH as [IH1 IH2]. split.
      * intros documents H. cbn [analysed] in H.
        rewrite analysed_app in H. apply in_app_or in H.
        destruct H as [H|H].
        -- exists line. split; [left; reflexivity|].
           split; [exact Hne|]. split; [exact Hq|].
           apply (analysed_by_analyze_text client (strip line) documents
                    Hblank).
           rewrite Ha. exact H.
        -- destruct (IH1 documents H) as (l & Hl & Hrest).
           exists l. split; [right; exact Hl | exact Hrest].
      * intros [H|H]; [discriminate|].
        apply in_app_or in H. destruct H as [H|H]; [|exact (IH2 H)].
        apply in_map_iff in H. destruct H as (e & He & Hin).
        injection He as ->.
        apply (analyze_text_no_warning client (strip line) Hblank).
        rewrite Ha. exact Hin.
    + destruct (interactive_loop lower fuel client rest) as [ended shown].
      cbn [snd] in *. destruct IH as [IH1 IH2]. split.
      * intros documents H. cbn [analysed] in H.
        destruct (IH1 documents H) as (l & Hl & Hrest).
        exists l. split; [right; exact Hl | exact Hrest].
      * intros [H|[H|H]]; try discriminate. exact (IH2 H).
Qed.


Lemma loop_errors_app (a b : list Shown) :
  loop_errors (a ++ b) = (loop_errors a + loop_errors b)%nat.
Proof.
  induction a as [|x a IH]; [reflexivity|].
  destruct x; cbn [app loop_errors]; rewrite IH; reflexivity.
Qed.

Lemma loop_errors_analysis (t : list Event) :
  loop_errors (List.map Analysis t) = 0%nat.
Proof.
  induction t as [|e t IH]; [reflexivity|]. exact IH.
Qed.

(** One turn of the loop on a line that does not end it: nothing but
    the prompt and what the turn prints comes before the rest, and the
    turn reports no error of the loop. *)
Lemma interactive_turn lower fuel client line rest :
  is_quit lower (strip line) = false ->
  exists turn,
    loop_errors turn = 0%nat /\
    interactive_loop lower (S fuel) client (line :: rest)
    = (fst (interactive_loop lower fuel client rest),
       Prompt :: turn ++ snd (interactive_loop lower fuel client rest)).
Proof.
  intros Hq. cbn [interactive_loop]. rewrite Hq.
  destruct (truthy (strip line)); cbn [negb].
  - pose proof (analyze_text_returns client (strip line)) as Hr.
    destruct (analyze_text client (strip line)) as [result t].
    cbn [fst] in Hr. subst result.
    destruct (interactive_loop lower fuel client rest) as [ended shown].
    exists (List.map Analysis t). split; [apply loop_errors_analysis|].
    reflexivity.
  - destruct (interactive_loop lower fuel client rest) as [ended shown].
    exists [PleaseEnter]. split; reflexivity.
Qed.

(** X20.  When none of the lines typed is a word that ends the loop,
    [interactive_mode] does not end after the last line: the end of the
    input raises in [input], the loop catches it and asks again.  For
    every number of turns the loop is still running, and each turn after
    the last line reports one error. *)
Theorem end_of_input_does_not_end_the_loop :
  forall lower client inputs fuel,
    (forall line, In line inputs -> is_quit lower (strip line) = false) ->
    fst (interactive_loop lower fuel client inputs) = false /\
    loop_errors (snd (interactive_loop lower fuel client inputs))
    = (fuel - List.length inputs)%nat.
Proof.
  intros lower client inputs fuel. revert inputs.
  induction fuel as [|fuel IH]; intros inputs Hq.
  { split; reflexivity. }
  destruct inputs as [|line rest].
  - specialize (IH [] Hq). cbn [interactive_loop].
    destruct (interactive_loop lower fuel client []) as [ended shown].
    cbn [fst snd loop_errors List.length] in *.
    destruct IH as [-> ->]. split; [reflexivity | lia].
  - destruct (interactive_turn lower fuel client line rest) as (turn & H0 & ->).
    { apply Hq. left. reflexivity. }
    destruct (IH rest) as [IH1 IH2].
    { intros l Hl. apply Hq. right. exact Hl. }
    cbn [fst snd loop_errors List.length].
    rewrite loop_errors_app, H0, IH1, IH2. split; [reflexivity | lia].
Qed.

(** X20, witness: two lines and no word that ends the loop, seven
    turns. *)
Lemma end_of_input_does_not_end_the_loop_witness :
  fst (interactive_loop ascii_lower 7 Scenario.english
         [lit "  I love Azure  "; lit "   "]) = false /\
  loop_errors (snd (interactive_loop ascii_lower 7 Scenario.english
                      [lit "  I love Azure  "; lit "   "]))
  = (7 - 2)%nat.
Proof.
  apply (end_of_input_does_not_end_the_loop ascii_lower Scenario.english
           [lit "  I love Azure  "; lit "   "] 7).
  intros line [<-|[<-|[]]]; reflexivity.
Defined.

(** X21.  A line that is, once stripped and in lower case, [quit],
    [exit] or [q] ends [interactive_mode] as soon as it is read: the
    loop says its thanks and stops, and the lines after it are never
    read.  In the model, whenever the turns allowed reach that line, the
    loop has ended, what was shown ends with the prompt and the thanks,
    and the outcome does not depend on the lines that follow. *)
Theorem quit_word_ends_the_loop :
  forall lower client before line after fuel,
    is_quit lower (strip line) = true ->
    (List.length before < fuel)%nat ->
    (exists shown,
       interactive_loop lower fuel client (before ++ line :: after)
       = (true, shown ++ [Prompt; Thanks])) /\
    interactive_loop lower fuel client (before ++ line :: after)
    = interactive_loop lower fuel client (before ++ [line]).
Proof.
  intros lower client before line after fuel Hq. revert fuel.
  induction before as [|first before IH]; intros fuel Hfuel.
  - destruct fuel as [|fuel]; [cbn in Hfuel; lia|].
    cbn [app interactive_loop]. rewrite Hq.
    split; [exists []; reflexivity | reflexivity].
  - destruct fuel as [|fuel]; [cbn in Hfuel; lia|].
    cbn [List.length] in Hfuel.
    destruct (IH fuel) as [(shown & Hs) Hi]; [lia|].
    cbn [app].
    destruct (is_quit lower (strip first)) eqn:Hf.
    + cbn [interactive_loop]. rewrite Hf.
      split; [exists []; reflexivity | reflexivity].
    + split.
      * destruct (interactive_turn lower fuel client first
                    (before ++ line :: after) Hf) as (turn & _ & ->).
        rewrite Hs. cbn [fst snd].
        exists (Prompt :: turn ++ shown).
        cbn [app]. rewrite <- app_assoc. reflexivity.
      * cbn [interactive_loop]. rewrite Hf, Hi. reflexivity.
Qed.

(** X21, witness: [QUIT] typed as the third line. *)
Lemma quit_word_ends_the_loop_witness :
  (exists shown,
     interactive_loop ascii_lower 5 Scenario.english
       ([lit "  I love Azure  "; lit "   "] ++ lit "QUIT" :: [lit "never read"])
     = (true, shown ++ [Prompt; Thanks])) /\
  interactive_loop ascii_lower 5 Scenario.english
    ([lit "  I love Azure  "; lit "   "] ++ lit "QUIT" :: [lit "never read"])
  = interactive_loop ascii_lower 5 Scenario.english
      ([lit "  I love Azure  "; lit "   "] ++ [lit "QUIT"]).
Proof.
  apply (quit_word_ends_the_loop ascii_lower Scenario.english
           [lit "  I love Azure  "; lit "   "] (lit "QUIT")
           [lit "never read"] 5).
  - reflexivity.
  - simpl. lia.
Defined.

End FirstProjectMore.
